(** * pyroscope-profiling: the FastAPI demo service and its load script

    A shallow embedding of [app/models.py], [app/schemas.py], [app/crud.py],
    [app/main.py] and [test_load.py], with the properties of the service's
    specification stated over it.

    Python integers are unbounded, so they are [Z]; Python floats are
    binary64 floats, so they are [PrimFloat.float]; strings are [string];
    rows are records; a table is the list of its rows in storage order.
    Raising an exception is a [Raise] result; code that goes through the
    database session runs in a state-and-exception monad over the world the
    request sees. *)

From Stdlib Require Import ZArith QArith List String Lia Bool.
From Stdlib Require DecimalString DecimalZ Floats.
From stdpp Require Import base tactics list.
From Equations Require Import Equations.
Import ListNotations.

Local Open Scope string_scope.
Local Open Scope list_scope.
Local Open Scope Z_scope.

(** ** Outcomes of Python code *)

(** The exceptions the service can raise.  [HTTPException] is FastAPI's;
    [IntegrityError] (a constraint is violated), [DataError] (a value the
    database refuses), [OperationalError] (the database cannot be reached)
    and [InvalidRequestError] (an object the session cannot reload) are
    SQLAlchemy's; [RequestValidationError] is raised by the framework when a
    request body does not fit its schema. *)
Inductive exn : Type :=
| HTTPException (status_code : Z) (detail : string)
| IntegrityError
| DataError
| OperationalError
| InvalidRequestError
| RequestValidationError.

Inductive result (A : Type) : Type :=
| Return (a : A)
| Raise (e : exn).
Arguments Return {A} a.
Arguments Raise {A} e.

(** The status code FastAPI answers with: the route's default on a normal
    return, the exception's own code for an [HTTPException], 422 for a body
    that fails validation, 500 for anything else. *)
Definition status_code_of {A} (r : result A) : Z :=
  match r with
  | Return _ => 200
  | Raise (HTTPException c _) => c
  | Raise RequestValidationError => 422
  | Raise _ => 500
  end.

(** ** Python built-ins used by the compute endpoints *)
Module Py.

(** [range(stop)]: the integers [0 .. stop-1], empty when [stop <= 0]. *)
Definition range (stop : Z) : list Z :=
  map Z.of_nat (seq 0 (Z.to_nat stop)).

(** [sum(iterable)]: left-to-right accumulation from 0. *)
Definition sum (l : list Z) : Z := fold_left Z.add l 0.

(** [str(n)] of an [int], as an f-string puts it in: the decimal numeral,
    with a minus sign before it when [n] is negative. *)
Definition str (n : Z) : string :=
  DecimalString.NilEmpty.string_of_int (Z.to_int n).

(** [x < n] for a [float] [x] and an [int] [n].  Python compares the two
    numbers as they are, without rounding the integer: an infinity is
    below or above every integer, and a NaN is below none. *)
Definition float_lt_int (x : PrimFloat.float) (n : Z) : bool :=
  match FloatOps.Prim2SF x with
  | SpecFloat.S754_zero _ => 0 <? n
  | SpecFloat.S754_infinity negative => negative
  | SpecFloat.S754_nan => false
  | SpecFloat.S754_finite negative m e =>
      let v := if negative then Z.neg m else Z.pos m in
      if 0 <=? e then v * 2 ^ e <? n else v <? n * 2 ^ (- e)
  end.

(** [s * n] on a string: [n] copies of [s], none when [n <= 0]. *)
Definition str_mul (s : string) (n : Z) : string :=
  String.concat "" (repeat s (Z.to_nat n)).

End Py.

(** ** Counting work

    The compute endpoints exist to burn CPU.  To state how much work an
    endpoint starts, evaluation is paired with the number of calls of the
    recursive helper it makes. *)
Definition Cost (A : Type) : Type := (A * N)%type.

Definition cost_ret {A} (a : A) : Cost A := (a, 0%N).
Definition cost_bind {A B} (m : Cost A) (k : A -> Cost B) : Cost B :=
  let '(a, c) := m in let '(b, d) := k a in (b, (c + d)%N).

(** ** [app/main.py]: the compute endpoints *)
Module compute.

(** The inner [fibonacci(num)] of [compute_fibonacci]: one tick per call,
    [num] itself when [num <= 1], the sum of the two recursive calls
    otherwise. *)
Equations? fibonacci (num : Z) : Cost Z by wf (Z.to_nat num) lt :=
  fibonacci num with Z_le_gt_dec num 1 := {
    | left _ => (num, 1%N)
    | right _ =>
        let a := fibonacci (num - 1) in
        let b := fibonacci (num - 2) in
        (fst a + fst b, (1 + snd a + snd b)%N) }.
Proof. all: lia. Qed.

Record FibonacciReply := {
  fib_n : Z;
  fib_fibonacci : Z;
  fib_message : string
}.

Definition compute_fibonacci (n : Z) : Cost (result FibonacciReply) :=
  if n <? 0 then
    cost_ret (Raise (HTTPException 400 "n must be non-negative"))
  else if n >? 40 then
    cost_ret (Raise (HTTPException 400 "n must be <= 40 to prevent timeout"))
  else
    cost_bind (fibonacci n) (fun r =>
    cost_ret (Return {| fib_n := n; fib_fibonacci := r;
                        fib_message := "CPU intensive computation completed" |})).

Record SumReply := {
  sum_n : Z;
  sum_sum : Z;
  sum_message : string
}.

Definition compute_sum (n : Z) : result SumReply :=
  if n <? 0 then
    Raise (HTTPException 400 "n must be non-negative")
  else if n >? 10000000 then
    Raise (HTTPException 400 "n must be <= 10000000")
  else
    let total := Py.sum (Py.range (n + 1)) in
    Return {| sum_n := n; sum_sum := total;
              sum_message := "Computation completed" |}.

End compute.

(** ** [app/models.py]: the two mapped tables *)
Module models.

Module User.
(** A row of [users]. *)
Record t := {
  id : Z;
  email : string;
  full_name : string;
  is_active : bool;
  created_at : Z
}.
End User.

Module Post.
(** A row of [posts]. *)
Record t := {
  id : Z;
  title : string;
  content : string;
  is_published : bool;
  created_at : Z;
  owner_id : Z
}.
End Post.

(** The cascade options of a [relationship]. *)
Inductive cascade_option :=
| save_update | merge | refresh_expire | expunge | delete | delete_orphan.

(** What the option name ["all"] stands for. *)
Definition all : list cascade_option :=
  [save_update; merge; refresh_expire; expunge; delete].

(** [User.posts = relationship("Post", ..., cascade="all, delete-orphan")] *)
Definition User_posts_cascade : list cascade_option :=
  all ++ [delete_orphan].

Definition is_delete (c : cascade_option) : bool :=
  match c with delete => true | _ => false end.

End models.

(** ** [app/schemas.py]: request payloads *)
Module schemas.

(** [UserCreate], after validation. *)
Record UserCreate := {
  email : string;
  full_name : string;
  is_active : bool
}.

(** [PostCreate], after validation. *)
Record PostCreate := {
  title : string;
  content : string;
  is_published : bool
}.

(** The JSON object sent to [POST /users/], before validation: the fields
    have the right JSON types, [is_active] may be absent. *)
Record UserCreateBody := {
  body_email : string;
  body_full_name : string;
  body_is_active : option bool
}.

Section Validation.
(** [EmailStr] hands the string to the [email-validator] package, which
    is not part of this repository: it either rejects the string or
    returns the address in normalised form. *)
Variable EmailStr : string -> option string.

(** Building a [UserCreate] from a request body:
    [email: EmailStr], [full_name: str], [is_active: bool = True]. *)
Definition UserCreate_validate (body : UserCreateBody) : option UserCreate :=
  match EmailStr (body_email body) with
  | Some e =>
      Some {| email := e;
              full_name := body_full_name body;
              is_active := default true (body_is_active body) |}
  | None => None
  end.
End Validation.

End schemas.

(** ** The database and the SQLAlchemy session

    [app/database.py] (the engine, [SessionLocal] and [Base]) is not among
    the sources, and SQLAlchemy is a library; this module is the model of
    them that the rest of the development runs on.  The tables and their
    constraints are those of [app/models.py].  A table is the list of its
    rows in storage order: an INSERT puts the new row last, a DELETE removes
    rows and keeps the order of the others, and a SELECT without ORDER BY
    scans the list from the front.  A session works on the rows as its own
    transaction sees them; the committed rows change at a COMMIT and nowhere
    else.  A serial moves on when a key is taken from it, whatever becomes
    of the transaction. *)
Module orm.
Import models.

Record Database := {
  users : list User.t;
  posts : list Post.t;
  users_id_seq : Z;      (* next value of the serial behind users.id *)
  posts_id_seq : Z;      (* next value of the serial behind posts.id *)
  now : Z                (* what the server's now() returns *)
}.

Inductive table := users_table | posts_table.

Inductive statement :=
| SelectOne                  (* SELECT 1 *)
| Select (t : table)
| Insert (t : table)
| Update (t : table)
| Delete (t : table).

(** What an observer of the server sees happen. *)
Inductive event :=
| Acquire (sid : nat)        (* SessionLocal() *)
| Release (sid : nat)        (* Session.close() *)
| Execute (s : statement)
| Commit (d : Database)      (* COMMIT: [d] are the committed rows from now on *)
| Rollback.

(** The server outside the request: the committed rows, whether the
    database answers, the events so far, the next session handle. *)
Record Server := {
  database : Database;
  database_up : bool;
  log : list event;
  next_sid : nat
}.

(** A mapped object that was constructed but not yet flushed. *)
Inductive instance :=
| NewUser (email full_name : string) (is_active : bool)
| NewPost (title content : string) (is_published : bool) (owner_id : Z).

(** The primary key a flushed object got. *)
Inductive identity :=
| UserKey (id : Z)
| PostKey (id : Z).

(** A session: its handle, the rows as its open transaction sees them
    ([None] when no transaction is open), the objects added and the
    objects marked deleted since the last flush, and the keys of the
    objects flushed so far.  An object handed to [add] is known by its
    position: those flushed first, then those still pending. *)
Record Session := {
  sid : nat;
  transaction : option Database;
  new : list instance;
  deleted : list User.t;
  identity_map : list identity
}.

Definition state : Type := (Session * Server)%type.

(** Code that uses a session: it may read and change the session and the
    server, and returns or raises. *)
Definition M (A : Type) : Type := state -> result A * state.

Definition ret {A} (a : A) : M A := fun st => (Return a, st).

Definition bind {A B} (m : M A) (k : A -> M B) : M B :=
  fun st =>
    match m st with
    | (Return a, st') => k a st'
    | (Raise e, st') => (Raise e, st')
    end.

Definition raise {A} (e : exn) : M A := fun st => (Raise e, st).

(** [try: m  except Exception as e: handler(e)] *)
Definition try_except {A} (m : M A) (handler : exn -> M A) : M A :=
  fun st =>
    match m st with
    | (Return a, st') => (Return a, st')
    | (Raise e, st') => handler e st'
    end.

Declare Scope orm_scope.
Delimit Scope orm_scope with orm.
Notation "x <- m ;; k" := (bind m (fun x => k))
  (at level 100, m at next level, k at level 200, right associativity) : orm_scope.
Notation "m ;; k" := (bind m (fun _ => k))
  (at level 100, k at level 200, right associativity) : orm_scope.
Local Open Scope orm_scope.

Definition set_transaction (t : option Database) (s : Session) : Session :=
  {| sid := sid s; transaction := t; new := new s;
     deleted := deleted s; identity_map := identity_map s |}.

Definition record (e : event) (srv : Server) : Server :=
  {| database := database srv; database_up := database_up srv;
     log := log srv ++ [e]; next_sid := next_sid srv |}.

(** Sending a statement: it fails when the database cannot be reached;
    otherwise it opens the transaction if none is open, and gives the rows
    the transaction sees. *)
Definition execute (stmt : statement) : M Database :=
  fun '(s, srv) =>
    if database_up srv then
      let d := default (database srv) (transaction s) in
      (Return d, (set_transaction (Some d) s, record (Execute stmt) srv))
    else (Raise OperationalError, (s, srv)).

(** The rows after a statement of the open transaction changed them. *)
Definition write (d : Database) : M unit :=
  fun '(s, srv) => (Return tt, (set_transaction (Some d) s, srv)).

(** *** Queries *)

(** [db.query(Model)] and what [filter], [offset] and [limit] add to it. *)
Record Query (R : Type) := {
  q_table : table;
  q_rows : Database -> list R;
  q_filter : R -> bool;
  q_offset : option Z;
  q_limit : option Z
}.
Arguments q_table {R} _.
Arguments q_rows {R} _ _.
Arguments q_filter {R} _ _.
Arguments q_offset {R} _.
Arguments q_limit {R} _.

Definition query_User : Query User.t :=
  {| q_table := users_table; q_rows := users; q_filter := fun _ => true;
     q_offset := None; q_limit := None |}.

Definition query_Post : Query Post.t :=
  {| q_table := posts_table; q_rows := posts; q_filter := fun _ => true;
     q_offset := None; q_limit := None |}.

Definition filter_ {R} (p : R -> bool) (q : Query R) : Query R :=
  {| q_table := q_table q; q_rows := q_rows q;
     q_filter := fun r => q_filter q r && p r;
     q_offset := q_offset q; q_limit := q_limit q |}.

Definition offset {R} (n : Z) (q : Query R) : Query R :=
  {| q_table := q_table q; q_rows := q_rows q; q_filter := q_filter q;
     q_offset := Some n; q_limit := q_limit q |}.

Definition limit {R} (n : Z) (q : Query R) : Query R :=
  {| q_table := q_table q; q_rows := q_rows q; q_filter := q_filter q;
     q_offset := q_offset q; q_limit := Some n |}.

(** What the database takes for an OFFSET or a LIMIT: a [bigint] that is
    not negative. *)
Definition row_count (n : Z) : bool := (0 <=? n) && (n <? 2 ^ 63).

(** OFFSET and LIMIT over the selected rows.  The database refuses a
    negative OFFSET or LIMIT, and one that is out of the range of
    [bigint]. *)
Definition window {R} (off lim : option Z) (rows : list R) : result (list R) :=
  if negb (row_count (default 0 off)) || negb (row_count (default 0 lim))
  then Raise DataError
  else
    let rest := drop (Z.to_nat (default 0 off)) rows in
    Return match lim with
           | Some n => take (Z.to_nat n) rest
           | None => rest
           end.

(** [Query.all()] *)
Definition all {R} (q : Query R) : M (list R) :=
  d <- execute (Select (q_table q)) ;;
  match window (q_offset q) (q_limit q) (List.filter (q_filter q) (q_rows q d)) with
  | Return rows => ret rows
  | Raise e => raise e
  end.

(** [Query.first()]: the query with LIMIT 1; its row, or [None]. *)
Definition first {R} (q : Query R) : M (option R) :=
  rows <- all (limit 1 q) ;;
  ret (head rows).

(** *** The unit of work *)

(** [Session.add(obj)]: the object waits for the next flush.  The value
    returned is the object itself, as the session knows it. *)
Definition add (obj : instance) : M nat :=
  fun '(s, srv) =>
    (Return (length (identity_map s) + length (new s))%nat,
     ({| sid := sid s; transaction := transaction s; new := new s ++ [obj];
         deleted := deleted s; identity_map := identity_map s |}, srv)).

(** [Session.delete(obj)] for a loaded user: marked, removed at the next
    flush. *)
Definition delete (obj : User.t) : M unit :=
  fun '(s, srv) =>
    (Return tt,
     ({| sid := sid s; transaction := transaction s; new := new s;
         deleted := deleted s ++ [obj]; identity_map := identity_map s |}, srv)).

(** The range of an [Integer] column. *)
Definition int4 (n : Z) : bool := (- 2 ^ 31 <=? n) && (n <? 2 ^ 31).

(** The serial of a table after a key was taken from it.  A serial does
    not go back: the key of a refused INSERT is lost. *)
Definition users_key_taken (d : Database) : Database :=
  {| users := users d; posts := posts d;
     users_id_seq := users_id_seq d + 1;
     posts_id_seq := posts_id_seq d; now := now d |}.
Definition posts_key_taken (d : Database) : Database :=
  {| users := users d; posts := posts d;
     users_id_seq := users_id_seq d;
     posts_id_seq := posts_id_seq d + 1; now := now d |}.

(** The INSERT of one pending object.  [users.email] is [unique=True];
    [posts.owner_id] is an [Integer] and a [ForeignKey("users.id")].  The
    key comes from the table's serial and [created_at] from the server's
    clock.  An [owner_id] out of the column's range is refused before a
    row is formed; a row that violates a constraint is refused after its
    key was taken.

    Outside the model: a string with a NUL character, which the driver
    refuses to send, and a serial that has run into a key stored by hand
    or out of the column's range; the properties that store a row say so
    where it matters. *)
Definition insert_row (obj : instance) : M identity :=
  match obj with
  | NewUser e f a =>
      d <- execute (Insert users_table) ;;
      if existsb (fun u => String.eqb (User.email u) e) (users d) then
        write (users_key_taken d) ;;
        raise IntegrityError
      else
        write {| users := users d ++
                   [ {| User.id := users_id_seq d; User.email := e;
                        User.full_name := f; User.is_active := a;
                        User.created_at := now d |} ];
                 posts := posts d;
                 users_id_seq := users_id_seq d + 1;
                 posts_id_seq := posts_id_seq d;
                 now := now d |} ;;
        ret (UserKey (users_id_seq d))
  | NewPost t c p o =>
      d <- execute (Insert posts_table) ;;
      if negb (int4 o) then raise DataError
      else if existsb (fun u => User.id u =? o) (users d) then
        write {| users := users d;
                 posts := posts d ++
                   [ {| Post.id := posts_id_seq d; Post.title := t;
                        Post.content := c; Post.is_published := p;
                        Post.created_at := now d; Post.owner_id := o |} ];
                 users_id_seq := users_id_seq d;
                 posts_id_seq := posts_id_seq d + 1;
                 now := now d |} ;;
        ret (PostKey (posts_id_seq d))
      else
        write (posts_key_taken d) ;;
        raise IntegrityError
  end.

(** The DELETE of one user marked deleted.  The session first loads the
    user's [posts] (the rows whose [owner_id] is the user's [id]).  With
    [delete] among the relationship's cascade options they are deleted
    too; without it they would be detached, and [owner_id] is
    [nullable=False]. *)
Definition delete_row (u : User.t) : M unit :=
  d <- execute (Select posts_table) ;;
  let owned := fun p => Post.owner_id p =? User.id u in
  (if existsb is_delete User_posts_cascade then
     match List.filter owned (posts d) with
     | [] => ret tt
     | _ :: _ =>
         d <- execute (Delete posts_table) ;;
         write {| users := users d;
                  posts := List.filter (fun p => negb (owned p)) (posts d);
                  users_id_seq := users_id_seq d;
                  posts_id_seq := posts_id_seq d;
                  now := now d |}
     end
   else
     match List.filter owned (posts d) with
     | [] => ret tt
     | _ :: _ => _ <- execute (Update posts_table) ;; raise IntegrityError
     end) ;;
  d <- execute (Delete users_table) ;;
  write {| users := List.filter (fun v => negb (User.id v =? User.id u)) (users d);
           posts := posts d;
           users_id_seq := users_id_seq d;
           posts_id_seq := posts_id_seq d;
           now := now d |}.

Fixpoint insert_rows (objs : list instance) : M (list identity) :=
  match objs with
  | [] => ret []
  | obj :: objs' =>
      k <- insert_row obj ;;
      ks <- insert_rows objs' ;;
      ret (k :: ks)
  end.

Fixpoint delete_rows (us : list User.t) : M unit :=
  match us with
  | [] => ret tt
  | u :: us' => delete_row u ;; delete_rows us'
  end.

(** [Session.flush()]: the pending INSERTs, then the pending DELETEs, all
    inside the open transaction. *)
Definition flush : M unit :=
  fun '(s, srv) =>
    (ks <- insert_rows (new s) ;;
     delete_rows (deleted s) ;;
     fun '(s', srv') =>
       (Return tt,
        ({| sid := sid s'; transaction := transaction s'; new := [];
            deleted := []; identity_map := identity_map s' ++ ks |}, srv')))
    (s, srv).

(** What a rollback leaves of a transaction: the keys it took from the
    serials. *)
Definition rolled_back (t : option Database) (d : Database) : Database :=
  match t with
  | Some t =>
      {| users := users d; posts := posts d;
         users_id_seq := users_id_seq t;
         posts_id_seq := posts_id_seq t; now := now d |}
  | None => d
  end.

(** The ROLLBACK of the session's transaction, if one is open. *)
Arguments rolled_back : simpl never.

Definition rollback (s : Session) (srv : Server) : Server :=
  match transaction s with
  | Some _ =>
      {| database := rolled_back (transaction s) (database srv);
         database_up := database_up srv;
         log := log srv ++ [Rollback];
         next_sid := next_sid srv |}
  | None => srv
  end.

(** [Session.commit()]: flush, then make the transaction's rows the
    committed rows, in one step.  When the flush fails the transaction is
    rolled back: the committed rows stay as they were. *)
Definition commit : M unit :=
  fun st =>
    match flush st with
    | (Return _, (s, srv)) =>
        let d := default (database srv) (transaction s) in
        (Return tt,
         (set_transaction None s,
          {| database := d;
             database_up := database_up srv;
             log := log srv ++ [Commit d];
             next_sid := next_sid srv |}))
    | (Raise e, (s, srv)) =>
        (Raise e,
         ({| sid := sid s; transaction := None; new := [];
             deleted := []; identity_map := identity_map s |},
          rollback s srv))
    end.

(** [Session.refresh(obj)] for a user: its row is read again by the key
    the flush gave it. *)
Definition refresh_User (obj : nat) : M User.t :=
  fun '(s, srv) =>
    match identity_map s !! obj with
    | Some (UserKey k) =>
        (d <- execute (Select users_table) ;;
         match find (fun u => User.id u =? k) (users d) with
         | Some u => ret u
         | None => raise InvalidRequestError
         end) (s, srv)
    | _ => (Raise InvalidRequestError, (s, srv))
    end.

(** [Session.refresh(obj)] for a post. *)
Definition refresh_Post (obj : nat) : M Post.t :=
  fun '(s, srv) =>
    match identity_map s !! obj with
    | Some (PostKey k) =>
        (d <- execute (Select posts_table) ;;
         match find (fun p => Post.id p =? k) (posts d) with
         | Some p => ret p
         | None => raise InvalidRequestError
         end) (s, srv)
    | _ => (Raise InvalidRequestError, (s, srv))
    end.

(** Modelled from the spec: [SessionLocal] of [app/database.py], which is
    not among the sources.  The spec's [acquire()] "returns a handle bound
    to one logical unit of work" and "no handle is shared across concurrent
    units of work": every call gives a new session, under the next handle,
    with no transaction open and nothing pending. *)
Definition SessionLocal (srv : Server) : state :=
  ({| sid := next_sid srv; transaction := None; new := [];
      deleted := []; identity_map := [] |},
   {| database := database srv; database_up := database_up srv;
      log := log srv ++ [Acquire (next_sid srv)];
      next_sid := S (next_sid srv) |}).

(** [Session.close()]: what was not committed is dropped (a transaction
    that is still open is rolled back) and the handle is released. *)
Definition close : M unit :=
  fun '(s, srv) =>
    (Return tt,
     ({| sid := sid s; transaction := None; new := [];
         deleted := []; identity_map := [] |},
      record (Release (sid s)) (rollback s srv))).

End orm.

(** ** [app/crud.py]

    Every function takes the session [db] first; here the session is the
    state the computation runs on. *)
Module crud.
Import models orm.
Local Open Scope orm_scope.

Definition get_user (user_id : Z) : M (option User.t) :=
  first (filter_ (fun u => User.id u =? user_id) query_User).

Definition get_user_by_email (email : string) : M (option User.t) :=
  first (filter_ (fun u => String.eqb (User.email u) email) query_User).

Definition get_users (skip limit : Z) : M (list User.t) :=
  all (orm.limit limit (offset skip query_User)).

Definition create_user (user : schemas.UserCreate) : M User.t :=
  let db_user := NewUser (schemas.email user) (schemas.full_name user)
                         (schemas.is_active user) in
  obj <- add db_user ;;
  commit ;;
  refresh_User obj.

Definition delete_user (user_id : Z) : M bool :=
  db_user <- first (filter_ (fun u => User.id u =? user_id) query_User) ;;
  match db_user with
  | Some u =>
      orm.delete u ;;
      commit ;;
      ret true
  | None => ret false
  end.

Definition get_posts (skip limit : Z) : M (list Post.t) :=
  all (orm.limit limit (offset skip query_Post)).

Definition create_post (post : schemas.PostCreate) (user_id : Z) : M Post.t :=
  let db_post := NewPost (schemas.title post) (schemas.content post)
                         (schemas.is_published post) user_id in
  obj <- add db_post ;;
  commit ;;
  refresh_Post obj.

End crud.

(** ** [app/main.py]: the session dependency, the routes and the dispatch *)
Module main.
Import models orm.
Local Open Scope orm_scope.

(** [get_db]: [db = SessionLocal()], then [yield db] inside [try], then
    [db.close()] in [finally].  The framework runs the route while the
    generator is suspended at the [yield], and resumes it whether the
    route returned or raised: [endpoint] is what runs in between. *)
Definition get_db {A} (endpoint : M A) (srv : Server) : result A * Server :=
  let db := SessionLocal srv in
  let '(r, st) := endpoint db in
  let '(_, (_, srv')) := close st in
  (r, srv').

(** [str(e)] in the handler of [health_check] is the driver's message.
    The exceptions of this model carry no message: the name of the class
    stands where the message would be, and no property says what the
    detail of the 503 is past its first words. *)
Definition class_name (e : exn) : string :=
  match e with
  | HTTPException _ d => d
  | IntegrityError => "IntegrityError"
  | DataError => "DataError"
  | OperationalError => "OperationalError"
  | InvalidRequestError => "InvalidRequestError"
  | RequestValidationError => "RequestValidationError"
  end.

Record Health := {
  status : string;
  database_ : string;
  pyroscope : string
}.

Definition health_check : M Health :=
  try_except
    (_ <- execute SelectOne ;;
     ret {| status := "healthy"; database_ := "connected";
            pyroscope := "configured" |})
    (fun e =>
       raise (HTTPException 503
                ("Database connection failed: " ++ class_name e)%string)).

Definition create_user (user : schemas.UserCreate) : M User.t :=
  db_user <- crud.get_user_by_email (schemas.email user) ;;
  match db_user with
  | Some _ => raise (HTTPException 400 "Email already registered")
  | None => crud.create_user user
  end.

Definition read_users (skip limit : Z) : M (list User.t) :=
  users <- crud.get_users skip limit ;;
  ret users.

Definition read_user (user_id : Z) : M User.t :=
  db_user <- crud.get_user user_id ;;
  match db_user with
  | None => raise (HTTPException 404 "User not found")
  | Some u => ret u
  end.

Definition delete_user (user_id : Z) : M string :=
  db_user <- crud.get_user user_id ;;
  match db_user with
  | None => raise (HTTPException 404 "User not found")
  | Some _ =>
      _ <- crud.delete_user user_id ;;
      ret "User deleted successfully"
  end.

Definition create_post_for_user (user_id : Z) (post : schemas.PostCreate)
  : M Post.t :=
  db_user <- crud.get_user user_id ;;
  match db_user with
  | None => raise (HTTPException 404 "User not found")
  | Some _ => crud.create_post post user_id
  end.

Definition read_posts (skip limit : Z) : M (list Post.t) :=
  posts <- crud.get_posts skip limit ;;
  ret posts.

(** *** The application: one request in, one response out *)

Inductive request :=
| GET_root
| GET_health
| POST_users (body : schemas.UserCreateBody)
| GET_users (skip limit : option Z)
| GET_user (user_id : Z)
| DELETE_user (user_id : Z)
| POST_user_posts (user_id : Z) (post : schemas.PostCreate)
| GET_posts (skip limit : option Z)
| GET_compute_fibonacci (n : Z)
| GET_compute_sum (n : Z).

Inductive reply :=
| RootReply
| HealthReply (h : Health)
| UserReply (u : User.t)
| UsersReply (us : list User.t)
| MessageReply (message : string)
| PostReply (p : Post.t)
| PostsReply (ps : list Post.t)
| FibonacciReply (r : compute.FibonacciReply)
| SumReply (r : compute.SumReply).

Definition fmap_result {A B} (f : A -> B) (r : result A) : result B :=
  match r with
  | Return a => Return (f a)
  | Raise e => Raise e
  end.

Definition reply_with {A} (f : A -> reply) (m : M A) : M reply :=
  a <- m ;; ret (f a).

(** Does the route declare [db: Session = Depends(get_db)]? *)
Definition depends_on_db (req : request) : bool :=
  match req with
  | GET_root | GET_compute_fibonacci _ | GET_compute_sum _ => false
  | _ => true
  end.

Section App.
Variable EmailStr : string -> option string.

(** The framework's part: the dependencies of the route are resolved
    (the session is acquired), the body is validated against the
    route's schema, and only then is the route called; an invalid body
    raises [RequestValidationError] instead.  Query parameters left out
    take the defaults of the signature ([skip = 0], [limit = 100]). *)
Definition app (req : request) (srv : Server) : result reply * Server :=
  match req with
  | GET_root => (Return RootReply, srv)
  | GET_health => get_db (reply_with HealthReply health_check) srv
  | POST_users body =>
      get_db
        (match schemas.UserCreate_validate EmailStr body with
         | Some user => reply_with UserReply (create_user user)
         | None => raise RequestValidationError
         end) srv
  | GET_users skip limit =>
      get_db (reply_with UsersReply
                (read_users (default 0 skip) (default 100 limit))) srv
  | GET_user user_id => get_db (reply_with UserReply (read_user user_id)) srv
  | DELETE_user user_id =>
      get_db (reply_with MessageReply (delete_user user_id)) srv
  | POST_user_posts user_id post =>
      get_db (reply_with PostReply (create_post_for_user user_id post)) srv
  | GET_posts skip limit =>
      get_db (reply_with PostsReply
                (read_posts (default 0 skip) (default 100 limit))) srv
  | GET_compute_fibonacci n =>
      (fmap_result FibonacciReply (fst (compute.compute_fibonacci n)), srv)
  | GET_compute_sum n =>
      (fmap_result SumReply (compute.compute_sum n), srv)
  end.
End App.

End main.

(** ** [test_load.py]: the load script

    The script talks to the service over HTTP.  What the service answers,
    what [random.randint] draws and what [time.time()] reads are given from
    outside, by an environment; the script's run is the list of the things
    it does, in order. *)
Module test_load.

(** The coroutine functions of the script.  Calling one makes a coroutine
    object; run, it sends one request and returns the decoded body of the
    response, or raises. *)
Inductive call :=
| create_user (user_id : Z)
| get_users (skip limit : Z)
| get_user_by_id (user_id : Z)
| create_post (user_id post_id : Z)
| compute_fibonacci (n : Z)
| compute_sum (n : Z)
| health_check.

(** The JSON body [create_user] posts to [/users/]. *)
Definition create_user_data (user_id : Z) : schemas.UserCreateBody :=
  {| schemas.body_email := ("user" ++ Py.str user_id ++ "@example.com")%string;
     schemas.body_full_name := ("User " ++ Py.str user_id)%string;
     schemas.body_is_active := Some true |}.

(** The JSON body [create_post] posts to [/users/{user_id}/posts/]. *)
Definition create_post_data (user_id post_id : Z) : schemas.PostCreate :=
  {| schemas.title :=
       ("Post " ++ Py.str post_id ++ " by User " ++ Py.str user_id)%string;
     schemas.content :=
       Py.str_mul
         ("This is the content of post " ++ Py.str post_id ++ ". ")%string 10;
     schemas.is_published := true |}.

(** The request a coroutine sends: its method, its path and parameters,
    and its body. *)
Definition request_of (c : call) : main.request :=
  match c with
  | create_user user_id => main.POST_users (create_user_data user_id)
  | get_users skip limit => main.GET_users (Some skip) (Some limit)
  | get_user_by_id user_id => main.GET_user user_id
  | create_post user_id post_id =>
      main.POST_user_posts user_id (create_post_data user_id post_id)
  | compute_fibonacci n => main.GET_compute_fibonacci n
  | compute_sum n => main.GET_compute_sum n
  | health_check => main.GET_health
  end.

(** How a coroutine ends: with the decoded JSON body, or with an
    exception. *)
Inductive outcome :=
| Json (body : string)
| Exception (e : string).

Definition isinstance_Exception (o : outcome) : bool :=
  match o with Exception _ => true | Json _ => false end.

Record Env := {
  respond : nat -> call -> outcome;   (* how the k-th coroutine run ends *)
  randint : nat -> Z -> Z -> Z;       (* the k-th [random.randint(a, b)] *)
  time : nat -> PrimFloat.float       (* the k-th [time.time()] *)
}.

(** What the script prints.  A fixed line is its [Text], without the blank
    line some have before them and without the marks at the start of the
    result lines; a line with values in it carries the values. *)
Inductive message :=
| Text (s : string)
| HealthOk (health : string)
| HealthFailed (e : string)
| CreatedUsers (n : nat)
| CreatedPosts (n : nat)
| CpuCompleted (elapsed : PrimFloat.float)
| MixedCompleted (operation_count : Z) (duration : Z).

Inductive ev :=
| Print (m : message)
| Created (c : call)                      (* the call expression: a coroutine object *)
| Awaited (c : call) (o : outcome)        (* [await c] *)
| Gathered (cs : list call) (os : list outcome)
                                          (* [await asyncio.gather( *cs, return_exceptions=True)] *)
| Slept (seconds : Q).                    (* [await asyncio.sleep(seconds)] *)

Record State := {
  started : nat;     (* coroutines run so far *)
  drawn : nat;       (* random numbers drawn so far *)
  read : nat;        (* clock readings so far *)
  trace : list ev
}.

Definition Script (A : Type) : Type := State -> A * State.

Definition ret {A} (a : A) : Script A := fun st => (a, st).
Definition bind {A B} (m : Script A) (k : A -> Script B) : Script B :=
  fun st => let '(a, st') := m st in k a st'.

Declare Scope script_scope.
Delimit Scope script_scope with script.
Notation "x <- m ;; k" := (bind m (fun x => k))
  (at level 100, m at next level, k at level 200, right associativity) : script_scope.
Notation "m ;; k" := (bind m (fun _ => k))
  (at level 100, k at level 200, right associativity) : script_scope.
Local Open Scope script_scope.

Definition emit (e : ev) : Script unit :=
  fun st => (tt, {| started := started st; drawn := drawn st;
                    read := read st; trace := trace st ++ [e] |}).

Definition print (m : message) : Script unit := emit (Print m).

(** Evaluating a call expression. *)
Definition create (c : call) : Script call :=
  emit (Created c) ;; ret c.

(** [await c]: the coroutine runs to its end. *)
Definition await (env : Env) (c : call) : Script outcome :=
  fun st =>
    let o := respond env (started st) c in
    (o, {| started := S (started st); drawn := drawn st; read := read st;
           trace := trace st ++ [Awaited c o] |}).

(** The coroutines of a [gather] are run as tasks, in the order given;
    [settle env k cs] is how each ends when the first is the [k]-th
    coroutine run. *)
Fixpoint settle (env : Env) (k : nat) (cs : list call) : list outcome :=
  match cs with
  | [] => []
  | c :: cs' => respond env k c :: settle env (S k) cs'
  end.

(** [await asyncio.gather( *tasks, return_exceptions=True)]: returns, once
    every task has ended, the list of their results in the order of
    [tasks], an exception counting as the result of the task that raised
    it. *)
Definition gather (env : Env) (tasks : list call) : Script (list outcome) :=
  fun st =>
    let os := settle env (started st) tasks in
    (os, {| started := (started st + length tasks)%nat; drawn := drawn st;
            read := read st; trace := trace st ++ [Gathered tasks os] |}).

(** [await asyncio.sleep(seconds)].  The time to sleep is the decimal
    literal of the call, kept as the fraction it is written as: it is
    recorded, and nothing is computed from it. *)
Definition sleep (seconds : Q) : Script unit := emit (Slept seconds).

Definition random_randint (env : Env) (a b : Z) : Script Z :=
  fun st =>
    (randint env (drawn st) a b,
     {| started := started st; drawn := S (drawn st); read := read st;
        trace := trace st |}).

Definition time_time (env : Env) : Script PrimFloat.float :=
  fun st =>
    (time env (read st),
     {| started := started st; drawn := drawn st; read := S (read st);
        trace := trace st |}).

(** [for x in xs: acc = body(acc, x)] *)
Fixpoint for_each {A B} (xs : list A) (acc : B) (body : B -> A -> Script B)
  : Script B :=
  match xs with
  | [] => ret acc
  | x :: xs' => acc' <- body acc x ;; for_each xs' acc' body
  end.

Definition run_user_operations (env : Env) (num_operations : Z) : Script unit :=
  tasks <- for_each (Py.range num_operations) []
    (fun tasks i =>
       c <- create (create_user i) ;;
       let tasks := tasks ++ [c] in
       if i mod 5 =? 0 then
         c <- create (get_users 0 10) ;;
         ret (tasks ++ [c])
       else ret tasks) ;;
  _ <- gather env tasks ;;
  ret tt.

Definition run_cpu_intensive_operations (env : Env) (num_operations : Z)
  : Script unit :=
  tasks <- for_each (Py.range num_operations) []
    (fun tasks i =>
       n <- random_randint env 30 35 ;;
       c <- create (compute_fibonacci n) ;;
       let tasks := tasks ++ [c] in
       if i mod 2 =? 0 then
         n <- random_randint env 1000000 5000000 ;;
         c <- create (compute_sum n) ;;
         ret (tasks ++ [c])
       else ret tasks) ;;
  _ <- gather env tasks ;;
  ret tt.

(** One pass of the body of the [while] of [run_mixed_load]; the value is
    the new [operation_count]. *)
Definition mixed_iteration (env : Env) (operation_count : Z) : Script Z :=
  c <- create health_check ;;
  let tasks := [c] in
  tasks <- (if operation_count mod 3 =? 0 then
              c <- create (get_users 0 20) ;;
              ret (tasks ++ [c])
            else ret tasks) ;;
  tasks <- (if operation_count mod 5 =? 0 then
              n <- random_randint env 25 30 ;;
              c <- create (compute_fibonacci n) ;;
              ret (tasks ++ [c])
            else ret tasks) ;;
  _ <- gather env tasks ;;
  let operation_count := operation_count + 1 in
  sleep (1 # 10) ;;
  ret operation_count.

(** The [while time.time() - start_time < duration] loop: the two clock
    readings are floats and so is their difference; it is compared with
    the integer [duration].  [fuel] bounds the number of times the
    condition is tested; [None] when it runs out before the condition
    fails. *)
Fixpoint mixed_loop (env : Env) (fuel : nat) (start_time : PrimFloat.float)
    (duration : Z)
    (operation_count : Z) : Script (option Z) :=
  match fuel with
  | O => ret None
  | S fuel' =>
      t <- time_time env ;;
      if Py.float_lt_int (PrimFloat.sub t start_time) duration then
        operation_count <- mixed_iteration env operation_count ;;
        mixed_loop env fuel' start_time duration operation_count
      else ret (Some operation_count)
  end.

Definition run_mixed_load (env : Env) (fuel : nat) (duration : Z)
  : Script (option unit) :=
  start_time <- time_time env ;;
  let operation_count := 0 in
  r <- mixed_loop env fuel start_time duration operation_count ;;
  match r with
  | Some operation_count =>
      print (MixedCompleted operation_count duration) ;;
      ret (Some tt)
  | None => ret None
  end.

Definition count_results (os : list outcome) : nat :=
  length (List.filter (fun o => negb (isinstance_Exception o)) os).

(** [main()].  The [try] around the probe catches what the probe raises;
    the [try] around each of the two create phases has nothing to catch,
    since [gather] with [return_exceptions=True] hands the exceptions of its
    tasks back as results.  [fuel] is for the loop of the last phase. *)
Definition main (env : Env) (fuel : nat) : Script (option unit) :=
  print (Text "Starting load testing for Pyroscope profiling...") ;;
  print (Text "============================================================") ;;
  print (Text "1. Testing health endpoint...") ;;
  c <- create health_check ;;
  health <- await env c ;;
  match health with
  | Exception e =>
      print (HealthFailed e) ;;
      ret (Some tt)
  | Json health =>
      print (HealthOk health) ;;
      print (Text "2. Creating initial users...") ;;
      user_tasks <- for_each (Py.range 10) []
        (fun tasks i => c <- create (create_user i) ;; ret (tasks ++ [c])) ;;
      users <- gather env user_tasks ;;
      print (CreatedUsers (count_results users)) ;;
      print (Text "3. Creating posts...") ;;
      post_tasks <- for_each (Py.range 20) []
        (fun tasks i =>
           c <- create (create_post (i mod 5 + 1) i) ;; ret (tasks ++ [c])) ;;
      posts <- gather env post_tasks ;;
      print (CreatedPosts (count_results posts)) ;;
      print (Text "4. Running CPU-intensive operations (this will take a while)...") ;;
      start <- time_time env ;;
      run_cpu_intensive_operations env 20 ;;
      now <- time_time env ;;
      let elapsed := PrimFloat.sub now start in
      print (CpuCompleted elapsed) ;;
      print (Text "5. Running mixed continuous load for 60 seconds...") ;;
      print (Text "   (This generates realistic traffic patterns for profiling)") ;;
      r <- run_mixed_load env fuel 60 ;;
      match r with
      | None => ret None
      | Some _ =>
          print (Text "============================================================") ;;
          print (Text "Load testing completed!") ;;
          print (Text "Next steps:") ;;
          print (Text "1. Open Pyroscope UI at http://localhost:4040") ;;
          print (Text "2. Select 'fastapi-app' from the application dropdown") ;;
          print (Text "3. Explore the profiling data and flame graphs") ;;
          print (Text "4. Try different queries and time ranges") ;;
          ret (Some tt)
      end
  end.

Definition initial : State :=
  {| started := 0; drawn := 0; read := 0; trace := [] |}.

End test_load.

(** ** Reference definitions

    The notions the specification words its properties with, defined here
    on their own so that the code can be compared with them. *)
Module Spec.

(** The Fibonacci numbers: [fib 0 = 0], [fib 1 = 1],
    [fib k = fib (k-1) + fib (k-2)]. *)
Fixpoint fib (k : nat) : Z :=
  match k with
  | O => 0
  | S k' =>
      match k' with
      | O => 1
      | S k'' => fib k' + fib k''
      end
  end.

(** [0 + 1 + ... + k]. *)
Fixpoint sum_upto (k : nat) : Z :=
  match k with
  | O => 0
  | S k' => sum_upto k' + Z.of_nat (S k')
  end.

(** The events of acquiring and releasing a session handle. *)
Definition is_handle_event (e : orm.event) : bool :=
  match e with
  | orm.Acquire _ | orm.Release _ => true
  | _ => false
  end.

(** The user has this id; the post has this owner. *)
Definition has_id (X : Z) (u : models.User.t) : bool :=
  models.User.id u =? X.
Definition owned_by (X : Z) (p : models.Post.t) : bool :=
  models.Post.owner_id p =? X.
Definition has_email (E : string) (u : models.User.t) : bool :=
  String.eqb (models.User.email u) E.

(** The row an INSERT makes of a validated [UserCreate]. *)
Definition new_user_row (user : schemas.UserCreate) (d : orm.Database)
  : models.User.t :=
  {| models.User.id := orm.users_id_seq d;
     models.User.email := schemas.email user;
     models.User.full_name := schemas.full_name user;
     models.User.is_active := schemas.is_active user;
     models.User.created_at := orm.now d |}.

(** A computation on a session is quiet when it keeps the session's
    handle, acquires and releases nothing, and leaves the handle counter
    alone: whatever it adds to the log are statements, commits and
    rollbacks. *)
Definition quiet {A} (m : orm.M A) : Prop :=
  forall s srv,
    orm.sid (fst (snd (m (s, srv)))) = orm.sid s /\
    orm.next_sid (snd (snd (m (s, srv)))) = orm.next_sid srv /\
    exists evs,
      orm.log (snd (snd (m (s, srv)))) = orm.log srv ++ evs /\
      Forall (fun e => is_handle_event e = false) evs.

(** How often a handle was acquired, and released, in a log. *)
Definition acquired (h : nat) (l : list orm.event) : nat :=
  length (List.filter
            (fun e => match e with orm.Acquire k => Nat.eqb k h | _ => false end) l).
Definition released (h : nat) (l : list orm.event) : nat :=
  length (List.filter
            (fun e => match e with orm.Release k => Nat.eqb k h | _ => false end) l).

(** Between requests: every handle given out so far was acquired once and
    released once, and no other handle appears in the log. *)
Definition handles_settled (srv : orm.Server) : Prop :=
  forall h,
    acquired h (orm.log srv) = (if (h <? orm.next_sid srv)%nat then 1 else 0)%nat /\
    released h (orm.log srv) = acquired h (orm.log srv).


(** *** The load script's run *)

(** One fan-out and its join: the coroutines are created one after the
    other, then all are gathered. *)
Definition fan_out (tasks : list test_load.call) (os : list test_load.outcome)
  : list test_load.ev :=
  map test_load.Created tasks ++ [test_load.Gathered tasks os].

(** The calls of the burst phase, from the random numbers alone: for each
    [i] a Fibonacci call, and for even [i] a sum call after it. *)
Fixpoint cpu_tasks (randint : nat -> Z -> Z -> Z) (drawn : nat) (ixs : list Z)
  : list test_load.call :=
  match ixs with
  | [] => []
  | i :: ixs' =>
      test_load.compute_fibonacci (randint drawn 30 35) ::
      (if i mod 2 =? 0 then
         test_load.compute_sum (randint (S drawn) 1000000 5000000) ::
         cpu_tasks randint (S (S drawn)) ixs'
       else cpu_tasks randint (S drawn) ixs')
  end.

(** The calls of the iteration of the continuous phase that starts with
    the counter at [count]: always a health check, a list call when
    [count] is a multiple of 3, a Fibonacci call when it is a multiple of
    5. *)
Definition mixed_tasks (randint : nat -> Z -> Z -> Z) (drawn : nat) (count : Z)
  : list test_load.call :=
  test_load.health_check ::
  (if count mod 3 =? 0 then [test_load.get_users 0 20] else []) ++
  (if count mod 5 =? 0
   then [test_load.compute_fibonacci (randint drawn 25 30)] else []).

(** [k] iterations of the continuous phase, one after the other: each
    creates its calls, gathers them, and sleeps. *)
Fixpoint mixed_rounds (env : test_load.Env) (k : nat) (started drawn : nat)
    (count : Z) : list test_load.ev :=
  match k with
  | O => []
  | S k' =>
      let tasks := mixed_tasks (test_load.randint env) drawn count in
      fan_out tasks (test_load.settle env started tasks) ++
      [test_load.Slept (1 # 10)] ++
      mixed_rounds env k' (started + length tasks)
        (if count mod 5 =? 0 then S drawn else drawn) (count + 1)
  end.

(** The coroutines a run created, and the coroutines it ran to their end,
    both in order. *)
Definition created (t : list test_load.ev) : list test_load.call :=
  flat_map (fun e => match e with test_load.Created c => [c] | _ => [] end) t.
Definition ran (t : list test_load.ev) : list test_load.call :=
  flat_map (fun e => match e with
                     | test_load.Awaited c _ => [c]
                     | test_load.Gathered cs _ => cs
                     | _ => []
                     end) t.

(** No coroutine is created after a join: [joined] tells whether a
    [gather] was already seen. *)
Fixpoint no_create_after_join (joined : bool) (t : list test_load.ev) : bool :=
  match t with
  | [] => true
  | test_load.Created _ :: t' => negb joined && no_create_after_join joined t'
  | test_load.Gathered _ _ :: t' => no_create_after_join true t'
  | _ :: t' => no_create_after_join joined t'
  end.
Definition issued_before_any_join (t : list test_load.ev) : bool :=
  no_create_after_join false t.

(** The elapsed time as the loop of the continuous phase computes it at
    the clock reading [r], for the start time read at [r0]: the difference
    of the two floats. *)
Definition elapsed (env : test_load.Env) (r0 r : nat) : PrimFloat.float :=
  PrimFloat.sub (test_load.time env r) (test_load.time env r0).

(** The clock lets the loop of the continuous phase make exactly [k]
    iterations: with the start time at reading [r0] and the loop's tests
    at the readings after it, the elapsed time the loop computes is below
    [duration] at the first [k] tests and not below it at the next. *)
Definition runs_for (env : test_load.Env) (r0 : nat) (duration : Z) (k : nat)
  : Prop :=
  (forall j, (j < k)%nat ->
     Py.float_lt_int (elapsed env r0 (S r0 + j)) duration = true) /\
  Py.float_lt_int (elapsed env r0 (S r0 + k)) duration = false.

(** What the script prints before the probe, and after the last phase. *)
Definition banner : list test_load.ev :=
  [test_load.Print (test_load.Text "Starting load testing for Pyroscope profiling...");
   test_load.Print (test_load.Text "============================================================");
   test_load.Print (test_load.Text "1. Testing health endpoint...")].
Definition footer : list test_load.ev :=
  [test_load.Print (test_load.Text "============================================================");
   test_load.Print (test_load.Text "Load testing completed!");
   test_load.Print (test_load.Text "Next steps:");
   test_load.Print (test_load.Text "1. Open Pyroscope UI at http://localhost:4040");
   test_load.Print (test_load.Text "2. Select 'fastapi-app' from the application dropdown");
   test_load.Print (test_load.Text "3. Explore the profiling data and flame graphs");
   test_load.Print (test_load.Text "4. Try different queries and time ranges")].


(** The calls of the bulk-create phase and of the dependent-create phase:
    users 0 to 9, and posts 0 to 19 for the owners 1 to 5 in turn. *)
Definition users_tasks : list test_load.call :=
  map test_load.create_user (Py.range 10).
Definition post_tasks : list test_load.call :=
  map (fun i => test_load.create_post (i mod 5 + 1) i) (Py.range 20).

(** The script's run from its start to the end of the burst phase, when
    the probe was answered with [health]: the probe, then three fan-outs,
    each followed by its join. *)
Definition up_to_burst (env : test_load.Env) (health : string)
  : list test_load.ev :=
  let cpu := cpu_tasks (test_load.randint env) 0 (Py.range 20) in
  banner ++
  [test_load.Created test_load.health_check;
   test_load.Awaited test_load.health_check (test_load.Json health);
   test_load.Print (test_load.HealthOk health);
   test_load.Print (test_load.Text "2. Creating initial users...")] ++
  fan_out users_tasks (test_load.settle env 1 users_tasks) ++
  [test_load.Print
     (test_load.CreatedUsers
        (test_load.count_results (test_load.settle env 1 users_tasks)));
   test_load.Print (test_load.Text "3. Creating posts...")] ++
  fan_out post_tasks (test_load.settle env 11 post_tasks) ++
  [test_load.Print
     (test_load.CreatedPosts
        (test_load.count_results (test_load.settle env 11 post_tasks)));
   test_load.Print
     (test_load.Text "4. Running CPU-intensive operations (this will take a while)...")] ++
  fan_out cpu (test_load.settle env 31 cpu) ++
  [test_load.Print
     (test_load.CpuCompleted
        (PrimFloat.sub (test_load.time env 1) (test_load.time env 0)));
   test_load.Print (test_load.Text "5. Running mixed continuous load for 60 seconds...");
   test_load.Print
     (test_load.Text "   (This generates realistic traffic patterns for profiling)")].


(** *** More of the service *)

(** The row an INSERT makes of a validated [PostCreate] for an owner. *)
Definition new_post_row (post : schemas.PostCreate) (owner : Z) (d : orm.Database)
  : models.Post.t :=
  {| models.Post.id := orm.posts_id_seq d;
     models.Post.title := schemas.title post;
     models.Post.content := schemas.content post;
     models.Post.is_published := schemas.is_published post;
     models.Post.created_at := orm.now d;
     models.Post.owner_id := owner |}.

(** The rows after one more user, after one more post, and after the
    removal of the users with an id together with the posts they own. *)
Definition with_user (row : models.User.t) (d : orm.Database) : orm.Database :=
  {| orm.users := orm.users d ++ [row];
     orm.posts := orm.posts d;
     orm.users_id_seq := orm.users_id_seq d + 1;
     orm.posts_id_seq := orm.posts_id_seq d;
     orm.now := orm.now d |}.
Definition with_post (row : models.Post.t) (d : orm.Database) : orm.Database :=
  {| orm.users := orm.users d;
     orm.posts := orm.posts d ++ [row];
     orm.users_id_seq := orm.users_id_seq d;
     orm.posts_id_seq := orm.posts_id_seq d + 1;
     orm.now := orm.now d |}.
Definition without_user (X : Z) (d : orm.Database) : orm.Database :=
  {| orm.users := List.filter (fun u => negb (has_id X u)) (orm.users d);
     orm.posts := List.filter (fun p => negb (owned_by X p)) (orm.posts d);
     orm.users_id_seq := orm.users_id_seq d;
     orm.posts_id_seq := orm.posts_id_seq d;
     orm.now := orm.now d |}.

(** No two stored users share an email. *)
Definition emails_unique (d : orm.Database) : Prop :=
  List.NoDup (map models.User.email (orm.users d)).

(** No two rows of a table share a key, and every key is below the next
    value of the table's serial. *)
Definition keys_fresh (d : orm.Database) : Prop :=
  List.NoDup (map models.User.id (orm.users d)) /\
  (forall u, In u (orm.users d) -> models.User.id u < orm.users_id_seq d) /\
  List.NoDup (map models.Post.id (orm.posts d)) /\
  (forall p, In p (orm.posts d) -> models.Post.id p < orm.posts_id_seq d).

(** Every stored post is owned by a stored user. *)
Definition owners_stored (d : orm.Database) : Prop :=
  forall p, In p (orm.posts d) ->
    exists u, In u (orm.users d) /\ models.User.id u = models.Post.owner_id p.

(** The events that change rows: the INSERT, UPDATE and DELETE statements,
    and the COMMITs. *)
Definition is_write_event (e : orm.event) : bool :=
  match e with
  | orm.Execute (orm.Insert _) | orm.Execute (orm.Update _)
  | orm.Execute (orm.Delete _) | orm.Commit _ => true
  | _ => false
  end.

(** The requests with the method GET. *)
Definition is_get (req : main.request) : bool :=
  match req with
  | main.POST_users _ | main.DELETE_user _ | main.POST_user_posts _ _ => false
  | _ => true
  end.

(** *** More of the load script *)

(** The calls [run_user_operations] makes for the indices [ixs]: a
    create-user call for each, and a list call after it when the index is a
    multiple of 5. *)
Definition user_ops_tasks (ixs : list Z) : list test_load.call :=
  flat_map (fun i => test_load.create_user i ::
                     (if i mod 5 =? 0 then [test_load.get_users 0 10] else []))
           ixs.

(** The random source keeps to the bounds it is given, as
    [random.randint(a, b)] does. *)
Definition randint_in_bounds (env : test_load.Env) : Prop :=
  forall k a b, a <= b -> a <= test_load.randint env k a b <= b.

(** A string the driver sends: one without a NUL character.  The driver
    refuses any other before the statement leaves the service. *)
Definition sendable (s : string) : Prop :=
  ~ In Ascii.zero (list_ascii_of_string s).

(** The rows of the COMMITs among some events, in order. *)
Definition commits (evs : list orm.event) : list orm.Database :=
  flat_map (fun e => match e with orm.Commit d => [d] | _ => [] end) evs.

(** The service answering the requests of some calls one at a time, in
    the order of the list: the answers, and the server after the last. *)
Fixpoint replay (EmailStr : string -> option string)
    (cs : list test_load.call) (srv : orm.Server)
  : list (result main.reply) * orm.Server :=
  match cs with
  | [] => ([], srv)
  | c :: cs' =>
      let '(r, srv1) := main.app EmailStr (test_load.request_of c) srv in
      let '(rs, srv2) := replay EmailStr cs' srv1 in
      (r :: rs, srv2)
  end.

(** The service would not refuse the call for its argument: what the
    compute routes answer to it is not a 400. *)
Definition admitted (c : test_load.call) : Prop :=
  match c with
  | test_load.compute_fibonacci n =>
      status_code_of (fst (compute.compute_fibonacci n)) = 200
  | test_load.compute_sum n =>
      status_code_of (compute.compute_sum n) = 200
  | _ => True
  end.

End Spec.

(** ** Sample data *)
Module Examples.
Import models orm.

Definition alice : User.t :=
  {| User.id := 1; User.email := "alice@example.com"; User.full_name := "Alice";
     User.is_active := true; User.created_at := 100 |}.
Definition bob : User.t :=
  {| User.id := 2; User.email := "bob@example.com"; User.full_name := "Bob";
     User.is_active := true; User.created_at := 101 |}.
Definition carol : User.t :=
  {| User.id := 3; User.email := "carol@example.com"; User.full_name := "Carol";
     User.is_active := false; User.created_at := 102 |}.

Definition post (id owner : Z) : Post.t :=
  {| Post.id := id; Post.title := "T"; Post.content := "C";
     Post.is_published := true; Post.created_at := 150; Post.owner_id := owner |}.

(** Three users; alice owns posts 1 and 3, bob owns post 2. *)
Definition blog : Database :=
  {| users := [alice; bob; carol];
     posts := [post 1 1; post 2 2; post 3 1];
     users_id_seq := 4; posts_id_seq := 4; now := 200 |}.

Definition server : Server :=
  {| database := blog; database_up := true; log := []; next_sid := 0 |}.

(** A service that was just set up: empty tables, serials at 1. *)
Definition just_set_up : Server :=
  {| database := {| users := []; posts := []; users_id_seq := 1;
                    posts_id_seq := 1; now := 0 |};
     database_up := true; log := []; next_sid := 0 |}.


(** The sample service out of reach of its database. *)
Definition unreachable : Server :=
  {| database := blog; database_up := false; log := []; next_sid := 0 |}.

Definition dave : schemas.UserCreate :=
  {| schemas.email := "dave@example.com"; schemas.full_name := "Dave";
     schemas.is_active := true |}.

(** A stand-in for the email validator: a string with an at sign passes
    as it is. *)
Definition with_at_sign (s : string) : option string :=
  match index 0 "@" s with
  | Some _ => Some s
  | None => None
  end.

Definition body (email : string) : schemas.UserCreateBody :=
  {| schemas.body_email := email; schemas.body_full_name := "A";
     schemas.body_is_active := None |}.

Definition a_post : schemas.PostCreate :=
  {| schemas.title := "T"; schemas.content := "C"; schemas.is_published := true |}.

(** The float of a whole number of seconds. *)
Definition seconds (n : Z) : PrimFloat.float :=
  PrimFloat.of_uint63 (Uint63.of_Z n).

(** A service that answers every call, a clock that advances 25 seconds
    between readings, a random source that draws the lower bound. *)
Definition env : test_load.Env :=
  {| test_load.respond := fun _ _ => test_load.Json "ok";
     test_load.randint := fun _ a _ => a;
     test_load.time := fun k => seconds (25 * Z.of_nat k) |}.

(** The same, with a clock that stands still. *)
Definition env_clock_stopped : test_load.Env :=
  {| test_load.respond := fun _ _ => test_load.Json "ok";
     test_load.randint := fun _ a _ => a;
     test_load.time := fun _ => seconds 0 |}.

(** The same, with a clock that reads 0 first and 60 from then on. *)
Definition env_on_the_dot : test_load.Env :=
  {| test_load.respond := fun _ _ => test_load.Json "ok";
     test_load.randint := fun _ a _ => a;
     test_load.time := fun k => match k with O => seconds 0 | S _ => seconds 60 end |}.

(** The same, with a clock that reads [2^-50] first and 60 from then on:
    the exact difference is below 60, the difference of the floats is
    60. *)
Definition env_just_before : test_load.Env :=
  {| test_load.respond := fun _ _ => test_load.Json "ok";
     test_load.randint := fun _ a _ => a;
     test_load.time :=
       fun k => match k with
                | O => PrimFloat.ldshiftexp PrimFloat.one
                         (Uint63.of_Z (FloatOps.shift - 50))
                | S _ => seconds 60
                end |}.

End Examples.

(** * Properties *)

(** ** The compute endpoints *)
Section ComputeFacts.
Import compute Spec.

Lemma fibonacci_unfold (num : Z) :
  fibonacci num =
    (if num <=? 1 then (num, 1%N)
     else (fst (fibonacci (num - 1)) + fst (fibonacci (num - 2)),
           (1 + snd (fibonacci (num - 1)) + snd (fibonacci (num - 2)))%N)).
Proof.
  rewrite fibonacci_equation_1.
  destruct (Z_le_gt_dec num 1) as [Hle | Hgt]; simpl.
  - apply Z.leb_le in Hle. now rewrite Hle.
  - assert ((num <=? 1) = false) as -> by (apply Z.leb_gt; lia).
    reflexivity.
Qed.

Lemma fib_SS (k : nat) : fib (S (S k)) = fib (S k) + fib k.
Proof. reflexivity. Qed.

Lemma fib_pos (k : nat) : 0 <= fib k.
Proof.
  induction k as [k IH] using lt_wf_ind.
  destruct k as [|[|k]]; [simpl; lia | simpl; lia |].
  rewrite fib_SS.
  pose proof (IH (S k) ltac:(lia)). pose proof (IH k ltac:(lia)). lia.
Qed.

(** The helper returns the Fibonacci number, after [2 * fib (k+1) - 1]
    calls of itself. *)
Lemma fibonacci_fib (k : nat) :
  fibonacci (Z.of_nat k) = (fib k, Z.to_N (2 * fib (S k) - 1)).
Proof.
  induction k as [k IH] using lt_wf_ind.
  rewrite fibonacci_unfold.
  destruct k as [|[|k]]; [reflexivity | reflexivity |].
  assert ((Z.of_nat (S (S k)) <=? 1) = false) as -> by (apply Z.leb_gt; lia).
  replace (Z.of_nat (S (S k)) - 1) with (Z.of_nat (S k)) by lia.
  replace (Z.of_nat (S (S k)) - 2) with (Z.of_nat k) by lia.
  rewrite (IH (S k)), (IH k) by lia. cbn [fst snd].
  f_equal.
  pose proof (fib_pos k). pose proof (fib_pos (S k)).
  pose proof (fib_SS k) as E1. pose proof (fib_SS (S k)) as E2.
  pose proof (fib_pos (S (S k))).
  assert (1 <= fib (S k)).
  { clear. induction k as [k IH] using lt_wf_ind.
    destruct k as [|[|k]]; [simpl; lia | simpl; lia |].
    rewrite fib_SS. pose proof (IH (S k) ltac:(lia)). pose proof (fib_pos (S k)). lia. }
  lia.
Qed.

(** A linear-time computation of [fib], to evaluate it at 40 and 41. *)
Lemma fib_iter (k : nat) :
  Nat.iter k (fun p : Z * Z => (snd p, fst p + snd p)) (0, 1) = (fib k, fib (S k)).
Proof.
  induction k as [|k IH]; [reflexivity |].
  rewrite Nat.iter_succ, IH. cbn [fst snd]. now rewrite fib_SS, Z.add_comm.
Qed.

Lemma fib_40 : fib 40 = 102334155 /\ fib 41 = 165580141.
Proof.
  pose proof (fib_iter 40) as E.
  set (a := fib 40) in *. set (b := fib 41) in *. clearbody a b.
  vm_compute in E. injection E as -> ->. split; reflexivity.
Qed.

Lemma range_S (k : nat) :
  Py.range (Z.of_nat (S k)) = Py.range (Z.of_nat k) ++ [Z.of_nat k].
Proof.
  unfold Py.range. rewrite !Nat2Z.id, seq_S, map_app. reflexivity.
Qed.

Lemma sum_app (l : list Z) (x : Z) : Py.sum (l ++ [x]) = Py.sum l + x.
Proof. unfold Py.sum. now rewrite fold_left_app. Qed.

Lemma sum_range (k : nat) :
  Py.sum (Py.range (Z.of_nat (S k))) = sum_upto k.
Proof.
  induction k as [|k IH]; [reflexivity |].
  rewrite range_S, sum_app, IH. reflexivity.
Qed.

Lemma sum_upto_closed (k : nat) :
  2 * sum_upto k = Z.of_nat k * (Z.of_nat k + 1).
Proof.
  induction k as [|k IH]; [reflexivity |].
  cbn [sum_upto]. nia.
Qed.

Lemma range_members (n x : Z) : In x (Py.range (n + 1)) <-> 0 <= x <= n.
Proof.
  unfold Py.range. rewrite in_map_iff. split.
  - intros (i & <- & Hi). apply in_seq in Hi. lia.
  - intros H. exists (Z.to_nat x). split; [lia |]. apply in_seq. lia.
Qed.

(** C3.  For every integer [n], [GET /compute/fibonacci/{n}] answers 400
    exactly when [n < 0] or [n > 40], and then the recursive helper is
    never called.  For [0 <= n <= 40] it answers with [fib n], where
    [fib 0 = 0], [fib 1 = 1] and [fib k = fib (k-1) + fib (k-2)], reached
    by the doubly recursive helper in [2 * fib (n+1) - 1] calls.  So
    [fibonacci(40)] succeeds, with 102334155, and [fibonacci(41)] and
    [fibonacci(-1)] are rejected without any call of the helper. *)
Theorem compute_fibonacci_admission :
  (forall n : Z,
      (status_code_of (fst (compute_fibonacci n)) = 400 <-> n < 0 \/ n > 40) /\
      (n < 0 \/ n > 40 -> snd (compute_fibonacci n) = 0%N) /\
      (0 <= n <= 40 ->
       compute_fibonacci n =
         (Return {| fib_n := n; fib_fibonacci := fib (Z.to_nat n);
                    fib_message := "CPU intensive computation completed" |},
          Z.to_N (2 * fib (S (Z.to_nat n)) - 1)))) /\
  (fib 0 = 0 /\ fib 1 = 1 /\ forall k, fib (S (S k)) = fib (S k) + fib k) /\
  compute_fibonacci 40 =
    (Return {| fib_n := 40; fib_fibonacci := 102334155;
               fib_message := "CPU intensive computation completed" |},
     331160281%N) /\
  compute_fibonacci 41 =
    (Raise (HTTPException 400 "n must be <= 40 to prevent timeout"), 0%N) /\
  compute_fibonacci (-1) =
    (Raise (HTTPException 400 "n must be non-negative"), 0%N).
Proof.
  assert (forall n : Z, 0 <= n <= 40 ->
            compute_fibonacci n =
              (Return {| fib_n := n; fib_fibonacci := fib (Z.to_nat n);
                         fib_message := "CPU intensive computation completed" |},
               Z.to_N (2 * fib (S (Z.to_nat n)) - 1))) as Hok.
  { intros n Hn. unfold compute_fibonacci.
    assert ((n <? 0) = false) as -> by (apply Z.ltb_ge; lia).
    assert ((n >? 40) = false) as -> by (rewrite Z.gtb_ltb; apply Z.ltb_ge; lia).
    rewrite <- (Z2Nat.id n) at 1 by lia. rewrite fibonacci_fib.
    unfold cost_bind, cost_ret. now rewrite N.add_0_r. }
  split; [| split; [| split; [| split]]].
  - intros n. split; [| split].
    + unfold compute_fibonacci.
      destruct (Z.ltb_spec n 0) as [Hlt | Hge]; [cbn; split; [lia | reflexivity] |].
      rewrite Z.gtb_ltb.
      destruct (Z.ltb_spec 40 n) as [Hgt | Hle]; [cbn; split; [lia | reflexivity] |].
      unfold cost_bind, cost_ret. destruct (fibonacci n) as [v c]. cbn.
      split; [discriminate | lia].
    + intros Hout. unfold compute_fibonacci.
      destruct (Z.ltb_spec n 0) as [Hlt | Hge]; [reflexivity |].
      rewrite Z.gtb_ltb.
      destruct (Z.ltb_spec 40 n) as [Hgt | Hle]; [reflexivity | lia].
    + apply Hok.
  - repeat split.
  - rewrite Hok by lia. change (Z.to_nat 40) with 40%nat.
    destruct fib_40 as [-> ->]. reflexivity.
  - reflexivity.
  - reflexivity.
Qed.

(** The endpoint at 10: ten is admitted and the answer is 55, after 177
    calls of the helper. *)
Lemma compute_fibonacci_admission_witness :
  compute_fibonacci 10 =
    (Return {| fib_n := 10; fib_fibonacci := 55;
               fib_message := "CPU intensive computation completed" |},
     177%N).
Proof.
  destruct compute_fibonacci_admission as [H _].
  destruct (H 10) as (_ & _ & H10).
  rewrite H10 by lia. reflexivity.
Defined.

(** C4.  For every integer [n], [GET /compute/sum/{n}] answers 400 exactly
    when [n < 0] or [n > 10000000]; otherwise it answers with the sum of
    the integers [0 .. n] (the members of [range(n + 1)]), which is
    [n * (n + 1) / 2] exactly.  So [sum(10000000)] succeeds with
    [10000000 * 10000001 / 2] and [sum(10000001)] is rejected. *)
Theorem compute_sum_admission :
  (forall n : Z,
      (status_code_of (compute_sum n) = 400 <-> n < 0 \/ n > 10000000) /\
      (0 <= n <= 10000000 ->
       compute_sum n =
         Return {| sum_n := n; sum_sum := n * (n + 1) / 2;
                   sum_message := "Computation completed" |} /\
       (forall x, In x (Py.range (n + 1)) <-> 0 <= x <= n) /\
       n * (n + 1) / 2 = sum_upto (Z.to_nat n) /\
       2 * (n * (n + 1) / 2) = n * (n + 1))) /\
  compute_sum 10000000 =
    Return {| sum_n := 10000000; sum_sum := 10000000 * 10000001 / 2;
              sum_message := "Computation completed" |} /\
  compute_sum 10000001 = Raise (HTTPException 400 "n must be <= 10000000").
Proof.
  assert (forall n : Z, 0 <= n ->
            Py.sum (Py.range (n + 1)) = sum_upto (Z.to_nat n) /\
            n * (n + 1) / 2 = sum_upto (Z.to_nat n) /\
            2 * (n * (n + 1) / 2) = n * (n + 1)) as Hsum.
  { intros n Hn.
    replace (n + 1) with (Z.of_nat (S (Z.to_nat n))) by lia.
    rewrite sum_range.
    pose proof (sum_upto_closed (Z.to_nat n)) as Hc.
    rewrite Z2Nat.id in Hc by lia.
    replace (Z.of_nat (S (Z.to_nat n))) with (n + 1) by lia.
    assert (n * (n + 1) / 2 = sum_upto (Z.to_nat n)) as E.
    { rewrite <- Hc, Z.mul_comm. apply Z.div_mul. lia. }
    rewrite E. repeat split. lia. }
  assert (forall n : Z, 0 <= n <= 10000000 ->
            compute_sum n =
              Return {| sum_n := n; sum_sum := n * (n + 1) / 2;
                        sum_message := "Computation completed" |}) as Hok.
  { intros n Hn. unfold compute_sum.
    assert ((n <? 0) = false) as -> by (apply Z.ltb_ge; lia).
    assert ((n >? 10000000) = false) as ->
        by (rewrite Z.gtb_ltb; apply Z.ltb_ge; lia).
    destruct (Hsum n ltac:(lia)) as (-> & -> & _). reflexivity. }
  split; [| split].
  - intros n. split.
    + unfold compute_sum.
      destruct (Z.ltb_spec n 0) as [Hlt | Hge]; [cbn; split; [lia | reflexivity] |].
      rewrite Z.gtb_ltb.
      destruct (Z.ltb_spec 10000000 n) as [Hgt | Hle];
        [cbn; split; [lia | reflexivity] |].
      cbn [status_code_of]. split; [discriminate | lia].
    + intros Hn. split; [now apply Hok |].
      split; [intros x; apply range_members |].
      apply Hsum. lia.
  - rewrite Hok by lia. reflexivity.
  - reflexivity.
Qed.

(** The endpoint at 4: [0 + 1 + 2 + 3 + 4 = 10]. *)
Lemma compute_sum_admission_witness :
  compute_sum 4 =
    Return {| sum_n := 4; sum_sum := 10; sum_message := "Computation completed" |}.
Proof.
  destruct compute_sum_admission as [H _].
  destruct (H 4) as (_ & H4).
  destruct H4 as (-> & _); [lia | reflexivity].
Defined.

End ComputeFacts.

(** ** The repository and the routes over the database *)
Section ServiceFacts.
Import models orm Spec.
Local Open Scope orm_scope.

(** The email validator behind [EmailStr]: any function will do. *)
Variable EmailStr : string -> option string.

Lemma execute_up (stmt : statement) (s : Session) (srv : Server) :
  database_up srv = true ->
  execute stmt (s, srv) =
    (Return (default (database srv) (transaction s)),
     (set_transaction (Some (default (database srv) (transaction s))) s,
      record (Execute stmt) srv)).
Proof. intros Hup. unfold execute. now rewrite Hup. Qed.

(** A transaction that took no key leaves nothing behind. *)
Lemma rolled_back_same (d : Database) : rolled_back (Some d) d = d.
Proof. now destruct d. Qed.

Lemma all_up {R} (q : Query R) (s : Session) (srv : Server) :
  database_up srv = true ->
  all q (s, srv) =
    let d := default (database srv) (transaction s) in
    let st := (set_transaction (Some d) s,
               record (Execute (Select (q_table q))) srv) in
    match window (q_offset q) (q_limit q)
                 (List.filter (q_filter q) (q_rows q d)) with
    | Return rows => (Return rows, st)
    | Raise e => (Raise e, st)
    end.
Proof.
  intros Hup. unfold all, bind. rewrite execute_up by assumption.
  cbn zeta. now destruct window.
Qed.

Lemma first_up {R} (q : Query R) (s : Session) (srv : Server) :
  database_up srv = true ->
  q_offset q = None ->
  first q (s, srv) =
    let d := default (database srv) (transaction s) in
    (Return (head (List.filter (q_filter q) (q_rows q d))),
     (set_transaction (Some d) s,
      record (Execute (Select (q_table q))) srv)).
Proof.
  intros Hup Hoff. unfold first, bind. rewrite all_up by assumption.
  cbn. rewrite Hoff. cbn. unfold ret.
  now destruct (List.filter _ _).
Qed.

Lemma head_filter_Some {A} (p : A -> bool) (l : list A) (x : A) :
  head (List.filter p l) = Some x -> p x = true /\ In x l.
Proof.
  intros H. assert (In x (List.filter p l)) as Hin.
  { destruct (List.filter p l); [discriminate | injection H as ->; now left]. }
  apply filter_In in Hin. tauto.
Qed.

Lemma head_filter_None {A} (p : A -> bool) (l : list A) :
  head (List.filter p l) = None <-> existsb p l = false.
Proof.
  induction l as [|a l IH]; cbn; [tauto |].
  destruct (p a); cbn; [split; discriminate | exact IH].
Qed.

Lemma filter_nil_existsb {A} (p : A -> bool) (l : list A) :
  List.filter p l = [] <-> existsb p l = false.
Proof.
  induction l as [|a l IH]; cbn; [tauto |].
  destruct (p a); cbn; [split; discriminate | exact IH].
Qed.

Lemma filter_negb_none {A} (p : A -> bool) (l : list A) :
  List.filter p l = [] -> List.filter (fun x => negb (p x)) l = l.
Proof.
  induction l as [|a l IH]; cbn; [reflexivity |].
  destruct (p a); cbn; [discriminate | intros H; now rewrite IH].
Qed.

(** What one [delete_user] does from acquiring the session to releasing
    it, when the database answers. *)
Lemma delete_user_run (X : Z) (srv : Server) :
  database_up srv = true ->
  main.get_db (crud.delete_user X) srv =
    let d := database srv in
    let h := next_sid srv in
    if existsb (has_id X) (users d) then
      let d' := {| users := List.filter (fun v => negb (has_id X v)) (users d);
                   posts := List.filter (fun p => negb (owned_by X p)) (posts d);
                   users_id_seq := users_id_seq d;
                   posts_id_seq := posts_id_seq d;
                   now := now d |} in
      (Return true,
       {| database := d';
          database_up := true;
          log := log srv ++
                 [Acquire h; Execute (Select users_table);
                  Execute (Select posts_table)] ++
                 (if existsb (owned_by X) (posts d)
                  then [Execute (Delete posts_table)] else []) ++
                 [Execute (Delete users_table); Commit d'; Release h];
          next_sid := S h |})
    else
      (Return false,
       {| database := d;
          database_up := true;
          log := log srv ++
                 [Acquire h; Execute (Select users_table); Rollback; Release h];
          next_sid := S h |}).
Proof.
  intros Hup. unfold main.get_db, crud.delete_user, bind, SessionLocal.
  rewrite first_up; [| simpl; assumption | reflexivity].
  cbn. unfold has_id, owned_by.
  destruct (head _) as [u |] eqn:Hhead.
  - assert (existsb (fun u => User.id u =? X) (users (database srv)) = true) as ->.
    { destruct (existsb _ _) eqn:E; [reflexivity |].
      apply head_filter_None in E. congruence. }
    apply head_filter_Some in Hhead as [Hid _]. apply Z.eqb_eq in Hid. subst X.
    unfold delete, commit, flush, bind, ret, close, record, set_transaction.
    cbn. unfold bind, delete_row, bind. rewrite execute_up by assumption.
    cbn.
    destruct (List.filter _ (posts (database srv))) as [| p ps] eqn:Hposts.
    + apply filter_negb_none in Hposts as Hkeep. rewrite Hkeep.
      apply filter_nil_existsb in Hposts. rewrite Hposts.
      unfold ret, execute, write, set_transaction, record. cbn. rewrite Hup. cbn.
      rewrite <- !app_assoc. reflexivity.
    + assert (existsb (fun p => Post.owner_id p =? User.id u)
                      (posts (database srv)) = true) as ->.
      { destruct (existsb _ _) eqn:E; [reflexivity |].
        apply filter_nil_existsb in E. congruence. }
      unfold ret, execute, write, set_transaction, record. cbn. rewrite Hup. cbn.
      rewrite <- !app_assoc. reflexivity.
  - apply head_filter_None in Hhead. rewrite Hhead.
    unfold ret, close, rollback, record. cbn.
    rewrite rolled_back_same, <- !app_assoc. now rewrite Hup.
Qed.

(** Listing through a fresh session, when the database answers. *)
Lemma listing_run {R} (q : Query R) (srv : Server) :
  database_up srv = true ->
  main.get_db (all q) srv =
    (match window (q_offset q) (q_limit q)
                  (List.filter (q_filter q) (q_rows q (database srv))) with
     | Return rows => Return rows
     | Raise e => Raise e
     end,
     {| database := database srv;
        database_up := true;
        log := log srv ++
               [Acquire (next_sid srv); Execute (Select (q_table q));
                Rollback; Release (next_sid srv)];
        next_sid := S (next_sid srv) |}).
Proof.
  intros Hup. unfold main.get_db, SessionLocal.
  rewrite all_up by (simpl; assumption). cbn.
  destruct window; cbn; unfold rollback, record; cbn;
    rewrite rolled_back_same, <- !app_assoc, Hup; reflexivity.
Qed.

Lemma window_In {R} (off lim : option Z) (rows page : list R) :
  window off lim rows = Return page -> forall r, In r page -> In r rows.
Proof.
  unfold window. destruct (_ || _); [discriminate |].
  intros [= <-] r Hr.
  assert (In r (drop (Z.to_nat (default 0 off)) rows)) as Hd.
  { destruct lim; [| exact Hr]. apply list_elem_of_In.
    apply list_elem_of_In in Hr. eapply subseteq_take, Hr. }
  apply list_elem_of_In. apply list_elem_of_In in Hd. eapply subseteq_drop, Hd.
Qed.

(** Looking one row up through a fresh session. *)
Lemma lookup_run {R} (q : Query R) (srv : Server) :
  database_up srv = true ->
  q_offset q = None ->
  main.get_db (first q) srv =
    (Return (head (List.filter (q_filter q) (q_rows q (database srv)))),
     {| database := database srv;
        database_up := true;
        log := log srv ++
               [Acquire (next_sid srv); Execute (Select (q_table q));
                Rollback; Release (next_sid srv)];
        next_sid := S (next_sid srv) |}).
Proof.
  intros Hup Hoff. unfold main.get_db, SessionLocal.
  rewrite first_up by (simpl; assumption). cbn.
  unfold rollback, record; cbn;
    rewrite rolled_back_same, <- !app_assoc, Hup; reflexivity.
Qed.

(** C1.  For every state of the store in which the database answers and
    every user id [X]: [delete_user] returns [True] when a user with id
    [X] is stored and [False] otherwise.  When it is stored, the user and
    every post whose [owner_id] is [X] are removed by the statements of
    one transaction, made visible by its single COMMIT (no committed
    state has the user gone and its posts left); afterwards the user is
    not found and no listing of posts contains a post owned by [X].  When
    it is not stored the rows are as before. *)
Theorem delete_user_cascade (srv : Server) (X : Z) :
  database_up srv = true ->
  let present := existsb (has_id X) (users (database srv)) in
  let r := fst (main.get_db (crud.delete_user X) srv) in
  let srv' := snd (main.get_db (crud.delete_user X) srv) in
  r = Return present /\
  (present = true ->
   users (database srv') =
     List.filter (fun u => negb (has_id X u)) (users (database srv)) /\
   posts (database srv') =
     List.filter (fun p => negb (owned_by X p)) (posts (database srv)) /\
   (exists stmts,
       log srv' = log srv ++ [Acquire (next_sid srv)] ++ map Execute stmts ++
                  [Commit (database srv'); Release (next_sid srv)]) /\
   fst (main.get_db (crud.get_user X) srv') = Return None /\
   (forall skip limit ps,
       fst (main.get_db (crud.get_posts skip limit) srv') = Return ps ->
       forall p, In p ps -> Post.owner_id p <> X)) /\
  (present = false -> database srv' = database srv).
Proof.
  intros Hup present r srv'. subst present r srv'.
  rewrite delete_user_run by assumption. cbv zeta.
  destruct (existsb (has_id X) (users (database srv))) eqn:Hpresent; cbn [fst snd].
  - split; [reflexivity |]. split; [| discriminate]. intros _.
    cbn [database users posts log].
    split; [reflexivity |]. split; [reflexivity |]. split; [| split].
    + exists ([Select users_table; Select posts_table] ++
              (if existsb (owned_by X) (posts (database srv))
               then [Delete posts_table] else []) ++ [Delete users_table]).
      destruct (existsb (owned_by X) _); reflexivity.
    + unfold crud.get_user. rewrite lookup_run by reflexivity. cbn.
      f_equal. apply head_filter_None.
      destruct (existsb _ (List.filter _ _)) eqn:E; [| reflexivity].
      apply existsb_exists in E as (u & Hin & Hu).
      apply filter_In in Hin as [_ Hn]. unfold has_id in Hn.
      rewrite Hu in Hn. discriminate.
    + intros skip limit ps. unfold crud.get_posts.
      rewrite listing_run by reflexivity. cbn.
      destruct (window _ _ _) as [rows | e] eqn:Hw; [| discriminate].
      intros [= ->] p Hp. eapply window_In in Hw; [| exact Hp].
      apply filter_In in Hw as [Hw _]. apply filter_In in Hw as [_ Hw].
      unfold owned_by in Hw. intros E. apply Z.eqb_eq in E. now rewrite E in Hw.
  - split; [reflexivity |]. split; [discriminate |]. reflexivity.
Qed.


(** *** Routes acquire and release nothing themselves *)

Lemma quiet_ret {A} (a : A) : quiet (ret a).
Proof.
  intros s srv. cbn. repeat split. exists []. now rewrite app_nil_r.
Qed.

Lemma quiet_raise {A} (e : exn) : quiet (@raise A e).
Proof.
  intros s srv. cbn. repeat split. exists []. now rewrite app_nil_r.
Qed.

Lemma quiet_bind {A B} (m : M A) (k : A -> M B) :
  quiet m -> (forall a, quiet (k a)) -> quiet (bind m k).
Proof.
  intros Hm Hk s srv. specialize (Hm s srv). unfold bind.
  destruct (m (s, srv)) as [[a | e] [s1 srv1]]; cbn in *.
  - destruct Hm as (Hs & Hn & evs & Hl & Hevs).
    specialize (Hk a s1 srv1).
    destruct Hk as (Hs' & Hn' & evs' & Hl' & Hevs').
    split; [congruence |]. split; [congruence |].
    exists (evs ++ evs'). split.
    + rewrite Hl', Hl. now rewrite app_assoc.
    + apply Forall_app. now split.
  - exact Hm.
Qed.

Lemma quiet_try_except {A} (m : M A) (handler : exn -> M A) :
  quiet m -> (forall e, quiet (handler e)) -> quiet (try_except m handler).
Proof.
  intros Hm Hk s srv. specialize (Hm s srv). unfold try_except.
  destruct (m (s, srv)) as [[a | e] [s1 srv1]]; cbn in *.
  - exact Hm.
  - destruct Hm as (Hs & Hn & evs & Hl & Hevs).
    specialize (Hk e s1 srv1).
    destruct Hk as (Hs' & Hn' & evs' & Hl' & Hevs').
    split; [congruence |]. split; [congruence |].
    exists (evs ++ evs'). split.
    + rewrite Hl', Hl. now rewrite app_assoc.
    + apply Forall_app. now split.
Qed.

Lemma quiet_execute (stmt : statement) : quiet (execute stmt).
Proof.
  intros s srv. unfold execute. destruct (database_up srv); cbn.
  - repeat split. exists [Execute stmt]. split; [reflexivity |].
    repeat constructor.
  - repeat split. exists []. now rewrite app_nil_r.
Qed.

Lemma quiet_write (d : Database) : quiet (write d).
Proof.
  intros s srv. cbn. repeat split. exists []. now rewrite app_nil_r.
Qed.

Lemma quiet_add (obj : instance) : quiet (add obj).
Proof.
  intros s srv. cbn. repeat split. exists []. now rewrite app_nil_r.
Qed.

Lemma quiet_delete (u : User.t) : quiet (delete u).
Proof.
  intros s srv. cbn. repeat split. exists []. now rewrite app_nil_r.
Qed.

Create HintDb quiet.
#[local] Hint Resolve quiet_ret quiet_raise quiet_execute quiet_write quiet_add
  quiet_delete : quiet.

Ltac quiet :=
  repeat first
    [ progress intros
    | apply quiet_bind
    | apply quiet_try_except
    | solve [auto with quiet]
    | match goal with
      | |- quiet (match ?x with _ => _ end) => destruct x
      | |- quiet (if ?b then _ else _) => destruct b
      end ].

Lemma quiet_all {R} (q : Query R) : quiet (all q).
Proof. unfold all. quiet. Qed.

Lemma quiet_first {R} (q : Query R) : quiet (first q).
Proof. unfold first. pose proof (@quiet_all R). quiet. Qed.

Lemma quiet_insert_row (obj : instance) : quiet (insert_row obj).
Proof. unfold insert_row. quiet. Qed.

Lemma quiet_delete_row (u : User.t) : quiet (delete_row u).
Proof. unfold delete_row. quiet. Qed.

Lemma quiet_insert_rows (objs : list instance) : quiet (insert_rows objs).
Proof.
  induction objs as [|obj objs IH]; cbn [insert_rows];
    pose proof quiet_insert_row; quiet.
Qed.

Lemma quiet_delete_rows (us : list User.t) : quiet (delete_rows us).
Proof.
  induction us as [|u us IH]; cbn [delete_rows];
    pose proof quiet_delete_row; quiet.
Qed.

Lemma quiet_flush : quiet flush.
Proof.
  intros s srv. unfold flush.
  set (m := bind _ _).
  assert (quiet m) as Hm.
  { subst m. pose proof quiet_insert_rows. pose proof quiet_delete_rows.
    apply quiet_bind; [auto |]. intros ks. apply quiet_bind; [auto |].
    intros _ [s' srv']. cbn. repeat split. exists []. now rewrite app_nil_r. }
  apply Hm.
Qed.

Lemma rollback_log (s : Session) (srv : Server) :
  next_sid (rollback s srv) = next_sid srv /\
  database_up (rollback s srv) = database_up srv /\
  users (database (rollback s srv)) = users (database srv) /\
  posts (database (rollback s srv)) = posts (database srv) /\
  exists evs,
    log (rollback s srv) = log srv ++ evs /\
    (evs = [] \/ evs = [Rollback]).
Proof.
  unfold rollback. destruct (transaction s) as [t |]; cbn.
  - repeat split. exists [Rollback]. split; [reflexivity | now right].
  - repeat split. exists []. split; [now rewrite app_nil_r | now left].
Qed.

Lemma quiet_commit : quiet commit.
Proof.
  intros s srv. unfold commit. pose proof (quiet_flush s srv) as H.
  destruct (flush (s, srv)) as [[[] | e] [s1 srv1]]; cbn in *.
  - destruct H as (Hs & Hn & evs & Hl & Hevs).
    repeat split; [assumption.. |].
    exists (evs ++ [Commit (default (database srv1) (transaction s1))]). split.
    + now rewrite Hl, app_assoc.
    + apply Forall_app. split; [assumption | repeat constructor].
  - destruct H as (Hs & Hn & evs & Hl & Hevs).
    destruct (rollback_log s1 srv1) as (Hn' & _ & _ & _ & evs' & Hl' & Hevs').
    split; [assumption |]. split; [congruence |].
    exists (evs ++ evs'). split.
    + now rewrite Hl', Hl, app_assoc.
    + apply Forall_app. split; [assumption |].
      destruct Hevs' as [-> | ->]; repeat constructor.
Qed.

Lemma quiet_refresh_User (obj : nat) : quiet (refresh_User obj).
Proof.
  intros s srv. unfold refresh_User.
  destruct (identity_map s !! obj) as [[k | k] |].
  - assert (quiet (d <- execute (Select users_table) ;;
                   match find (fun u => User.id u =? k) (users d) with
                   | Some u => ret u
                   | None => raise InvalidRequestError
                   end)) as Hq by quiet.
    apply Hq.
  - cbn. repeat split. exists []. now rewrite app_nil_r.
  - cbn. repeat split. exists []. now rewrite app_nil_r.
Qed.

Lemma quiet_refresh_Post (obj : nat) : quiet (refresh_Post obj).
Proof.
  intros s srv. unfold refresh_Post.
  destruct (identity_map s !! obj) as [[k | k] |].
  - cbn. repeat split. exists []. now rewrite app_nil_r.
  - assert (quiet (d <- execute (Select posts_table) ;;
                   match find (fun p => Post.id p =? k) (posts d) with
                   | Some p => ret p
                   | None => raise InvalidRequestError
                   end)) as Hq by quiet.
    apply Hq.
  - cbn. repeat split. exists []. now rewrite app_nil_r.
Qed.

#[local] Hint Resolve quiet_all quiet_first quiet_commit quiet_refresh_User
  quiet_refresh_Post : quiet.

Lemma quiet_get_user (user_id : Z) : quiet (crud.get_user user_id).
Proof. unfold crud.get_user. quiet. Qed.

Lemma quiet_get_user_by_email (email : string) :
  quiet (crud.get_user_by_email email).
Proof. unfold crud.get_user_by_email. quiet. Qed.

Lemma quiet_get_users (skip limit : Z) : quiet (crud.get_users skip limit).
Proof. unfold crud.get_users. quiet. Qed.

Lemma quiet_get_posts (skip limit : Z) : quiet (crud.get_posts skip limit).
Proof. unfold crud.get_posts. quiet. Qed.

Lemma quiet_crud_create_user (user : schemas.UserCreate) :
  quiet (crud.create_user user).
Proof. unfold crud.create_user. quiet. Qed.

Lemma quiet_crud_delete_user (user_id : Z) : quiet (crud.delete_user user_id).
Proof. unfold crud.delete_user. quiet. Qed.

Lemma quiet_create_post (post : schemas.PostCreate) (user_id : Z) :
  quiet (crud.create_post post user_id).
Proof. unfold crud.create_post. quiet. Qed.

#[local] Hint Resolve quiet_get_user quiet_get_user_by_email quiet_get_users
  quiet_get_posts quiet_crud_create_user quiet_crud_delete_user
  quiet_create_post : quiet.

Lemma quiet_health_check : quiet main.health_check.
Proof. unfold main.health_check. quiet. Qed.

Lemma quiet_create_user (user : schemas.UserCreate) :
  quiet (main.create_user user).
Proof. unfold main.create_user. quiet. Qed.

Lemma quiet_read_users (skip limit : Z) : quiet (main.read_users skip limit).
Proof. unfold main.read_users. quiet. Qed.

Lemma quiet_read_user (user_id : Z) : quiet (main.read_user user_id).
Proof. unfold main.read_user. quiet. Qed.

Lemma quiet_delete_user (user_id : Z) : quiet (main.delete_user user_id).
Proof. unfold main.delete_user. quiet. Qed.

Lemma quiet_create_post_for_user (user_id : Z) (post : schemas.PostCreate) :
  quiet (main.create_post_for_user user_id post).
Proof. unfold main.create_post_for_user. quiet. Qed.

Lemma quiet_read_posts (skip limit : Z) : quiet (main.read_posts skip limit).
Proof. unfold main.read_posts. quiet. Qed.

#[local] Hint Resolve quiet_health_check quiet_create_user quiet_read_users
  quiet_read_user quiet_delete_user quiet_create_post_for_user
  quiet_read_posts : quiet.

Lemma quiet_reply_with {A} (f : A -> main.reply) (m : M A) :
  quiet m -> quiet (main.reply_with f m).
Proof. intros Hm. unfold main.reply_with. quiet. Qed.

(** [get_db] around a quiet route: the handle is acquired, the route
    runs, the handle is released, whatever way the route ended. *)
Lemma get_db_bracket {A} (endpoint : M A) (srv : Server) :
  quiet endpoint ->
  next_sid (snd (main.get_db endpoint srv)) = S (next_sid srv) /\
  exists evs,
    log (snd (main.get_db endpoint srv)) =
      log srv ++ [Acquire (next_sid srv)] ++ evs ++ [Release (next_sid srv)] /\
    Forall (fun e => is_handle_event e = false) evs.
Proof.
  intros Hq. unfold main.get_db, SessionLocal.
  match goal with |- context [endpoint (?s0, ?srv0)] =>
    specialize (Hq s0 srv0); destruct (endpoint (s0, srv0)) as [r [s1 srv1]]
  end.
  cbn in *. destruct Hq as (Hs & Hn & evs & Hl & Hevs).
  destruct (rollback_log s1 srv1) as (Hn' & _ & _ & _ & evs' & Hl' & Hevs').
  split; [congruence |]. exists (evs ++ evs'). split.
  - rewrite Hl', Hl, Hs. now rewrite <- !app_assoc.
  - apply Forall_app. split; [assumption |].
    destruct Hevs' as [-> | ->]; repeat constructor.
Qed.

(** *** The routes that write *)

Lemma find_app_last {A} (p : A -> bool) (l : list A) (x : A) :
  p x = true -> find p (l ++ [x]) = Some (default x (find p l)).
Proof.
  intros Hx. induction l as [|a l IH]; cbn; [now rewrite Hx |].
  destruct (p a); [reflexivity | exact IH].
Qed.

(** What the route [create_user] does from acquiring the session to
    releasing it, when the database answers. *)
Lemma create_user_run (user : schemas.UserCreate) (srv : Server) :
  database_up srv = true ->
  main.get_db (main.create_user user) srv =
    let d := database srv in
    let h := next_sid srv in
    if existsb (has_email (schemas.email user)) (users d) then
      (Raise (HTTPException 400 "Email already registered"),
       {| database := d;
          database_up := true;
          log := log srv ++
                 [Acquire h; Execute (Select users_table); Rollback; Release h];
          next_sid := S h |})
    else
      let row := new_user_row user d in
      let d' := {| users := users d ++ [row];
                   posts := posts d;
                   users_id_seq := users_id_seq d + 1;
                   posts_id_seq := posts_id_seq d;
                   now := now d |} in
      (Return (default row (find (has_id (users_id_seq d)) (users d))),
       {| database := d';
          database_up := true;
          log := log srv ++
                 [Acquire h; Execute (Select users_table);
                  Execute (Insert users_table); Commit d';
                  Execute (Select users_table); Rollback; Release h];
          next_sid := S h |}).
Proof.
  intros Hup. unfold main.get_db, main.create_user, crud.get_user_by_email,
    bind, SessionLocal.
  rewrite first_up; [| simpl; assumption | reflexivity].
  cbn. fold (has_email (schemas.email user)).
  destruct (head _) as [u |] eqn:Hhead.
  - assert (existsb (has_email (schemas.email user)) (users (database srv)) = true) as ->.
    { destruct (existsb _ _) eqn:E; [reflexivity |].
      apply head_filter_None in E. congruence. }
    unfold raise, close, rollback, record. cbn.
    rewrite rolled_back_same, <- !app_assoc. now rewrite Hup.
  - apply head_filter_None in Hhead. rewrite Hhead.
    unfold crud.create_user, add, commit, flush, bind, ret, close, rollback,
      record, set_transaction.
    cbn. unfold bind, execute. cbn. rewrite Hup. cbn.
    fold (has_email (schemas.email user)). rewrite Hhead. cbn.
    fold (has_id (users_id_seq (database srv))).
    fold (new_user_row user (database srv)).
    rewrite find_app_last by (unfold has_id; cbn; apply Z.eqb_refl).
    unfold ret, record. cbn. rewrite rolled_back_same, <- !app_assoc.
    reflexivity.
Qed.

Lemma get_db_reply_with {A} (f : A -> main.reply) (m : M A) (srv : Server) :
  main.get_db (main.reply_with f m) srv =
    (main.fmap_result f (fst (main.get_db m srv)), snd (main.get_db m srv)).
Proof.
  unfold main.get_db, main.reply_with, bind.
  destruct (m (SessionLocal srv)) as [[a | e] [s1 srv1]]; reflexivity.
Qed.

Lemma existsb_has_email (E : string) (us : list User.t) :
  existsb (has_email E) us = true <->
  exists u, In u us /\ User.email u = E.
Proof.
  rewrite existsb_exists. unfold has_email.
  split; intros (u & Hin & Hu); exists u; (split; [assumption |]);
    now apply String.eqb_eq.
Qed.

Lemma existsb_has_id (X : Z) (us : list User.t) :
  existsb (has_id X) us = true <-> exists u, In u us /\ User.id u = X.
Proof.
  rewrite existsb_exists. unfold has_id.
  split; intros (u & Hin & Hu); exists u; (split; [assumption |]);
    now apply Z.eqb_eq.
Qed.

(** C5.  In every stored state (the database answering) that has a user
    with the email of a valid create-user request, the request is
    answered 400 "Email already registered" and nothing is written: the
    committed rows are the same and the only statement sent is the SELECT
    of the uniqueness check, whose transaction is rolled back when the
    session is closed.  When no stored user has the email, the same
    SELECT comes first and the INSERT and its COMMIT after it: the check
    is made before any insert. *)
Theorem create_user_duplicate_email
    (body : schemas.UserCreateBody) (user : schemas.UserCreate) (srv : Server) :
  database_up srv = true ->
  schemas.UserCreate_validate EmailStr body = Some user ->
  let h := next_sid srv in
  ((exists u, In u (users (database srv)) /\
              User.email u = schemas.email user) ->
   main.app EmailStr (main.POST_users body) srv =
     (Raise (HTTPException 400 "Email already registered"),
      {| database := database srv;
         database_up := true;
         log := log srv ++
                [Acquire h; Execute (Select users_table); Rollback;
                 Release h];
         next_sid := S h |})) /\
  ((forall u, In u (users (database srv)) ->
              User.email u <> schemas.email user) ->
   exists d',
     users d' = users (database srv) ++ [new_user_row user (database srv)] /\
     snd (main.app EmailStr (main.POST_users body) srv) =
       {| database := d';
          database_up := true;
          log := log srv ++
                 [Acquire h; Execute (Select users_table);
                  Execute (Insert users_table); Commit d';
                  Execute (Select users_table); Rollback; Release h];
          next_sid := S h |}).
Proof.
  intros Hup Hvalid h. subst h. unfold main.app. rewrite Hvalid.
  rewrite get_db_reply_with, create_user_run by assumption. cbv zeta.
  split.
  - intros Hdup. apply existsb_has_email in Hdup. rewrite Hdup. reflexivity.
  - intros Hfree.
    assert (existsb (has_email (schemas.email user)) (users (database srv)) = false) as ->.
    { destruct (existsb _ _) eqn:E; [| reflexivity].
      apply existsb_has_email in E as (u & Hin & Hu). now apply Hfree in Hin. }
    cbn [fst snd]. eexists. split; [| reflexivity]. reflexivity.
Qed.

(** What the route [create_post_for_user] does for an owner that is not
    stored. *)
Lemma create_post_for_user_missing
    (U : Z) (post : schemas.PostCreate) (srv : Server) :
  database_up srv = true ->
  existsb (has_id U) (users (database srv)) = false ->
  main.get_db (main.create_post_for_user U post) srv =
    (Raise (HTTPException 404 "User not found"),
     {| database := database srv;
        database_up := true;
        log := log srv ++
               [Acquire (next_sid srv); Execute (Select users_table);
                Rollback; Release (next_sid srv)];
        next_sid := S (next_sid srv) |}).
Proof.
  intros Hup Habsent.
  unfold main.get_db, main.create_post_for_user, crud.get_user, bind, SessionLocal.
  rewrite first_up; [| simpl; assumption | reflexivity].
  cbn. fold (has_id U).
  apply head_filter_None in Habsent. rewrite Habsent.
  unfold raise, close, rollback, record. cbn.
  rewrite rolled_back_same, <- !app_assoc. now rewrite Hup.
Qed.

(** C6.  For every user id [U] that no stored user has (the database
    answering), a create-post request for owner [U] is answered 404 "User
    not found" and no row is inserted: the committed rows are the same and
    the only statement sent is the SELECT that looks the owner up, whose
    transaction is rolled back when the session is closed, so the check
    is made before any insert. *)
Theorem create_post_missing_owner
    (U : Z) (post : schemas.PostCreate) (srv : Server) :
  database_up srv = true ->
  (forall u, In u (users (database srv)) -> User.id u <> U) ->
  main.app EmailStr (main.POST_user_posts U post) srv =
    (Raise (HTTPException 404 "User not found"),
     {| database := database srv;
        database_up := true;
        log := log srv ++
               [Acquire (next_sid srv); Execute (Select users_table);
                Rollback; Release (next_sid srv)];
        next_sid := S (next_sid srv) |}).
Proof.
  intros Hup Hmissing. unfold main.app.
  rewrite get_db_reply_with, create_post_for_user_missing; [reflexivity | assumption |].
  destruct (existsb _ _) eqn:E; [| reflexivity].
  apply existsb_has_id in E as (u & Hin & Hu). now apply Hmissing in Hin.
Qed.

(** A route that starts with a query does nothing when the database
    cannot be reached. *)
Lemma create_user_down (user : schemas.UserCreate) (srv : Server) :
  database_up srv = false ->
  main.get_db (main.create_user user) srv =
    (Raise OperationalError,
     {| database := database srv;
        database_up := false;
        log := log srv ++ [Acquire (next_sid srv); Release (next_sid srv)];
        next_sid := S (next_sid srv) |}).
Proof.
  intros Hdown.
  unfold main.get_db, main.create_user, crud.get_user_by_email, first, all,
    bind, execute, SessionLocal.
  cbn. rewrite Hdown. cbn. unfold record. cbn.
  rewrite <- !app_assoc, ?Hdown. reflexivity.
Qed.

(** C10.  A create-user request whose email the validator rejects is
    refused when the body is validated: the route is not called, no
    statement is sent and the committed rows are as before.  A body whose
    email the validator accepts reaches the route with the address the
    validator returned.  So whenever the request sends any statement (the
    uniqueness check is the first) the email was well-formed, and a user
    row that was not stored before the request carries an address the
    validator returned. *)
Theorem create_user_invalid_email (body : schemas.UserCreateBody) (srv : Server) :
  let h := next_sid srv in
  let srv' := snd (main.app EmailStr (main.POST_users body) srv) in
  (EmailStr (schemas.body_email body) = None ->
   main.app EmailStr (main.POST_users body) srv =
     (Raise RequestValidationError,
      {| database := database srv;
         database_up := database_up srv;
         log := log srv ++ [Acquire h; Release h];
         next_sid := S h |})) /\
  (forall a, EmailStr (schemas.body_email body) = Some a ->
     main.app EmailStr (main.POST_users body) srv =
       main.get_db
         (main.reply_with main.UserReply
            (main.create_user
               {| schemas.email := a;
                  schemas.full_name := schemas.body_full_name body;
                  schemas.is_active := default true (schemas.body_is_active body) |}))
         srv) /\
  (exists evs,
      log srv' = log srv ++ [Acquire h] ++ evs ++ [Release h] /\
      Forall (fun e => is_handle_event e = false) evs /\
      (evs <> [] -> exists a, EmailStr (schemas.body_email body) = Some a)) /\
  (forall u, In u (users (database srv')) ->
     In u (users (database srv)) \/
     exists a, EmailStr (schemas.body_email body) = Some a /\ User.email u = a).
Proof.
  intros h srv'. subst h srv'.
  unfold main.app, schemas.UserCreate_validate.
  destruct (EmailStr (schemas.body_email body)) as [a |] eqn:Hemail.
  - split; [discriminate |]. split; [intros ? [= <-]; reflexivity |].
    set (user := {| schemas.email := a |}).
    split.
    + destruct (get_db_bracket (main.reply_with main.UserReply (main.create_user user)) srv)
        as (_ & evs & Hl & Hevs).
      { apply quiet_reply_with, quiet_create_user. }
      exists evs. split; [exact Hl |]. split; [exact Hevs |]. eauto.
    + rewrite get_db_reply_with. cbn [snd].
      destruct (database_up srv) eqn:Hup.
      * rewrite create_user_run by assumption. cbv zeta.
        destruct (existsb _ _); cbn; [tauto |].
        intros u Hu. apply in_app_or in Hu as [Hu | [<- | []]]; [tauto |].
        right. exists a. split; reflexivity.
      * rewrite create_user_down by assumption. cbn. tauto.
  - split; [| split; [discriminate | split]].
    + intros _. unfold main.get_db, SessionLocal, raise, close, record. cbn.
      now rewrite <- !app_assoc.
    + exists []. unfold main.get_db, SessionLocal, raise, close, record. cbn.
      rewrite <- !app_assoc. split; [reflexivity |]. split; [constructor | congruence].
    + unfold main.get_db, SessionLocal, raise, close, record. cbn. tauto.
Qed.

Lemma acquired_app (h : nat) (l1 l2 : list event) :
  acquired h (l1 ++ l2) = (acquired h l1 + acquired h l2)%nat.
Proof. unfold acquired. now rewrite List.filter_app, List.length_app. Qed.

Lemma released_app (h : nat) (l1 l2 : list event) :
  released h (l1 ++ l2) = (released h l1 + released h l2)%nat.
Proof. unfold released. now rewrite List.filter_app, List.length_app. Qed.

Lemma no_handle_events (h : nat) (evs : list event) :
  Forall (fun e => is_handle_event e = false) evs ->
  acquired h evs = 0%nat /\ released h evs = 0%nat.
Proof.
  unfold acquired, released.
  induction 1 as [| e evs He _ [IHa IHr]]; [split; reflexivity |].
  destruct e; cbn in *; try discriminate; tauto.
Qed.

(** C9.  Every request to a route that depends on [get_db] acquires one
    session handle, a fresh one, and releases it as the last thing it
    does; in between the handle is neither released nor acquired again.
    This holds for every request and every state of the server, so for
    every way the route can end: a normal return, an [HTTPException]
    raised early (404, 400, 503), a body refused by validation, or a
    failure of the database.  The routes that do not depend on [get_db]
    touch no handle.  Hence, between requests, every handle given out so
    far has been acquired once and released once. *)
Theorem session_released_exactly_once (req : main.request) (srv : Server) :
  let h := next_sid srv in
  let srv' := snd (main.app EmailStr req srv) in
  (if main.depends_on_db req then
     next_sid srv' = S h /\
     exists evs,
       log srv' = log srv ++ [Acquire h] ++ evs ++ [Release h] /\
       Forall (fun e => is_handle_event e = false) evs
   else
     next_sid srv' = h /\ log srv' = log srv) /\
  (handles_settled srv -> handles_settled srv').
Proof.
  intros h srv'.
  assert (if main.depends_on_db req then
            next_sid srv' = S h /\
            exists evs,
              log srv' = log srv ++ [Acquire h] ++ evs ++ [Release h] /\
              Forall (fun e => is_handle_event e = false) evs
          else next_sid srv' = h /\ log srv' = log srv) as Hshape.
  { subst h srv'. destruct req; cbn [main.depends_on_db main.app snd];
      try (split; reflexivity);
      apply get_db_bracket;
      try (apply quiet_reply_with; auto with quiet).
    match goal with
    | |- quiet (match ?v with _ => _ end) =>
        destruct v; [apply quiet_reply_with; auto with quiet | apply quiet_raise]
    end. }
  split; [exact Hshape |].
  intros Hsettled k. specialize (Hsettled k).
  destruct (main.depends_on_db req).
  - destruct Hshape as (Hn & evs & Hl & Hevs).
    destruct (no_handle_events k evs Hevs) as [Ha Hr].
    rewrite Hl, Hn, !acquired_app, !released_app, Ha, Hr.
    destruct Hsettled as [Hsa Hsr]. rewrite Hsr, Hsa.
    subst h.
    destruct (Nat.ltb_spec k (next_sid srv)), (Nat.ltb_spec k (S (next_sid srv)));
      try lia; unfold acquired, released; cbn [List.filter length app];
      destruct (Nat.eqb_spec (next_sid srv) k); cbn [length]; lia.
  - destruct Hshape as [-> ->]. exact Hsettled.
Qed.

(** *** Listing *)

Lemma row_count_spec (n : Z) : row_count n = true <-> 0 <= n < 2 ^ 63.
Proof. unfold row_count. rewrite andb_true_iff, Z.leb_le, Z.ltb_lt. tauto. Qed.

Lemma get_users_run (skip limit : Z) (srv : Server) :
  database_up srv = true -> 0 <= skip < 2 ^ 63 -> 0 <= limit < 2 ^ 63 ->
  main.get_db (crud.get_users skip limit) srv =
    (Return (take (Z.to_nat limit) (drop (Z.to_nat skip) (users (database srv)))),
     {| database := database srv;
        database_up := true;
        log := log srv ++
               [Acquire (next_sid srv); Execute (Select users_table);
                Rollback; Release (next_sid srv)];
        next_sid := S (next_sid srv) |}).
Proof.
  intros Hup Hskip Hlimit. unfold crud.get_users.
  rewrite listing_run by assumption. cbn. unfold window. cbn.
  apply row_count_spec in Hskip, Hlimit. rewrite Hskip, Hlimit.
  cbn. now rewrite List.filter_true.
Qed.

(** A listing whose [skip] or [limit] the database does not take. *)
Lemma listing_refused {R} (q : Query R) (skip limit : Z) (srv : Server) :
  database_up srv = true ->
  ~ (0 <= skip < 2 ^ 63 /\ 0 <= limit < 2 ^ 63) ->
  main.get_db (all (orm.limit limit (offset skip q))) srv =
    (Raise DataError,
     {| database := database srv;
        database_up := true;
        log := log srv ++
               [Acquire (next_sid srv); Execute (Select (q_table q));
                Rollback; Release (next_sid srv)];
        next_sid := S (next_sid srv) |}).
Proof.
  intros Hup Hout. rewrite listing_run by assumption. cbn. unfold window. cbn.
  assert (negb (row_count skip) || negb (row_count limit) = true) as ->;
    [| reflexivity].
  destruct (row_count skip) eqn:Hs; [| reflexivity].
  destruct (row_count limit) eqn:Hl; [| reflexivity].
  apply row_count_spec in Hs, Hl. tauto.
Qed.


End ServiceFacts.

(** ** The load script *)
Section LoadScript.
Import test_load Spec.
Local Open Scope script_scope.

(** Every task of a [gather] ends with one outcome, whatever the outcomes
    of the others. *)
Lemma settle_length (env : Env) (tasks : list call) :
  forall s, length (settle env s tasks) = length tasks.
Proof.
  induction tasks as [|c tasks IH]; intros s; cbn; [reflexivity | now rewrite IH].
Qed.

Lemma mixed_iteration_run (env : Env) (count : Z) (st : State) :
  mixed_iteration env count st =
    let tasks := mixed_tasks (randint env) (drawn st) count in
    (count + 1,
     {| started := started st + length tasks;
        drawn := if count mod 5 =? 0 then S (drawn st) else drawn st;
        read := read st;
        trace := trace st ++ fan_out tasks (settle env (started st) tasks) ++
                 [Slept (1 # 10)] |}).
Proof.
  unfold mixed_iteration, mixed_tasks, fan_out, bind, create, emit, ret,
    random_randint, gather, sleep.
  destruct (count mod 3 =? 0), (count mod 5 =? 0); cbn;
    rewrite <- !app_assoc; cbn; reflexivity.
Qed.

Lemma mixed_loop_run (env : Env) (duration : Z) (r0 : nat) (k : nat) :
  forall (fuel : nat) (count : Z) (st : State),
    (forall j, (j < k)%nat ->
       Py.float_lt_int (elapsed env r0 (read st + j)) duration = true) ->
    Py.float_lt_int (elapsed env r0 (read st + k)) duration = false ->
    (k < fuel)%nat ->
    fst (mixed_loop env fuel (time env r0) duration count st) =
      Some (count + Z.of_nat k) /\
    read (snd (mixed_loop env fuel (time env r0) duration count st)) =
      (read st + S k)%nat /\
    trace (snd (mixed_loop env fuel (time env r0) duration count st)) =
      trace st ++ mixed_rounds env k (started st) (drawn st) count.
Proof.
  unfold elapsed.
  induction k as [|k IH]; intros fuel count st Hgo Hstop Hfuel.
  - destruct fuel as [|fuel]; [lia |].
    cbn [mixed_loop]. unfold bind, time_time. cbn.
    rewrite Nat.add_0_r in Hstop. rewrite Hstop. cbn.
    rewrite app_nil_r, Z.add_0_r. repeat split. lia.
  - destruct fuel as [|fuel]; [lia |].
    pose proof (Hgo 0%nat ltac:(lia)) as H0. rewrite Nat.add_0_r in H0.
    set (tasks := mixed_tasks (randint env) (drawn st) count).
    set (st' := {| started := started st + length tasks;
                   drawn := if count mod 5 =? 0 then S (drawn st) else drawn st;
                   read := S (read st);
                   trace := trace st ++ fan_out tasks (settle env (started st) tasks) ++
                            [Slept (1 # 10)] |}).
    assert (mixed_loop env (S fuel) (time env r0) duration count st =
            mixed_loop env fuel (time env r0) duration (count + 1) st') as ->.
    { cbn [mixed_loop]. unfold bind, time_time. rewrite H0.
      rewrite mixed_iteration_run. reflexivity. }
    destruct (IH fuel (count + 1) st') as (Hr & Hread & Htrace).
    + intros j Hj. specialize (Hgo (S j) ltac:(lia)). cbn [read st'].
      now replace (S (read st) + j)%nat with (read st + S j)%nat by lia.
    + cbn [read st'].
      now replace (S (read st) + k)%nat with (read st + S k)%nat by lia.
    + lia.
    + rewrite Hr, Hread, Htrace. cbn [read started drawn trace st'].
      split; [f_equal; lia |]. split; [lia |].
      cbn [mixed_rounds]. fold tasks. rewrite <- !app_assoc. reflexivity.
Qed.

Lemma mixed_rounds_nth (env : Env) (k : nat) :
  forall (j : nat) (s d : nat) (count : Z),
    (j < k)%nat ->
    exists pre post s' d',
      mixed_rounds env k s d count =
        pre ++
        fan_out (mixed_tasks (randint env) d' (count + Z.of_nat j))
                (settle env s' (mixed_tasks (randint env) d' (count + Z.of_nat j))) ++
        [Slept (1 # 10)] ++ post.
Proof.
  induction k as [|k IH]; intros j s d count Hj; [lia |].
  destruct j as [|j].
  - exists [], (mixed_rounds env k (s + length (mixed_tasks (randint env) d count))
                  (if count mod 5 =? 0 then S d else d) (count + 1)), s, d.
    cbn [mixed_rounds]. rewrite Z.add_0_r. rewrite <- ?app_assoc. reflexivity.
  - destruct (IH j (s + length (mixed_tasks (randint env) d count))%nat
                (if count mod 5 =? 0 then S d else d) (count + 1))
      as (pre & post & s' & d' & E); [lia |].
    exists (fan_out (mixed_tasks (randint env) d count)
              (settle env s (mixed_tasks (randint env) d count)) ++
            [Slept (1 # 10)] ++ pre), post, s', d'.
    cbn [mixed_rounds]. rewrite E.
    replace (count + 1 + Z.of_nat j) with (count + Z.of_nat (S j)) by lia.
    rewrite <- ?app_assoc. reflexivity.
Qed.

(** C8, as the code has it.  The continuous phase reads the clock once
    for the start time and once at the head of every pass of its loop,
    and nowhere else.  The elapsed time is what the loop computes: the
    difference of the reading and the start time, two floats, rounded as a
    float is.  The loop goes on while that is below the duration and ends
    at the first test that finds it equal to the duration or above.  When
    that is after [k] passes, the phase does [k]
    iterations, the [j]-th (from 0) with the counter at [j]: it creates a
    health check, a list call as well when [j] is a multiple of 3, a
    Fibonacci call as well when [j] is a multiple of 5, gathers exactly
    these, and then sleeps a tenth of a second.  Every iteration that
    starts is run to its end, the last one too, and the count [k] is
    printed last. *)
Theorem run_mixed_load_rounds
    (env : Env) (duration : Z) (k fuel : nat) (st : State) :
  runs_for env (read st) duration k ->
  (k < fuel)%nat ->
  let out := run_mixed_load env fuel duration st in
  fst out = Some tt /\
  read (snd out) = (read st + k + 2)%nat /\
  trace (snd out) =
    trace st ++ mixed_rounds env k (started st) (drawn st) 0 ++
    [Print (MixedCompleted (Z.of_nat k) duration)] /\
  (forall j, (j < k)%nat ->
     exists pre post s d,
       let tasks := mixed_tasks (randint env) d (Z.of_nat j) in
       mixed_rounds env k (started st) (drawn st) 0 =
         pre ++ map Created tasks ++
         [Gathered tasks (settle env s tasks); Slept (1 # 10)] ++ post /\
       length (settle env s tasks) = length tasks /\
       (exists rest, tasks = health_check :: rest /\ ~ In health_check rest) /\
       (In (get_users 0 20) tasks <-> Z.of_nat j mod 3 = 0) /\
       ((exists n, In (compute_fibonacci n) tasks) <-> Z.of_nat j mod 5 = 0)).
Proof.
  intros [Hgo Hstop] Hfuel out. subst out.
  unfold run_mixed_load, bind, time_time.
  destruct (mixed_loop_run env duration (read st) k fuel 0
              {| started := started st; drawn := drawn st;
                 read := S (read st); trace := trace st |})
    as (Hr & Hread & Htrace).
  { intros j Hj. apply Hgo, Hj. }
  { apply Hstop. }
  { exact Hfuel. }
  cbn [read started drawn trace] in *.
  destruct (mixed_loop _ _ _ _ _ _) as [r st'] eqn:E. cbn [fst snd] in *.
  subst r. cbn. rewrite Hread, Htrace, <- app_assoc.
  split; [reflexivity |]. split; [lia |]. split; [reflexivity |].
  intros j Hj.
  destruct (mixed_rounds_nth env k j (started st) (drawn st) 0 Hj)
    as (pre & post & s & d & Hnth).
  exists pre, post, s, d. cbv zeta. rewrite Z.add_0_l in Hnth.
  split; [rewrite Hnth; unfold fan_out; now rewrite <- ?app_assoc |].
  split.
  { now rewrite settle_length. }
  unfold mixed_tasks.
  destruct (Z.eqb_spec (Z.of_nat j mod 3) 0) as [H3 | H3],
           (Z.eqb_spec (Z.of_nat j mod 5) 0) as [H5 | H5]; cbn.
  - split; [eexists; split; [reflexivity |]; cbn; intuition discriminate |].
    split; [intuition | split; [intros _; exact H5 | intros _; eexists; eauto]].
  - split; [eexists; split; [reflexivity |]; cbn; intuition discriminate |].
    split; [intuition |].
    split; [intros [n [Hn | [Hn | []]]]; discriminate | intros; contradiction].
  - split; [eexists; split; [reflexivity |]; cbn; intuition discriminate |].
    split; [split; [intros [Hn | [Hn | []]]; discriminate | intros; contradiction] |].
    split; [intros _; exact H5 | intros _; eexists; eauto].
  - split; [eexists; split; [reflexivity |]; cbn; intuition discriminate |].
    split; [split; [intros [Hn | []]; discriminate | intros; contradiction] |].
    split; [intros [n [Hn | []]]; discriminate | intros; contradiction].
Qed.

(** The continuous phase as a whole, for the runs of the script that go
    through it. *)
Lemma run_mixed_load_run
    (env : Env) (duration : Z) (k fuel : nat) (st : State) :
  runs_for env (read st) duration k ->
  (k < fuel)%nat ->
  fst (run_mixed_load env fuel duration st) = Some tt /\
  trace (snd (run_mixed_load env fuel duration st)) =
    trace st ++ mixed_rounds env k (started st) (drawn st) 0 ++
    [Print (MixedCompleted (Z.of_nat k) duration)].
Proof.
  intros [Hgo Hstop] Hfuel.
  unfold run_mixed_load, bind, time_time.
  destruct (mixed_loop_run env duration (read st) k fuel 0
              {| started := started st; drawn := drawn st;
                 read := S (read st); trace := trace st |})
    as (Hr & _ & Htrace).
  { intros j Hj. apply Hgo, Hj. }
  { apply Hstop. }
  { exact Hfuel. }
  cbn [read started drawn trace] in *.
  destruct (mixed_loop _ _ _ _ _ _) as [r st'] eqn:E. cbn [fst snd] in *.
  subst r. cbn. rewrite Htrace, <- app_assoc. split; reflexivity.
Qed.

Lemma bind_run {A B} (m : Script A) (k : A -> Script B)
    (st st1 : State) (a : A) (r : B * State) :
  m st = (a, st1) -> k a st1 = r -> bind m k st = r.
Proof. intros Hm Hk. unfold bind. now rewrite Hm. Qed.

Lemma for_each_create (f : Z -> call) (xs : list Z) :
  forall (acc : list call) (st : State),
    for_each xs acc (fun tasks i => c <- create (f i) ;; ret (tasks ++ [c])) st =
      (acc ++ map f xs,
       {| started := started st; drawn := drawn st; read := read st;
          trace := trace st ++ map Created (map f xs) |}).
Proof.
  induction xs as [|x xs IH]; intros acc st; cbn [for_each map].
  - unfold ret. rewrite !app_nil_r. now destruct st.
  - eapply bind_run; [reflexivity |]. cbv beta.
    rewrite IH. cbn [started drawn read trace]. now rewrite <- !app_assoc.
Qed.

Lemma cpu_loop_run (env : Env) (ixs : list Z) :
  forall (acc : list call) (st : State),
    for_each ixs acc
      (fun tasks i =>
         n <- random_randint env 30 35 ;;
         c <- create (compute_fibonacci n) ;;
         let tasks := tasks ++ [c] in
         if i mod 2 =? 0 then
           n <- random_randint env 1000000 5000000 ;;
           c <- create (compute_sum n) ;;
           ret (tasks ++ [c])
         else ret tasks) st =
      let cpu := cpu_tasks (randint env) (drawn st) ixs in
      (acc ++ cpu,
       {| started := started st; drawn := drawn st + length cpu; read := read st;
          trace := trace st ++ map Created cpu |}).
Proof.
  induction ixs as [|i ixs IH]; intros acc st; cbn [for_each cpu_tasks].
  - unfold ret. cbn. rewrite !app_nil_r, Nat.add_0_r. now destruct st.
  - destruct (i mod 2 =? 0); (eapply bind_run; [reflexivity |]); cbv beta;
      rewrite IH; cbn [started drawn read trace length map]; rewrite <- !app_assoc;
      cbn [app]; f_equal; f_equal; lia.
Qed.

Lemma run_cpu_intensive_operations_run (env : Env) (n : Z) (st : State) :
  run_cpu_intensive_operations env n st =
    let cpu := cpu_tasks (randint env) (drawn st) (Py.range n) in
    (tt,
     {| started := started st + length cpu; drawn := drawn st + length cpu;
        read := read st;
        trace := trace st ++ fan_out cpu (settle env (started st) cpu) |}).
Proof.
  unfold run_cpu_intensive_operations. unfold bind at 1.
  rewrite cpu_loop_run. cbv zeta. unfold bind, gather, ret, fan_out.
  cbn [started drawn read trace app]. now rewrite <- !app_assoc.
Qed.

Lemma print_run (m : message) (st : State) :
  print m st =
    (tt, {| started := started st; drawn := drawn st; read := read st;
            trace := trace st ++ [Print m] |}).
Proof. reflexivity. Qed.

Lemma create_run (c : call) (st : State) :
  create c st =
    (c, {| started := started st; drawn := drawn st; read := read st;
           trace := trace st ++ [Created c] |}).
Proof. reflexivity. Qed.

Lemma await_run (env : Env) (c : call) (st : State) :
  await env c st =
    (respond env (started st) c,
     {| started := S (started st); drawn := drawn st; read := read st;
        trace := trace st ++ [Awaited c (respond env (started st) c)] |}).
Proof. reflexivity. Qed.

Lemma gather_run (env : Env) (tasks : list call) (st : State) :
  gather env tasks st =
    (settle env (started st) tasks,
     {| started := started st + length tasks; drawn := drawn st; read := read st;
        trace := trace st ++ [Gathered tasks (settle env (started st) tasks)] |}).
Proof. reflexivity. Qed.

Lemma time_time_run (env : Env) (st : State) :
  time_time env st =
    (time env (read st),
     {| started := started st; drawn := drawn st; read := S (read st);
        trace := trace st |}).
Proof. reflexivity. Qed.

Ltac step :=
  eapply bind_run;
  [ first [ apply print_run | apply create_run | apply await_run
          | apply gather_run | apply time_time_run ]
  | cbv beta; cbn [started drawn read trace] ].

Lemma main_probe_ok (env : Env) (fuel : nat) (h : string) :
  respond env 0 health_check = Json h ->
  main env fuel initial =
    let st4 := {| started := 61; drawn := 30; read := 2;
                  trace := up_to_burst env h |} in
    match run_mixed_load env fuel 60 st4 with
    | (None, st5) => (None, st5)
    | (Some _, st5) =>
        (Some tt,
         {| started := started st5; drawn := drawn st5; read := read st5;
            trace := trace st5 ++ footer |})
    end.
Proof.
  intros Hprobe.
  unfold main.
  do 5 step. cbn [started drawn read trace initial]. rewrite Hprobe. cbv beta iota.
  do 2 step.
  eapply bind_run; [apply (for_each_create create_user) | cbv beta; cbn [started drawn read trace]].
  do 3 step.
  eapply bind_run; [apply (for_each_create (fun i => create_post (i mod 5 + 1) i)) | cbv beta; cbn [started drawn read trace]].
  do 4 step.
  eapply bind_run; [apply run_cpu_intensive_operations_run | cbv beta zeta; cbn [started drawn read trace]].
  do 4 step.
  cbv zeta.
  match goal with
  | |- bind _ _ ?s = _ =>
      assert (s = {| started := 61; drawn := 30; read := 2;
                     trace := up_to_burst env h |}) as ->
  end.
  { f_equal. }
  unfold bind.
  destruct (run_mixed_load env fuel 60 _) as [[[] |] st5]; [| reflexivity].
  unfold print, emit, ret, bind, footer. cbn [started drawn read trace fst snd].
  rewrite <- !app_assoc. reflexivity.
Qed.

Lemma main_probe_failed (env : Env) (fuel : nat) (e : string) :
  respond env 0 health_check = Exception e ->
  main env fuel initial =
    (Some tt,
     {| started := 1; drawn := 0; read := 0;
        trace := banner ++
                 [Created health_check; Awaited health_check (Exception e);
                  Print (HealthFailed e)] |}).
Proof.
  intros Hprobe. unfold main.
  do 5 step. cbn [started drawn read trace initial]. rewrite Hprobe. cbv beta iota.
  step. reflexivity.
Qed.

Lemma created_app (t1 t2 : list ev) : created (t1 ++ t2) = created t1 ++ created t2.
Proof. apply flat_map_app. Qed.

Lemma ran_app (t1 t2 : list ev) : ran (t1 ++ t2) = ran t1 ++ ran t2.
Proof. apply flat_map_app. Qed.

Lemma created_map_Created (tasks : list call) :
  created (map Created tasks) = tasks /\ ran (map Created tasks) = [].
Proof.
  induction tasks as [|c tasks [IHc IHr]]; [split; reflexivity |].
  split; [cbn; f_equal; exact IHc | exact IHr].
Qed.

Lemma created_fan_out (tasks : list call) (os : list outcome) :
  created (fan_out tasks os) = tasks.
Proof.
  unfold fan_out. rewrite created_app, (proj1 (created_map_Created tasks)).
  apply app_nil_r.
Qed.

Lemma ran_fan_out (tasks : list call) (os : list outcome) :
  ran (fan_out tasks os) = tasks.
Proof.
  unfold fan_out. rewrite ran_app, (proj2 (created_map_Created tasks)).
  cbn. apply app_nil_r.
Qed.

Lemma fan_out_issued_before_join (tasks : list call) (os : list outcome) :
  issued_before_any_join (fan_out tasks os) = true.
Proof.
  unfold issued_before_any_join, fan_out.
  assert (forall l cs, no_create_after_join false
                         (map Created l ++ [Gathered cs os]) = true) as H.
  { induction l as [|c l IH]; intros cs; cbn; [reflexivity | apply IH]. }
  apply H.
Qed.

(** The calls the rounds of the continuous phase create: they are the
    calls the rounds run, and they depend on the random numbers only. *)
Lemma created_mixed_rounds (env : Env) (k : nat) :
  forall (s d : nat) (count : Z),
    ran (mixed_rounds env k s d count) = created (mixed_rounds env k s d count) /\
    forall (env' : Env) (s' : nat),
      randint env' = randint env ->
      created (mixed_rounds env' k s' d count) =
        created (mixed_rounds env k s d count).
Proof.
  induction k as [|k IH]; intros s d count; [split; reflexivity |].
  cbn [mixed_rounds].
  split.
  - rewrite !ran_app, !created_app, ran_fan_out, created_fan_out.
    now rewrite (proj1 (IH _ _ _)).
  - intros env' s' Hr. cbn [mixed_rounds].
    rewrite !created_app, !created_fan_out, Hr. do 2 f_equal.
    rewrite <- Hr. apply (proj2 (IH _ _ _)). exact Hr.
Qed.

Lemma created_up_to_burst (env : Env) (h : string) :
  created (up_to_burst env h) =
    health_check :: users_tasks ++ post_tasks ++
    cpu_tasks (randint env) 0 (Py.range 20) /\
  ran (up_to_burst env h) = created (up_to_burst env h).
Proof.
  unfold up_to_burst. cbv zeta.
  rewrite !created_app, !ran_app, !created_fan_out, !ran_fan_out.
  split; reflexivity.
Qed.

(** C7, as the code has it.  The script first probes the service with one
    health check.  When the probe raises, the script prints the failure
    and returns: nothing of a later phase happens.  When the probe is
    answered, the bulk-create, dependent-create and burst phases each
    create all their calls and then join them in one [gather]; the
    continuous phase does so once per iteration, so its later iterations
    create calls after earlier joins.  Every [gather] returns one outcome
    for each of its calls, whatever the outcomes are; every call that was
    created is run exactly once, none a second time; and which calls are
    created does not depend on how any call other than the probe ends:
    no outcome cancels a sibling, a phase or the script. *)
Theorem load_script_phases (env : Env) (fuel : nat) :
  (forall e,
      respond env 0 health_check = Exception e ->
      main env fuel initial =
        (Some tt,
         {| started := 1; drawn := 0; read := 0;
            trace := banner ++
                     [Created health_check; Awaited health_check (Exception e);
                      Print (HealthFailed e)] |})) /\
  (forall h k,
      respond env 0 health_check = Json h ->
      runs_for env 2 60 k ->
      (k < fuel)%nat ->
      fst (main env fuel initial) = Some tt /\
      trace (snd (main env fuel initial)) =
        up_to_burst env h ++ mixed_rounds env k 61 30 0 ++
        [Print (MixedCompleted (Z.of_nat k) 60)] ++ footer /\
      ran (trace (snd (main env fuel initial))) =
        created (trace (snd (main env fuel initial))) /\
      forall env',
        randint env' = randint env -> time env' = time env ->
        (exists h', respond env' 0 health_check = Json h') ->
        fst (main env' fuel initial) = Some tt /\
        created (trace (snd (main env' fuel initial))) =
          created (trace (snd (main env fuel initial)))) /\
  (forall tasks s,
      length (settle env s tasks) = length tasks /\
      issued_before_any_join (fan_out tasks (settle env s tasks)) = true /\
      created (fan_out tasks (settle env s tasks)) = tasks /\
      ran (fan_out tasks (settle env s tasks)) = tasks).
Proof.
  assert (forall env0 h k,
             respond env0 0 health_check = Json h ->
             runs_for env0 2 60 k -> (k < fuel)%nat ->
             fst (main env0 fuel initial) = Some tt /\
             trace (snd (main env0 fuel initial)) =
               up_to_burst env0 h ++ mixed_rounds env0 k 61 30 0 ++
               [Print (MixedCompleted (Z.of_nat k) 60)] ++ footer) as Hrun.
  { intros env0 h k Hprobe Hclock Hfuel.
    rewrite (main_probe_ok env0 fuel h Hprobe). cbv zeta.
    destruct (run_mixed_load_run env0 60 k fuel
                {| started := 61; drawn := 30; read := 2;
                   trace := up_to_burst env0 h |} Hclock Hfuel)
      as (Hr & Ht).
    destruct (run_mixed_load env0 fuel 60 _) as [r st5]. cbn [fst snd] in *.
    subst r. cbn [fst snd trace]. rewrite Ht. cbn [started drawn trace].
    split; [reflexivity |]. now rewrite <- !app_assoc. }
  split; [| split].
  - intros e. apply main_probe_failed.
  - intros h k Hprobe Hclock Hfuel.
    destruct (Hrun env h k Hprobe Hclock Hfuel) as [Hr Ht].
    split; [exact Hr |]. split; [exact Ht |]. split.
    + rewrite Ht, !ran_app, !created_app.
      rewrite (proj2 (created_up_to_burst env h)).
      rewrite (proj1 (created_mixed_rounds env k 61 30 0)). reflexivity.
    + intros env' Hrand Htime [h' Hprobe'].
      assert (runs_for env' 2 60 k) as Hclock'.
      { unfold runs_for, elapsed. rewrite Htime. exact Hclock. }
      destruct (Hrun env' h' k Hprobe' Hclock' Hfuel) as [Hr' Ht'].
      split; [exact Hr' |].
      rewrite Ht, Ht', !created_app.
      rewrite (proj1 (created_up_to_burst env h)),
              (proj1 (created_up_to_burst env' h')), Hrand.
      rewrite (proj2 (created_mixed_rounds env k 61 30 0) env' 61%nat Hrand).
      reflexivity.
  - intros tasks s.
    split; [apply settle_length |].
    split; [apply fan_out_issued_before_join |].
    split; [apply created_fan_out | apply ran_fan_out].
Qed.
End LoadScript.

(** ** More of the routes *)
Section MoreRoutes.
Import models orm Spec.
Local Open Scope orm_scope.

Variable EmailStr : string -> option string.

Lemma read_user_run (X : Z) (srv : Server) :
  database_up srv = true ->
  main.get_db (main.read_user X) srv =
    (match head (List.filter (has_id X) (users (database srv))) with
     | Some u => Return u
     | None => Raise (HTTPException 404 "User not found")
     end,
     {| database := database srv;
        database_up := true;
        log := log srv ++
               [Acquire (next_sid srv); Execute (Select users_table);
                Rollback; Release (next_sid srv)];
        next_sid := S (next_sid srv) |}).
Proof.
  intros Hup. unfold main.get_db, main.read_user, crud.get_user, bind, SessionLocal.
  rewrite first_up; [| simpl; assumption | reflexivity].
  cbn. fold (has_id X).
  destruct (head _) as [u |]; unfold ret, raise, close, rollback, record; cbn;
    rewrite rolled_back_same, <- !app_assoc, Hup; reflexivity.
Qed.

(** What the route [delete_user] does for a stored user: it looks the user
    up, then [crud.delete_user] looks it up again and deletes it. *)
Lemma delete_route_run (X : Z) (srv : Server) :
  database_up srv = true ->
  main.get_db (main.delete_user X) srv =
    let d := database srv in
    let h := next_sid srv in
    if existsb (has_id X) (users d) then
      (Return "User deleted successfully",
       {| database := without_user X d;
          database_up := true;
          log := log srv ++
                 [Acquire h; Execute (Select users_table);
                  Execute (Select users_table);
                  Execute (Select posts_table)] ++
                 (if existsb (owned_by X) (posts d)
                  then [Execute (Delete posts_table)] else []) ++
                 [Execute (Delete users_table); Commit (without_user X d);
                  Release h];
          next_sid := S h |})
    else
      (Raise (HTTPException 404 "User not found"),
       {| database := d;
          database_up := true;
          log := log srv ++
                 [Acquire h; Execute (Select users_table); Rollback; Release h];
          next_sid := S h |}).
Proof.
  intros Hup.
  unfold main.get_db, main.delete_user, crud.get_user, bind, SessionLocal.
  rewrite first_up; [| simpl; assumption | reflexivity].
  cbn. fold (has_id X).
  destruct (head _) as [u |] eqn:Hhead.
  - assert (existsb (has_id X) (users (database srv)) = true) as ->.
    { destruct (existsb _ _) eqn:E; [reflexivity |].
      apply head_filter_None in E. congruence. }
    unfold crud.delete_user, bind.
    rewrite first_up; [| simpl; rewrite Hup; reflexivity | reflexivity].
    cbn. fold (has_id X). rewrite Hhead.
    apply head_filter_Some in Hhead as [Hid _].
    unfold has_id in Hid. apply Z.eqb_eq in Hid. subst X.
    unfold delete, commit, flush, bind, ret, close, record, set_transaction.
    cbn. unfold bind, delete_row, bind. unfold execute at 1. cbn. rewrite Hup. cbn.
    unfold without_user, has_id, owned_by.
    destruct (List.filter _ (posts (database srv))) as [| p ps] eqn:Hposts.
    + apply filter_negb_none in Hposts as Hkeep. rewrite Hkeep.
      apply filter_nil_existsb in Hposts. rewrite Hposts.
      unfold ret, execute, write, set_transaction, record. cbn. rewrite ?Hup. cbn.
      rewrite <- !app_assoc. reflexivity.
    + assert (existsb (fun p => Post.owner_id p =? User.id u)
                      (posts (database srv)) = true) as ->.
      { destruct (existsb _ _) eqn:E; [reflexivity |].
        apply filter_nil_existsb in E. congruence. }
      unfold ret, execute, write, set_transaction, record. cbn. rewrite ?Hup. cbn.
      rewrite <- !app_assoc. reflexivity.
  - apply head_filter_None in Hhead. rewrite Hhead.
    unfold raise, close, rollback, record. cbn.
    rewrite rolled_back_same, <- !app_assoc. now rewrite Hup.
Qed.

(** What the route [create_post_for_user] does, when the database
    answers. *)
Lemma create_post_run (U : Z) (post : schemas.PostCreate) (srv : Server) :
  database_up srv = true ->
  main.get_db (main.create_post_for_user U post) srv =
    let d := database srv in
    let h := next_sid srv in
    if existsb (has_id U) (users d) then
      if int4 U then
        let row := new_post_row post U d in
        (Return (default row (find (fun p => Post.id p =? posts_id_seq d) (posts d))),
         {| database := with_post row d;
            database_up := true;
            log := log srv ++
                   [Acquire h; Execute (Select users_table);
                    Execute (Insert posts_table); Commit (with_post row d);
                    Execute (Select posts_table); Rollback; Release h];
            next_sid := S h |})
      else
        (Raise DataError,
         {| database := d;
            database_up := true;
            log := log srv ++
                   [Acquire h; Execute (Select users_table);
                    Execute (Insert posts_table); Rollback; Release h];
            next_sid := S h |})
    else
      (Raise (HTTPException 404 "User not found"),
       {| database := d;
          database_up := true;
          log := log srv ++
                 [Acquire h; Execute (Select users_table); Rollback; Release h];
          next_sid := S h |}).
Proof.
  intros Hup. cbv zeta.
  destruct (existsb (has_id U) (users (database srv))) eqn:Howner;
    [| now apply create_post_for_user_missing].
  unfold main.get_db, main.create_post_for_user, crud.get_user, bind, SessionLocal.
  rewrite first_up; [| simpl; assumption | reflexivity].
  cbn. fold (has_id U).
  destruct (head _) as [u |] eqn:Hhead;
    [| apply head_filter_None in Hhead; congruence].
  unfold crud.create_post, add, commit, flush, bind, ret, close, rollback,
    record, set_transaction.
  cbn. unfold bind, execute. cbn. rewrite Hup. cbn.
  destruct (int4 U); cbn.
  - fold (has_id U). rewrite Howner. cbn.
    fold (new_post_row post U (database srv)).
    rewrite find_app_last by (cbn; apply Z.eqb_refl).
    unfold ret, record, with_post. cbn.
    rewrite rolled_back_same, <- !app_assoc. reflexivity.
  - unfold raise. cbn. rewrite rolled_back_same, <- !app_assoc. reflexivity.
Qed.

(** The writing routes start with a query, so they do nothing when the
    database cannot be reached. *)
Lemma delete_route_down (X : Z) (srv : Server) :
  database_up srv = false ->
  main.get_db (main.delete_user X) srv =
    (Raise OperationalError,
     {| database := database srv;
        database_up := false;
        log := log srv ++ [Acquire (next_sid srv); Release (next_sid srv)];
        next_sid := S (next_sid srv) |}).
Proof.
  intros Hdown.
  unfold main.get_db, main.delete_user, crud.get_user, first, all,
    bind, execute, SessionLocal.
  cbn. rewrite Hdown. cbn. unfold record. cbn.
  rewrite <- !app_assoc, ?Hdown. reflexivity.
Qed.

Lemma create_post_down (U : Z) (post : schemas.PostCreate) (srv : Server) :
  database_up srv = false ->
  main.get_db (main.create_post_for_user U post) srv =
    (Raise OperationalError,
     {| database := database srv;
        database_up := false;
        log := log srv ++ [Acquire (next_sid srv); Release (next_sid srv)];
        next_sid := S (next_sid srv) |}).
Proof.
  intros Hdown.
  unfold main.get_db, main.create_post_for_user, crud.get_user, first, all,
    bind, execute, SessionLocal.
  cbn. rewrite Hdown. cbn. unfold record. cbn.
  rewrite <- !app_assoc, ?Hdown. reflexivity.
Qed.

Lemma get_db_bind_ret {A} (m : M A) (srv : Server) :
  main.get_db (bind m (fun x => ret x)) srv = main.get_db m srv.
Proof.
  unfold main.get_db, bind, ret.
  destruct (m (SessionLocal srv)) as [[a | e] [s1 srv1]]; reflexivity.
Qed.

(** A listing and a lookup with the database out of reach. *)
Lemma listing_down {R} (q : Query R) (srv : Server) :
  database_up srv = false ->
  main.get_db (all q) srv =
    (Raise OperationalError,
     {| database := database srv;
        database_up := false;
        log := log srv ++ [Acquire (next_sid srv); Release (next_sid srv)];
        next_sid := S (next_sid srv) |}).
Proof.
  intros Hdown. unfold main.get_db, all, bind, execute, SessionLocal.
  cbn. rewrite Hdown. cbn. unfold record. cbn.
  rewrite <- !app_assoc, ?Hdown. reflexivity.
Qed.

Lemma read_user_down (X : Z) (srv : Server) :
  database_up srv = false ->
  main.get_db (main.read_user X) srv =
    (Raise OperationalError,
     {| database := database srv;
        database_up := false;
        log := log srv ++ [Acquire (next_sid srv); Release (next_sid srv)];
        next_sid := S (next_sid srv) |}).
Proof.
  intros Hdown.
  unfold main.get_db, main.read_user, crud.get_user, first, all, bind, execute,
    SessionLocal.
  cbn. rewrite Hdown. cbn. unfold record. cbn.
  rewrite <- !app_assoc, ?Hdown. reflexivity.
Qed.

Lemma health_check_run (srv : Server) :
  main.get_db main.health_check srv =
    (if database_up srv then
       Return {| main.status := "healthy"; main.database_ := "connected";
                 main.pyroscope := "configured" |}
     else
       Raise (HTTPException 503
                ("Database connection failed: " ++
                 main.class_name OperationalError)%string),
     {| database := database srv;
        database_up := database_up srv;
        log := log srv ++
               [Acquire (next_sid srv)] ++
               (if database_up srv then [Execute SelectOne; Rollback] else []) ++
               [Release (next_sid srv)];
        next_sid := S (next_sid srv) |}).
Proof.
  unfold main.get_db, main.health_check, try_except, bind, execute, SessionLocal.
  cbn. destruct (database_up srv) eqn:Hup; cbn; unfold rollback, record; cbn;
    rewrite ?rolled_back_same, <- !app_assoc; reflexivity.
Qed.

(** Every request leaves the committed rows as they were, or with one user
    more (a create-user request), or with one post more (a create-post
    request), or without a user and the posts it owns (a delete request). *)
Lemma app_database_cases (req : main.request) (srv : Server) :
  let d := database srv in
  let d' := database (snd (main.app EmailStr req srv)) in
  d' = d \/
  (exists body user,
      req = main.POST_users body /\
      schemas.UserCreate_validate EmailStr body = Some user /\
      existsb (has_email (schemas.email user)) (users d) = false /\
      d' = with_user (new_user_row user d) d) \/
  (exists post U,
      req = main.POST_user_posts U post /\
      existsb (has_id U) (users d) = true /\
      d' = with_post (new_post_row post U d) d) \/
  (exists X, req = main.DELETE_user X /\ d' = without_user X d).
Proof.
  cbv zeta.
  destruct (database_up srv) eqn:Hup.
  - destruct req as [| | body | skip limit | X | X | U post | skip limit | n | n];
      cbn [main.app snd]; try (left; reflexivity); rewrite ?get_db_reply_with;
      cbn [snd].
    + left. now rewrite health_check_run.
    + destruct (schemas.UserCreate_validate EmailStr body) as [user |] eqn:Hbody.
      * rewrite get_db_reply_with, create_user_run by assumption. cbv zeta.
        destruct (existsb _ _) eqn:E; cbn; [left; reflexivity |].
        right; left. exists body, user. repeat split; assumption.
      * left. reflexivity.
    + left. unfold main.read_users, crud.get_users.
      rewrite get_db_bind_ret, listing_run by assumption. reflexivity.
    + left. rewrite read_user_run by assumption. reflexivity.
    + rewrite delete_route_run by assumption. cbv zeta.
      destruct (existsb _ _); cbn; [| left; reflexivity].
      right; right; right. exists X. split; reflexivity.
    + rewrite create_post_run by assumption. cbv zeta.
      destruct (existsb _ _) eqn:E; cbn; [| left; reflexivity].
      destruct (int4 U); cbn; [| left; reflexivity].
      right; right; left. exists post, U. repeat split. exact E.
    + left. unfold main.read_posts, crud.get_posts.
      rewrite get_db_bind_ret, listing_run by assumption. reflexivity.
  - left.
    destruct req as [| | body | skip limit | X | X | U post | skip limit | n | n];
      cbn [main.app snd]; try reflexivity; rewrite ?get_db_reply_with; cbn [snd].
    + now rewrite health_check_run.
    + destruct (schemas.UserCreate_validate EmailStr body) as [user |].
      * rewrite get_db_reply_with, create_user_down by assumption. reflexivity.
      * reflexivity.
    + unfold main.read_users, crud.get_users.
      rewrite get_db_bind_ret, listing_down by assumption. reflexivity.
    + rewrite read_user_down by assumption. reflexivity.
    + rewrite delete_route_down by assumption. reflexivity.
    + rewrite create_post_down by assumption. reflexivity.
    + unfold main.read_posts, crud.get_posts.
      rewrite get_db_bind_ret, listing_down by assumption. reflexivity.
Qed.

Lemma NoDup_snoc {A} (l : list A) (x : A) :
  List.NoDup l -> ~ In x l -> List.NoDup (l ++ [x]).
Proof.
  induction 1 as [| a l Ha Hl IH]; intros Hx; cbn.
  - apply List.NoDup_cons; [intros [] | apply List.NoDup_nil].
  - apply List.NoDup_cons.
    + rewrite in_app_iff. intros [H | [H | []]]; [contradiction |].
      apply Hx. now left.
    + apply IH. intros H. apply Hx. now right.
Qed.

Lemma NoDup_map_filter {A B} (f : A -> B) (p : A -> bool) (l : list A) :
  List.NoDup (map f l) -> List.NoDup (map f (List.filter p l)).
Proof.
  induction l as [| a l IH]; cbn; [trivial |].
  intros H. inversion H as [| ? ? Ha Hl]; subst.
  destruct (p a); cbn; [| now apply IH].
  apply List.NoDup_cons; [| now apply IH].
  rewrite in_map_iff in *. intros (b & Hb & Hin). apply Ha.
  exists b. split; [exact Hb |]. apply filter_In in Hin. tauto.
Qed.

(** X1.  No request makes two users share an email. *)
Theorem emails_stay_unique (req : main.request) (srv : Server) :
  emails_unique (database srv) ->
  emails_unique (database (snd (main.app EmailStr req srv))).
Proof.
  unfold emails_unique. intros Huniq.
  destruct (app_database_cases req srv)
    as [-> | [(body & user & _ & _ & Hfree & ->) |
          [(post & U & _ & _ & ->) | (X & _ & ->)]]];
    cbn [users with_user with_post without_user]; [exact Huniq | | exact Huniq |].
  - rewrite map_app. cbn. apply NoDup_snoc; [exact Huniq |].
    rewrite in_map_iff. intros (u & Hu & Hin).
    assert (existsb (has_email (schemas.email user)) (users (database srv)) = true)
      as E by (apply existsb_has_email; eauto).
    congruence.
  - now apply NoDup_map_filter.
Qed.

(** X2.  No request makes two rows of a table share a key, and the serials
    stay above every key. *)
Theorem keys_stay_fresh (req : main.request) (srv : Server) :
  keys_fresh (database srv) ->
  keys_fresh (database (snd (main.app EmailStr req srv))).
Proof.
  unfold keys_fresh. intros (Hu & Hub & Hp & Hpb).
  destruct (app_database_cases req srv)
    as [-> | [(body & user & _ & _ & _ & ->) |
          [(post & U & _ & _ & ->) | (X & _ & ->)]]];
    cbn [users posts users_id_seq posts_id_seq with_user with_post without_user].
  - tauto.
  - split; [| split; [| tauto]].
    + rewrite map_app. cbn. apply NoDup_snoc; [exact Hu |].
      rewrite in_map_iff. intros (u & Hid & Hin). apply Hub in Hin. lia.
    + intros u Hin. apply in_app_or in Hin as [Hin | [<- | []]].
      * apply Hub in Hin. lia.
      * cbn. lia.
  - split; [exact Hu |]. split; [exact Hub |]. split.
    + rewrite map_app. cbn. apply NoDup_snoc; [exact Hp |].
      rewrite in_map_iff. intros (p & Hid & Hin). apply Hpb in Hin. lia.
    + intros p Hin. apply in_app_or in Hin as [Hin | [<- | []]].
      * apply Hpb in Hin. lia.
      * cbn. lia.
  - split; [now apply NoDup_map_filter |].
    split; [intros u Hin; apply filter_In in Hin; now apply Hub |].
    split; [now apply NoDup_map_filter |].
    intros p Hin. apply filter_In in Hin. now apply Hpb.
Qed.

(** X3.  No request leaves a post without its owner. *)
Theorem owners_stay_stored (req : main.request) (srv : Server) :
  owners_stored (database srv) ->
  owners_stored (database (snd (main.app EmailStr req srv))).
Proof.
  unfold owners_stored. intros Hown.
  destruct (app_database_cases req srv)
    as [-> | [(body & user & _ & _ & _ & ->) |
          [(post & U & _ & Howner & ->) | (X & _ & ->)]]];
    cbn [users posts with_user with_post without_user].
  - exact Hown.
  - intros p Hp. destruct (Hown p Hp) as (u & Hu & Hid).
    exists u. split; [apply in_or_app; now left | exact Hid].
  - intros p Hp. apply in_app_or in Hp as [Hp | [<- | []]]; [now apply Hown |].
    apply existsb_has_id in Howner as (u & Hu & Hid). exists u. now split.
  - intros p Hp. apply filter_In in Hp as [Hp Hne].
    destruct (Hown p Hp) as (u & Hu & Hid).
    exists u. split; [| exact Hid].
    apply filter_In. split; [exact Hu |].
    unfold has_id, owned_by in *. now rewrite Hid.
Qed.

(** *** Reading *)

Lemma get_requests_write_nothing_aux (req : main.request) (srv : Server) :
  is_get req = true ->
  database (snd (main.app EmailStr req srv)) = database srv /\
  exists evs,
    log (snd (main.app EmailStr req srv)) = log srv ++ evs /\
    Forall (fun e => is_write_event e = false) evs.
Proof.
  intros Hget.
  destruct req as [| | body | skip limit | X | X | U post | skip limit | n | n];
    try discriminate; cbn [main.app snd];
    try (split; [reflexivity | exists []; split; [now rewrite app_nil_r | constructor]]);
    rewrite get_db_reply_with; cbn [snd].
  - rewrite health_check_run. cbn [snd database log].
    split; [reflexivity |]. eexists. split; [reflexivity |].
    destruct (database_up srv); repeat constructor.
  - unfold main.read_users, crud.get_users. rewrite get_db_bind_ret.
    destruct (database_up srv) eqn:Hup;
      [rewrite listing_run by assumption | rewrite listing_down by assumption];
      cbn [snd database log]; (split; [reflexivity |]);
      eexists; (split; [reflexivity |]); repeat constructor.
  - destruct (database_up srv) eqn:Hup;
      [rewrite read_user_run by assumption | rewrite read_user_down by assumption];
      cbn [snd database log]; (split; [reflexivity |]);
      eexists; (split; [reflexivity |]); repeat constructor.
  - unfold main.read_posts, crud.get_posts. rewrite get_db_bind_ret.
    destruct (database_up srv) eqn:Hup;
      [rewrite listing_run by assumption | rewrite listing_down by assumption];
      cbn [snd database log]; (split; [reflexivity |]);
      eexists; (split; [reflexivity |]); repeat constructor.
Qed.

(** What a GET is answered depends on the committed rows and on whether
    the database can be reached, and on nothing else of the server; and a
    GET leaves both as they are. *)
Lemma get_answer_by_rows (req : main.request) (srv1 srv2 : Server) :
  is_get req = true ->
  database srv1 = database srv2 ->
  database_up srv1 = database_up srv2 ->
  fst (main.app EmailStr req srv1) = fst (main.app EmailStr req srv2).
Proof.
  intros Hget Hd Hu.
  destruct req as [| | body | skip limit | X | X | U post | skip limit | n | n];
    try discriminate; unfold main.app; try reflexivity;
    rewrite !get_db_reply_with; cbn [fst]; f_equal.
  - rewrite !health_check_run. cbn [fst]. now rewrite Hu.
  - unfold main.read_users. rewrite !get_db_bind_ret. unfold crud.get_users.
    destruct (database_up srv2) eqn:E.
    + rewrite !listing_run by congruence. cbn [fst]. now rewrite Hd.
    + rewrite !listing_down by congruence. reflexivity.
  - destruct (database_up srv2) eqn:E.
    + rewrite !read_user_run by congruence. cbn [fst]. now rewrite Hd.
    + rewrite !read_user_down by congruence. reflexivity.
  - unfold main.read_posts. rewrite !get_db_bind_ret. unfold crud.get_posts.
    destruct (database_up srv2) eqn:E.
    + rewrite !listing_run by congruence. cbn [fst]. now rewrite Hd.
    + rewrite !listing_down by congruence. reflexivity.
Qed.

Lemma get_keeps_reach (req : main.request) (srv : Server) :
  is_get req = true ->
  database_up (snd (main.app EmailStr req srv)) = database_up srv.
Proof.
  intros Hget.
  destruct req as [| | body | skip limit | X | X | U post | skip limit | n | n];
    try discriminate; unfold main.app; try reflexivity;
    rewrite !get_db_reply_with; cbn [snd].
  - now rewrite health_check_run.
  - unfold main.read_users. rewrite get_db_bind_ret. unfold crud.get_users.
    destruct (database_up srv) eqn:E;
      [rewrite listing_run | rewrite listing_down]; auto.
  - destruct (database_up srv) eqn:E;
      [rewrite read_user_run | rewrite read_user_down]; auto.
  - unfold main.read_posts. rewrite get_db_bind_ret. unfold crud.get_posts.
    destruct (database_up srv) eqn:E;
      [rewrite listing_run | rewrite listing_down]; auto.
Qed.

(** X4.  A GET request is safe: whatever the state of the server, it leaves
    the committed rows as they are, sends no INSERT, UPDATE or DELETE and
    makes no COMMIT (the transaction its SELECTs open is rolled back when
    the session is closed); asked again right away, it is answered the
    same. *)
Theorem get_requests_write_nothing (req : main.request) (srv : Server) :
  is_get req = true ->
  database (snd (main.app EmailStr req srv)) = database srv /\
  (exists evs,
      log (snd (main.app EmailStr req srv)) = log srv ++ evs /\
      Forall (fun e => is_write_event e = false) evs) /\
  fst (main.app EmailStr req (snd (main.app EmailStr req srv))) =
    fst (main.app EmailStr req srv).
Proof.
  intros Hget.
  destruct (get_requests_write_nothing_aux req srv Hget) as [Hd Hlog].
  split; [exact Hd |]. split; [exact Hlog |].
  apply get_answer_by_rows; [exact Hget | exact Hd |].
  now apply get_keeps_reach.
Qed.

Lemma head_filter_unique (X : Z) (us : list User.t) (u : User.t) :
  List.NoDup (map User.id us) -> In u us -> User.id u = X ->
  head (List.filter (has_id X) us) = Some u.
Proof.
  induction us as [| v us IH]; cbn; [intros _ [] |].
  intros Hnd Hin Hid. inversion Hnd as [| ? ? Hv Hus]; subst.
  unfold has_id at 1. destruct (Z.eqb_spec (User.id v) (User.id u)) as [E | E].
  - cbn. destruct Hin as [-> | Hin]; [reflexivity |].
    exfalso. apply Hv. rewrite E. now apply in_map.
  - destruct Hin as [-> | Hin]; [congruence |]. now apply IH.
Qed.

(** X6.  [GET /users/{id}] answers with a stored user that has the id, and
    with 404 exactly when no stored user has it; when the ids are unique
    the answer is the user with that id. *)
Theorem read_user_found_or_404 (X : Z) (srv : Server) :
  database_up srv = true ->
  let r := fst (main.app EmailStr (main.GET_user X) srv) in
  (r = Raise (HTTPException 404 "User not found") <->
   forall u, In u (users (database srv)) -> User.id u <> X) /\
  (forall u, r = Return (main.UserReply u) ->
             In u (users (database srv)) /\ User.id u = X) /\
  ((exists u, In u (users (database srv)) /\ User.id u = X) ->
   exists u, r = Return (main.UserReply u)) /\
  (List.NoDup (map User.id (users (database srv))) ->
   forall u, In u (users (database srv)) -> User.id u = X ->
             r = Return (main.UserReply u)).
Proof.
  intros Hup r. subst r. unfold main.app.
  rewrite get_db_reply_with, read_user_run by assumption. cbn [fst].
  destruct (head _) as [v |] eqn:Hhead; cbn.
  - apply head_filter_Some in Hhead as Hv. destruct Hv as [Hid Hin].
    unfold has_id in Hid. apply Z.eqb_eq in Hid.
    split; [split; [discriminate | intros H; now apply H in Hin] |].
    split; [intros u [= <-]; now split |].
    split; [intros _; now exists v |].
    intros Hnd u Hu HX.
    rewrite (head_filter_unique X _ u Hnd Hu HX) in Hhead. congruence.
  - assert (forall u, In u (users (database srv)) -> User.id u <> X) as Hnone.
    { intros u Hu HX. apply head_filter_None in Hhead.
      assert (existsb (has_id X) (users (database srv)) = true)
        by (apply existsb_has_id; eauto).
      congruence. }
    split; [split; [intros _; exact Hnone | reflexivity] |].
    split; [discriminate |].
    split; [intros (u & Hu & HX); now apply Hnone in Hu |].
    intros _ u Hu HX. now apply Hnone in Hu.
Qed.

(** *** Deleting, then asking again *)

Lemma existsb_filter_negb {A} (p : A -> bool) (l : list A) :
  existsb p (List.filter (fun x => negb (p x)) l) = false.
Proof.
  induction l as [| x l IH]; cbn; [reflexivity |].
  destruct (p x) eqn:E; cbn; [exact IH | now rewrite E].
Qed.

Lemma filter_other_id (X Y : Z) (us : list User.t) :
  Y <> X ->
  List.filter (has_id Y) (List.filter (fun u => negb (has_id X u)) us) =
  List.filter (has_id Y) us.
Proof.
  intros Hne. induction us as [| u us IH]; cbn; [reflexivity |].
  destruct (has_id X u) eqn:EX; cbn.
  - destruct (has_id Y u) eqn:EY; [| exact IH].
    unfold has_id in EX, EY. lia.
  - destruct (has_id Y u); [now rewrite IH | exact IH].
Qed.

(** X7.  After [DELETE /users/{id}] succeeded, the same id is unknown: the
    GET and a second DELETE answer 404 and the second DELETE changes no
    row; the lookup of every other id answers as before. *)
Theorem delete_user_then_gone (X : Z) (srv : Server) :
  database_up srv = true ->
  (exists u, In u (users (database srv)) /\ User.id u = X) ->
  let out := main.app EmailStr (main.DELETE_user X) srv in
  fst out = Return (main.MessageReply "User deleted successfully") /\
  database (snd out) = without_user X (database srv) /\
  fst (main.app EmailStr (main.GET_user X) (snd out)) =
    Raise (HTTPException 404 "User not found") /\
  fst (main.app EmailStr (main.DELETE_user X) (snd out)) =
    Raise (HTTPException 404 "User not found") /\
  database (snd (main.app EmailStr (main.DELETE_user X) (snd out))) =
    database (snd out) /\
  forall Y, Y <> X ->
    fst (main.app EmailStr (main.GET_user Y) (snd out)) =
    fst (main.app EmailStr (main.GET_user Y) srv).
Proof.
  intros Hup Hex out. subst out. apply existsb_has_id in Hex.
  unfold main.app. rewrite !get_db_reply_with.
  rewrite (delete_route_run X srv Hup). cbv zeta. rewrite Hex.
  cbn [fst snd main.fmap_result].
  match goal with |- context [main.get_db (main.read_user X) ?s] =>
    set (srv1 := s) end.
  assert (database_up srv1 = true) as Hup1 by reflexivity.
  assert (existsb (has_id X) (users (database srv1)) = false) as Hgone
    by apply existsb_filter_negb.
  split; [reflexivity |]. split; [reflexivity |].
  split.
  { rewrite (read_user_run X srv1 Hup1). cbn [fst].
    apply head_filter_None in Hgone. now rewrite Hgone. }
  rewrite (delete_route_run X srv1 Hup1). cbv zeta. rewrite Hgone.
  split; [reflexivity |]. split; [reflexivity |].
  intros Y HY. rewrite !get_db_reply_with.
  rewrite (read_user_run Y srv1 Hup1), (read_user_run Y srv Hup). cbn [fst].
  change (users (database srv1))
    with (List.filter (fun u => negb (has_id X u)) (users (database srv))).
  now rewrite filter_other_id.
Qed.

(** *** Creating, then asking *)

Lemma find_none_below (k : Z) (us : list User.t) :
  (forall u, In u us -> User.id u < k) -> find (has_id k) us = None.
Proof.
  intros Hlt. induction us as [| u us IH]; cbn; [reflexivity |].
  unfold has_id at 1. destruct (Z.eqb_spec (User.id u) k) as [E | E].
  - specialize (Hlt u (or_introl eq_refl)). lia.
  - apply IH. intros v Hv. apply Hlt. now right.
Qed.

Lemma filter_none_below (k : Z) (us : list User.t) :
  (forall u, In u us -> User.id u < k) -> List.filter (has_id k) us = [].
Proof.
  intros Hlt. induction us as [| u us IH]; cbn; [reflexivity |].
  unfold has_id at 1. destruct (Z.eqb_spec (User.id u) k) as [E | E].
  - specialize (Hlt u (or_introl eq_refl)). lia.
  - apply IH. intros v Hv. apply Hlt. now right.
Qed.

(** X8.  [POST /users/] with an email nobody has, and strings the driver
    sends, stores a row with the next key of the serial and returns that
    very row; from then on the row is found by its id and by its email,
    and a second POST with the same email is refused with 400.  (The
    serial is ahead of the stored keys and within the column's range, as
    it is when every key came from it.) *)
Theorem create_user_round_trip (user : schemas.UserCreate) (srv : Server) :
  database_up srv = true ->
  sendable (schemas.email user) ->
  sendable (schemas.full_name user) ->
  (forall u, In u (users (database srv)) ->
             User.email u <> schemas.email user) ->
  (forall u, In u (users (database srv)) ->
             User.id u < users_id_seq (database srv)) ->
  int4 (users_id_seq (database srv)) = true ->
  let row := new_user_row user (database srv) in
  let out := main.get_db (main.create_user user) srv in
  fst out = Return row /\
  database (snd out) = with_user row (database srv) /\
  fst (main.get_db (crud.get_user (User.id row)) (snd out)) =
    Return (Some row) /\
  fst (main.get_db (crud.get_user_by_email (schemas.email user)) (snd out)) =
    Return (Some row) /\
  fst (main.get_db (main.create_user user) (snd out)) =
    Raise (HTTPException 400 "Email already registered").
Proof.
  intros Hup _ _ Hfree Hbelow _ row out. subst out.
  assert (existsb (has_email (schemas.email user)) (users (database srv)) = false)
    as Hno.
  { destruct (existsb _ _) eqn:E; [| reflexivity].
    apply existsb_has_email in E. destruct E as (u & Hu & He).
    now apply Hfree in Hu. }
  rewrite (create_user_run user srv Hup). cbv zeta. rewrite Hno.
  fold row. rewrite (find_none_below _ _ Hbelow).
  cbn [fst snd default].
  match goal with |- context [main.get_db _ ?s] => set (srv1 := s) end.
  assert (database_up srv1 = true) as Hup1 by reflexivity.
  split; [reflexivity |]. split; [reflexivity |].
  split.
  { unfold crud.get_user. rewrite lookup_run; [| exact Hup1 | reflexivity].
    cbn. fold (has_id (users_id_seq (database srv))).
    rewrite List.filter_app, (filter_none_below _ _ Hbelow). cbn.
    unfold has_id. cbn. now rewrite Z.eqb_refl. }
  split.
  { unfold crud.get_user_by_email.
    rewrite lookup_run; [| exact Hup1 | reflexivity].
    cbn. fold (has_email (schemas.email user)).
    rewrite List.filter_app.
    apply filter_nil_existsb in Hno. rewrite Hno. cbn.
    unfold has_email. cbn. now rewrite String.eqb_refl. }
  rewrite (create_user_run user srv1 Hup1). cbv zeta.
  assert (existsb (has_email (schemas.email user)) (users (database srv1)) = true)
    as Hyes.
  { apply existsb_has_email. exists row. split; [| reflexivity].
    cbn. apply in_or_app. right. now left. }
  now rewrite Hyes.
Qed.

(** *** Posts *)

Lemma get_posts_run (skip limit : Z) (srv : Server) :
  database_up srv = true -> 0 <= skip < 2 ^ 63 -> 0 <= limit < 2 ^ 63 ->
  main.get_db (crud.get_posts skip limit) srv =
    (Return (take (Z.to_nat limit) (drop (Z.to_nat skip) (posts (database srv)))),
     {| database := database srv;
        database_up := true;
        log := log srv ++
               [Acquire (next_sid srv); Execute (Select posts_table);
                Rollback; Release (next_sid srv)];
        next_sid := S (next_sid srv) |}).
Proof.
  intros Hup Hskip Hlimit. unfold crud.get_posts.
  rewrite listing_run by assumption. cbn. unfold window. cbn.
  apply row_count_spec in Hskip, Hlimit. rewrite Hskip, Hlimit.
  cbn. now rewrite List.filter_true.
Qed.

(** X9.  For [skip] and [limit] from 0 up to [2^63], [get_posts] returns
    the posts from position [skip] of the table on, at most [limit] of
    them, in the order of the table, and changes no row.  A [skip] or a
    [limit] that is negative, or [2^63] or more, is refused by the
    database: [get_posts] raises, and no row changes either. *)
Theorem get_posts_window (skip limit : Z) (srv : Server) :
  database_up srv = true ->
  (0 <= skip < 2 ^ 63 -> 0 <= limit < 2 ^ 63 ->
   exists page,
     fst (main.get_db (crud.get_posts skip limit) srv) = Return page /\
     page = take (Z.to_nat limit) (drop (Z.to_nat skip) (posts (database srv))) /\
     (length page <= Z.to_nat limit)%nat /\
     (forall i p, page !! i = Some p ->
                  posts (database srv) !! (Z.to_nat skip + i)%nat = Some p)) /\
  (~ (0 <= skip < 2 ^ 63 /\ 0 <= limit < 2 ^ 63) ->
   fst (main.get_db (crud.get_posts skip limit) srv) = Raise DataError) /\
  database (snd (main.get_db (crud.get_posts skip limit) srv)) = database srv.
Proof.
  intros Hup. split; [| split].
  - intros Hskip Hlimit.
    rewrite get_posts_run by assumption. cbn [fst snd database].
    eexists. split; [reflexivity |]. split; [reflexivity |].
    split; [rewrite length_take; lia |].
    intros i p Hi. apply lookup_take_Some in Hi as [Hi _].
    now rewrite lookup_drop in Hi.
  - intros Hout. unfold crud.get_posts.
    now rewrite (listing_refused query_Post skip limit srv Hup Hout).
  - unfold crud.get_posts. now rewrite listing_run by assumption.
Qed.



(** *** The constraints behind the checks of the routes *)

(** X11.  [crud.create_user] has no check of its own.  Called for an email
    that is taken (with strings the driver sends, and the serial within
    the column's range), it sends its INSERT,
    and the commit fails on the unique constraint of [users.email]: the
    transaction is rolled back and the rows stay, but the key the refused
    row had taken from the serial is lost; the handle is released.  The
    next user the route stores gets the key after the lost one. *)
Theorem create_user_unique_email_enforced
    (user : schemas.UserCreate) (srv : Server) :
  database_up srv = true ->
  sendable (schemas.email user) ->
  sendable (schemas.full_name user) ->
  int4 (users_id_seq (database srv)) = true ->
  (exists u, In u (users (database srv)) /\
             User.email u = schemas.email user) ->
  let out := main.get_db (crud.create_user user) srv in
  out =
    (Raise IntegrityError,
     {| database := users_key_taken (database srv);
        database_up := true;
        log := log srv ++
               [Acquire (next_sid srv); Execute (Insert users_table);
                Rollback; Release (next_sid srv)];
        next_sid := S (next_sid srv) |}) /\
  forall other,
    sendable (schemas.email other) ->
    sendable (schemas.full_name other) ->
    (forall u, In u (users (database srv)) ->
               User.email u <> schemas.email other) ->
    (forall u, In u (users (database srv)) ->
               User.id u < users_id_seq (database srv)) ->
    int4 (users_id_seq (database srv) + 1) = true ->
    exists row,
      fst (main.get_db (main.create_user other) (snd out)) = Return row /\
      User.id row = users_id_seq (database srv) + 1 /\
      User.email row = schemas.email other.
Proof.
  intros Hup _ _ _ Hex out. apply existsb_has_email in Hex.
  assert (out =
    (Raise IntegrityError,
     {| database := users_key_taken (database srv);
        database_up := true;
        log := log srv ++
               [Acquire (next_sid srv); Execute (Insert users_table);
                Rollback; Release (next_sid srv)];
        next_sid := S (next_sid srv) |})) as Hout.
  { subst out.
    unfold main.get_db, crud.create_user, add, commit, flush, bind, ret, close,
      rollback, record, set_transaction, SessionLocal.
    cbn. unfold bind, execute. cbn. rewrite Hup. cbn.
    fold (has_email (schemas.email user)). rewrite Hex. cbn.
    rewrite <- !app_assoc. reflexivity. }
  split; [exact Hout |].
  intros other _ _ Hfree Hbelow _. rewrite Hout. cbn [snd].
  rewrite create_user_run by reflexivity. cbv zeta.
  cbn [database users users_key_taken users_id_seq].
  assert (existsb (has_email (schemas.email other)) (users (database srv))
          = false) as ->.
  { apply not_true_is_false. intros E.
    apply existsb_has_email in E. destruct E as (u & Hu & He).
    now apply Hfree in Hu. }
  rewrite find_none_below
    by (intros u Hu; specialize (Hbelow u Hu); lia).
  cbn [fst default]. eexists. split; [reflexivity |]. split; reflexivity.
Qed.


(** *** The listing routes *)

(** X13.  The two listing routes take [skip] and [limit] from the query
    string, 0 for a [skip] and 100 for a [limit] that is left out.  When
    both are from 0 up to [2^63] they answer with the rows from position
    [skip] on, at most [limit] of them: without parameters, the first
    hundred rows.  When one of them is negative, or [2^63] or more, the
    database refuses it and the request fails with a 500. *)
Theorem listing_routes_window (skip limit : option Z) (srv : Server) :
  database_up srv = true ->
  (0 <= default 0 skip < 2 ^ 63 -> 0 <= default 100 limit < 2 ^ 63 ->
   fst (main.app EmailStr (main.GET_users skip limit) srv) =
     Return (main.UsersReply
               (take (Z.to_nat (default 100 limit))
                     (drop (Z.to_nat (default 0 skip)) (users (database srv))))) /\
   fst (main.app EmailStr (main.GET_posts skip limit) srv) =
     Return (main.PostsReply
               (take (Z.to_nat (default 100 limit))
                     (drop (Z.to_nat (default 0 skip)) (posts (database srv)))))) /\
  (~ (0 <= default 0 skip < 2 ^ 63 /\ 0 <= default 100 limit < 2 ^ 63) ->
   status_code_of (fst (main.app EmailStr (main.GET_users skip limit) srv)) = 500 /\
   status_code_of (fst (main.app EmailStr (main.GET_posts skip limit) srv)) = 500) /\
  fst (main.app EmailStr (main.GET_users None None) srv) =
    Return (main.UsersReply (take 100 (users (database srv)))) /\
  fst (main.app EmailStr (main.GET_posts None None) srv) =
    Return (main.PostsReply (take 100 (posts (database srv)))).
Proof.
  intros Hup.
  unfold main.app, main.read_users, main.read_posts.
  rewrite !get_db_reply_with, !get_db_bind_ret.
  split; [| split; [| split]].
  - intros Hskip Hlimit.
    rewrite get_users_run, get_posts_run by assumption. split; reflexivity.
  - intros Hout. unfold crud.get_users, crud.get_posts.
    rewrite (listing_refused query_User _ _ srv Hup Hout),
            (listing_refused query_Post _ _ srv Hup Hout).
    split; reflexivity.
  - rewrite get_users_run by (assumption || (cbn; lia)). reflexivity.
  - rewrite get_posts_run by (assumption || (cbn; lia)). reflexivity.
Qed.

(** *** The database out of reach *)

Lemma database_down_aux (req : main.request) (srv : Server) :
  database_up srv = false ->
  main.depends_on_db req = true ->
  database (snd (main.app EmailStr req srv)) = database srv /\
  log (snd (main.app EmailStr req srv)) =
    log srv ++ [Acquire (next_sid srv); Release (next_sid srv)].
Proof.
  intros Hdown Hdb.
  destruct req; try discriminate; unfold main.app.
  - unfold main.get_db, main.reply_with, main.health_check, try_except, bind,
      execute, SessionLocal.
    cbn. rewrite Hdown. cbn. rewrite <- !app_assoc. repeat split.
  - destruct (schemas.UserCreate_validate EmailStr body) as [user |].
    + rewrite get_db_reply_with, create_user_down by assumption.
      repeat split.
    + unfold main.get_db, raise, SessionLocal. cbn.
      rewrite <- !app_assoc. repeat split.
  - unfold main.get_db, main.reply_with, main.read_users, crud.get_users, all,
      bind, execute, SessionLocal.
    cbn. rewrite Hdown. cbn. rewrite <- !app_assoc. repeat split.
  - unfold main.get_db, main.reply_with, main.read_user, crud.get_user, first,
      all, bind, execute, SessionLocal.
    cbn. rewrite Hdown. cbn. rewrite <- !app_assoc. repeat split.
  - rewrite get_db_reply_with, delete_route_down by assumption. repeat split.
  - rewrite get_db_reply_with, create_post_down by assumption. repeat split.
  - unfold main.get_db, main.reply_with, main.read_posts, crud.get_posts, all,
      bind, execute, SessionLocal.
    cbn. rewrite Hdown. cbn. rewrite <- !app_assoc. repeat split.
Qed.

(** X14.  When the database cannot be reached, a request to a route that
    takes a session changes no row and sends no statement; the session is
    acquired and released all the same.  The health route answers 503, a
    create-user request with a body that does not validate 422, and every
    other such route fails with the driver's error, a 500. *)
Theorem database_down_answers (req : main.request) (srv : Server) :
  database_up srv = false ->
  main.depends_on_db req = true ->
  let out := main.app EmailStr req srv in
  database (snd out) = database srv /\
  log (snd out) =
    log srv ++ [Acquire (next_sid srv); Release (next_sid srv)] /\
  status_code_of (fst out) =
    match req with
    | main.GET_health => 503
    | main.POST_users body =>
        match schemas.UserCreate_validate EmailStr body with
        | Some _ => 500
        | None => 422
        end
    | _ => 500
    end.
Proof.
  intros Hdown Hdb out. subst out.
  destruct req; try discriminate; unfold main.app.
  - unfold main.get_db, main.reply_with, main.health_check, try_except, bind,
      execute, SessionLocal.
    cbn. rewrite Hdown. cbn. rewrite <- !app_assoc. repeat split.
  - destruct (schemas.UserCreate_validate EmailStr body) as [user |].
    + rewrite get_db_reply_with, create_user_down by assumption.
      repeat split.
    + unfold main.get_db, raise, SessionLocal. cbn.
      rewrite <- !app_assoc. repeat split.
  - unfold main.get_db, main.reply_with, main.read_users, crud.get_users, all,
      bind, execute, SessionLocal.
    cbn. rewrite Hdown. cbn. rewrite <- !app_assoc. repeat split.
  - unfold main.get_db, main.reply_with, main.read_user, crud.get_user, first,
      all, bind, execute, SessionLocal.
    cbn. rewrite Hdown. cbn. rewrite <- !app_assoc. repeat split.
  - rewrite get_db_reply_with, delete_route_down by assumption. repeat split.
  - rewrite get_db_reply_with, create_post_down by assumption. repeat split.
  - unfold main.get_db, main.reply_with, main.read_posts, crud.get_posts, all,
      bind, execute, SessionLocal.
    cbn. rewrite Hdown. cbn. rewrite <- !app_assoc. repeat split.
Qed.

(** *** What a request can change *)

(** X15.  A request other than a DELETE removes nothing: the users and the
    posts stored before are still there, in their places, with at most one
    row added after them, and a GET adds none. *)
Theorem rows_only_grow_without_delete (req : main.request) (srv : Server) :
  (forall X, req <> main.DELETE_user X) ->
  let d := database srv in
  let d' := database (snd (main.app EmailStr req srv)) in
  exists us ps,
    users d' = users d ++ us /\
    posts d' = posts d ++ ps /\
    (length us + length ps <= 1)%nat /\
    (is_get req = true -> us = [] /\ ps = []).
Proof.
  intros Hreq. cbv zeta.
  destruct (app_database_cases req srv)
    as [-> | [(body & user & -> & _ & _ & ->) |
          [(post & U & -> & _ & ->) | (X & -> & _)]]].
  - exists [], []. rewrite !app_nil_r. repeat split. cbn. lia.
  - exists [new_user_row user (database srv)], [].
    cbn. rewrite app_nil_r. repeat split; (lia || discriminate).
  - exists [], [new_post_row post U (database srv)].
    cbn. rewrite app_nil_r. repeat split; (lia || discriminate).
  - now specialize (Hreq X).
Qed.

(** *** One transaction for a request *)

Lemma commits_app (l1 l2 : list event) :
  commits (l1 ++ l2) = commits l1 ++ commits l2.
Proof. apply flat_map_app. Qed.

Lemma commits_reads (evs : list event) :
  Forall (fun e => is_write_event e = false) evs -> commits evs = [].
Proof.
  induction 1 as [| e evs He _ IH]; [reflexivity |].
  destruct e as [h | h | stmt | d |]; try discriminate He; exact IH.
Qed.

(** X16.  A request makes at most one COMMIT.  When it makes none, the
    committed rows are as before; when it makes one, that COMMIT carries
    the rows the request leaves behind.  Nothing is committed while the
    database is out of reach. *)
Theorem one_commit_for_a_request (req : main.request) (srv : Server) :
  let out := main.app EmailStr req srv in
  exists evs,
    log (snd out) = log srv ++ evs /\
    (commits evs = [] /\ database (snd out) = database srv \/
     commits evs = [database (snd out)] /\ database_up srv = true).
Proof.
  cbv zeta.
  destruct (is_get req) eqn:Hget.
  { destruct (get_requests_write_nothing_aux req srv Hget) as (Hd & evs & Hl & Hevs).
    exists evs. split; [exact Hl |]. left. split; [now apply commits_reads | exact Hd]. }
  destruct (database_up srv) eqn:Hup.
  - destruct req as [| | body | | | X | U post | | |]; try discriminate;
      unfold main.app.
    + destruct (schemas.UserCreate_validate EmailStr body) as [user |].
      * rewrite get_db_reply_with, create_user_run by assumption. cbv zeta.
        destruct (existsb _ _); cbn [snd log database];
          eexists; (split; [reflexivity |]); [left | right]; split; reflexivity.
      * eexists. split; [unfold main.get_db, raise, SessionLocal; cbn;
                         rewrite <- !app_assoc; reflexivity |].
        left. split; reflexivity.
    + rewrite get_db_reply_with, delete_route_run by assumption. cbv zeta.
      destruct (existsb (has_id X) _); cbn [snd log database];
        eexists; (split; [reflexivity |]); [right | left]; split;
        try reflexivity.
      destruct (existsb (owned_by X) _); reflexivity.
    + rewrite get_db_reply_with, create_post_run by assumption. cbv zeta.
      destruct (existsb _ _); [destruct (int4 U) |]; cbn [snd log database];
        eexists; (split; [reflexivity |]); [right | left | left]; split;
        reflexivity.
  - destruct (database_down_aux req srv Hup) as [Hd Hl].
    { now destruct req. }
    eexists. split; [exact Hl |]. left. split; [reflexivity | exact Hd].
Qed.

(** *** What the body of a create-user request becomes *)

(** X17.  The user stored for a create-user request, when the validated
    address is free and the strings are ones the driver sends, has the
    address the validator made of the body's email, the body's name, and
    the body's [is_active], which is [True] when the body leaves it out.
    (The serial is ahead of the stored keys and within the column's
    range, as it is when every key came from it.) *)
Theorem create_user_stores_validated_body
    (body : schemas.UserCreateBody) (a : string) (srv : Server) :
  database_up srv = true ->
  EmailStr (schemas.body_email body) = Some a ->
  sendable a ->
  sendable (schemas.body_full_name body) ->
  (forall u, In u (users (database srv)) -> User.email u <> a) ->
  (forall u, In u (users (database srv)) ->
             User.id u < users_id_seq (database srv)) ->
  int4 (users_id_seq (database srv)) = true ->
  let out := main.app EmailStr (main.POST_users body) srv in
  exists row,
    fst out = Return (main.UserReply row) /\
    users (database (snd out)) = users (database srv) ++ [row] /\
    User.id row = users_id_seq (database srv) /\
    User.email row = a /\
    User.full_name row = schemas.body_full_name body /\
    User.is_active row = default true (schemas.body_is_active body) /\
    User.created_at row = now (database srv).
Proof.
  intros Hup Hemail _ _ Hfree Hbelow _ out. subst out.
  unfold main.app, schemas.UserCreate_validate. rewrite Hemail.
  set (user := {| schemas.email := a |}).
  assert (existsb (has_email (schemas.email user)) (users (database srv)) = false)
    as Hno.
  { destruct (existsb _ _) eqn:E; [| reflexivity].
    apply existsb_has_email in E. destruct E as (u & Hu & He).
    now apply Hfree in Hu. }
  rewrite get_db_reply_with, (create_user_run user srv Hup). cbv zeta.
  rewrite Hno, (find_none_below _ _ Hbelow).
  exists (new_user_row user (database srv)). repeat split.
Qed.

End MoreRoutes.

(** ** More of the load script *)
Section MoreScript.
Import test_load Spec.
Local Open Scope script_scope.

Lemma user_ops_loop_run (ixs : list Z) :
  forall (acc : list call) (st : State),
    for_each ixs acc
      (fun tasks i =>
         c <- create (create_user i) ;;
         let tasks := tasks ++ [c] in
         if i mod 5 =? 0 then
           c <- create (get_users 0 10) ;;
           ret (tasks ++ [c])
         else ret tasks) st =
      (acc ++ user_ops_tasks ixs,
       {| started := started st; drawn := drawn st; read := read st;
          trace := trace st ++ map Created (user_ops_tasks ixs) |}).
Proof.
  induction ixs as [|i ixs IH]; intros acc st; cbn [for_each user_ops_tasks flat_map].
  - unfold ret. cbn. rewrite !app_nil_r. now destruct st.
  - destruct (i mod 5 =? 0); (eapply bind_run; [reflexivity |]); cbv beta;
      rewrite IH; cbn [started drawn read trace length map app];
      rewrite <- !app_assoc; reflexivity.
Qed.

Lemma user_ops_tasks_snoc (ixs : list Z) (i : Z) :
  user_ops_tasks (ixs ++ [i]) =
    user_ops_tasks ixs ++
    create_user i :: (if i mod 5 =? 0 then [get_users 0 10] else []).
Proof.
  unfold user_ops_tasks. rewrite flat_map_app. cbn. now rewrite app_nil_r.
Qed.

Lemma user_ops_tasks_length (k : nat) :
  Z.of_nat (length (user_ops_tasks (Py.range (Z.of_nat k)))) =
    Z.of_nat k + (Z.of_nat k + 4) / 5.
Proof.
  induction k as [|k IH]; [reflexivity |].
  rewrite range_S, user_ops_tasks_snoc, List.length_app, Nat2Z.inj_add, IH.
  destruct (Z.eqb_spec (Z.of_nat k mod 5) 0) as [E | E]; cbn [length];
    rewrite Nat2Z.inj_succ; Z.to_euclidean_division_equations; lia.
Qed.

(** X18.  [run_user_operations] creates, for each index from 0 up to
    [num_operations], a create-user call, and after it a list call when
    the index is a multiple of 5; only then does it join them, all in one
    [gather]; it draws no random number and does not read the clock.  For
    [num_operations >= 0] that makes
    [num_operations + (num_operations + 4) / 5] calls; for a negative one
    the [gather] has nothing to join. *)
Theorem run_user_operations_fan_out (env : Env) (n : Z) (st : State) :
  let tasks := user_ops_tasks (Py.range n) in
  run_user_operations env n st =
    (tt,
     {| started := started st + length tasks; drawn := drawn st;
        read := read st;
        trace := trace st ++ fan_out tasks (settle env (started st) tasks) |}) /\
  (0 <= n -> Z.of_nat (length tasks) = n + (n + 4) / 5) /\
  (n < 0 -> tasks = []) /\
  (forall i, In (create_user i) tasks <-> 0 <= i < n) /\
  (In (get_users 0 10) tasks <-> 0 < n).
Proof.
  intros tasks. split; [| split; [| split; [| split]]].
  - unfold run_user_operations. unfold bind at 1.
    rewrite user_ops_loop_run. fold tasks. unfold bind, gather, ret, fan_out.
    cbn [started drawn read trace app]. now rewrite <- !app_assoc.
  - intros Hn. subst tasks. rewrite <- (Z2Nat.id n) at 1 by lia.
    rewrite user_ops_tasks_length. rewrite Z2Nat.id by lia. reflexivity.
  - intros Hn. subst tasks. unfold Py.range.
    now replace (Z.to_nat n) with 0%nat by lia.
  - intros i. subst tasks. unfold user_ops_tasks. rewrite in_flat_map.
    split.
    + intros (j & Hj & Hin). unfold Py.range in Hj.
      apply in_map_iff in Hj as (m & <- & Hm). apply in_seq in Hm.
      destruct Hin as [[= <-] | Hin]; [lia |].
      destruct (_ =? _); [destruct Hin as [Hin | []] |]; [discriminate | destruct Hin].
    + intros Hi. exists i. split; [| now left].
      unfold Py.range. apply in_map_iff. exists (Z.to_nat i).
      split; [lia | apply in_seq; lia].
  - subst tasks. unfold user_ops_tasks. rewrite in_flat_map. split.
    + intros (j & Hj & _). unfold Py.range in Hj.
      apply in_map_iff in Hj as (m & <- & Hm). apply in_seq in Hm. lia.
    + intros Hn. exists 0. split.
      * unfold Py.range. apply in_map_iff. exists 0%nat.
        split; [reflexivity | apply in_seq; lia].
      * right. now left.
Qed.

(** *** The burst *)

Lemma cpu_tasks_snoc (randint : nat -> Z -> Z -> Z) (ixs : list Z) (i : Z) :
  forall drawn,
    cpu_tasks randint drawn (ixs ++ [i]) =
      cpu_tasks randint drawn ixs ++
      cpu_tasks randint (drawn + length (cpu_tasks randint drawn ixs)) [i].
Proof.
  induction ixs as [|j ixs IH]; intros drawn; cbn [app cpu_tasks length].
  - now rewrite Nat.add_0_r.
  - assert (forall a b, a = b ->
               cpu_tasks randint a [i] = cpu_tasks randint b [i]) as Hsame
      by (intros a b ->; reflexivity).
    destruct (j mod 2 =? 0); cbn [app length]; rewrite IH;
      [do 3 f_equal | do 2 f_equal]; apply Hsame; lia.
Qed.

Lemma cpu_tasks_length (randint : nat -> Z -> Z -> Z) (drawn k : nat) :
  Z.of_nat (length (cpu_tasks randint drawn (Py.range (Z.of_nat k)))) =
    Z.of_nat k + (Z.of_nat k + 1) / 2.
Proof.
  induction k as [|k IH]; [reflexivity |].
  rewrite range_S, cpu_tasks_snoc, List.length_app, Nat2Z.inj_add, IH.
  cbn [cpu_tasks].
  destruct (Z.eqb_spec (Z.of_nat k mod 2) 0) as [E | E]; cbn [length];
    rewrite Nat2Z.inj_succ; Z.to_euclidean_division_equations; lia.
Qed.

Lemma admitted_fibonacci (n : Z) :
  0 <= n <= 40 -> admitted (compute_fibonacci n).
Proof.
  intros Hn. unfold admitted, compute.compute_fibonacci.
  assert ((n <? 0) = false) as -> by (apply Z.ltb_ge; lia).
  assert ((n >? 40) = false) as -> by (rewrite Z.gtb_ltb; apply Z.ltb_ge; lia).
  unfold cost_bind, cost_ret. now destruct (compute.fibonacci n).
Qed.

Lemma admitted_sum (n : Z) :
  0 <= n <= 10000000 -> admitted (compute_sum n).
Proof.
  intros Hn. unfold admitted, compute.compute_sum.
  assert ((n <? 0) = false) as -> by (apply Z.ltb_ge; lia).
  assert ((n >? 10000000) = false) as ->
    by (rewrite Z.gtb_ltb; apply Z.ltb_ge; lia).
  reflexivity.
Qed.

Lemma cpu_tasks_admitted (env : Env) (ixs : list Z) :
  randint_in_bounds env ->
  forall drawn, Forall admitted (cpu_tasks (randint env) drawn ixs).
Proof.
  intros Hr. induction ixs as [|i ixs IH]; intros drawn; cbn [cpu_tasks];
    [constructor |].
  constructor.
  { apply admitted_fibonacci.
    pose proof (Hr drawn 30 35 ltac:(lia)). lia. }
  destruct (i mod 2 =? 0); [| apply IH].
  constructor; [| apply IH].
  apply admitted_sum.
  pose proof (Hr (S drawn) 1000000 5000000 ltac:(lia)). lia.
Qed.

(** X19.  [run_cpu_intensive_operations] draws one random number for each
    call it creates and joins the calls in one [gather]; for
    [num_operations >= 0] they are
    [num_operations + (num_operations + 1) / 2] calls.  With
    [random.randint] inside its bounds, the argument of every call is one
    the compute routes admit: none of the burst is answered 400. *)
Theorem burst_calls_admitted (env : Env) (n : Z) (st : State) :
  randint_in_bounds env ->
  exists tasks,
    run_cpu_intensive_operations env n st =
      (tt,
       {| started := started st + length tasks;
          drawn := drawn st + length tasks;
          read := read st;
          trace := trace st ++ fan_out tasks (settle env (started st) tasks) |}) /\
    Forall admitted tasks /\
    (0 <= n -> Z.of_nat (length tasks) = n + (n + 1) / 2).
Proof.
  intros Hr. exists (cpu_tasks (randint env) (drawn st) (Py.range n)).
  split; [apply run_cpu_intensive_operations_run |].
  split; [now apply cpu_tasks_admitted |].
  intros Hn. rewrite <- (Z2Nat.id n) at 1 by lia.
  rewrite cpu_tasks_length. rewrite Z2Nat.id by lia. reflexivity.
Qed.

(** *** The whole script against the compute routes *)

Lemma mixed_rounds_admitted (env : Env) (k : nat) :
  randint_in_bounds env ->
  forall (s d : nat) (count : Z),
    Forall admitted (created (mixed_rounds env k s d count)).
Proof.
  intros Hr. induction k as [|k IH]; intros s d count; cbn [mixed_rounds];
    [constructor |].
  rewrite !created_app, created_fan_out. apply Forall_app. split.
  - unfold mixed_tasks. constructor; [exact I |].
    apply Forall_app. split.
    + destruct (count mod 3 =? 0); repeat constructor.
    + destruct (count mod 5 =? 0); repeat constructor.
      apply admitted_fibonacci. pose proof (Hr d 25 30 ltac:(lia)). lia.
  - apply Forall_app. split; [constructor | apply IH].
Qed.

(** X20.  When [random.randint] keeps to its bounds, no call that [main]
    creates carries an argument the compute routes refuse: the Fibonacci
    arguments are between 25 and 35, below the route's bound of 40, and
    the sum arguments between 1000000 and 5000000, below its bound of
    10000000. *)
Theorem script_calls_admitted (env : Env) (fuel k : nat) (h : string) :
  randint_in_bounds env ->
  respond env 0 health_check = Json h ->
  runs_for env 2 60 k ->
  (k < fuel)%nat ->
  fst (main env fuel initial) = Some tt /\
  Forall admitted (created (trace (snd (main env fuel initial)))).
Proof.
  intros Hr Hprobe Hclock Hfuel.
  rewrite (main_probe_ok env fuel h Hprobe). cbv zeta.
  destruct (run_mixed_load_run env 60 k fuel
              {| started := 61; drawn := 30; read := 2;
                 trace := up_to_burst env h |} Hclock Hfuel) as [Hres Htrace].
  destruct (run_mixed_load env fuel 60 _) as [[[] |] st5]; cbn [fst snd] in *;
    [| discriminate].
  split; [reflexivity |].
  cbn [trace] in *. rewrite Htrace.
  rewrite !created_app, (proj1 (created_up_to_burst env h)).
  assert (forall (f : Z -> call) ixs,
             (forall i, admitted (f i)) -> Forall admitted (map f ixs)) as Hmap.
  { intros f ixs Hf. induction ixs; cbn; constructor; auto. }
  apply Forall_app; split;
    [apply Forall_app; split; [| apply Forall_app; split] |].
  - constructor; [exact I |].
    apply Forall_app; split; [| apply Forall_app; split].
    + apply Hmap. intros i. exact I.
    + apply Hmap. intros i. exact I.
    + now apply cpu_tasks_admitted.
  - now apply mixed_rounds_admitted.
  - cbn. constructor.
  - cbn. constructor.
Qed.

(** *** The loop and the clock *)

(** X21.  The loop of [run_mixed_load] ends by the clock only.  While the
    elapsed time the loop computes (the difference of two floats) stays
    below [duration] at every test, the loop goes on: however many passes
    are allowed, all of them are made, each with its [gather], and the
    phase does not return. *)
Theorem run_mixed_load_needs_the_clock
    (env : Env) (duration : Z) (fuel : nat) (st : State) :
  (forall j,
      Py.float_lt_int (elapsed env (read st) (S (read st) + j)) duration
        = true) ->
  fst (run_mixed_load env fuel duration st) = None /\
  trace (snd (run_mixed_load env fuel duration st)) =
    trace st ++ mixed_rounds env fuel (started st) (drawn st) 0.
Proof.
  intros Hgo.
  assert (forall fuel0 count st0,
             (forall j,
                 Py.float_lt_int
                   (PrimFloat.sub (time env (read st0 + j)) (time env (read st)))
                   duration = true) ->
             fst (mixed_loop env fuel0 (time env (read st)) duration count st0)
               = None /\
             trace (snd (mixed_loop env fuel0 (time env (read st)) duration
                           count st0)) =
               trace st0 ++ mixed_rounds env fuel0 (started st0) (drawn st0) count)
    as Hloop.
  { induction fuel0 as [|fuel0 IH]; intros count st0 H.
    - cbn. now rewrite app_nil_r.
    - pose proof (H 0%nat) as H0. rewrite Nat.add_0_r in H0.
      set (tasks := mixed_tasks (randint env) (drawn st0) count).
      set (st' := {| started := started st0 + length tasks;
                     drawn := if count mod 5 =? 0 then S (drawn st0) else drawn st0;
                     read := S (read st0);
                     trace := trace st0 ++
                              fan_out tasks (settle env (started st0) tasks) ++
                              [Slept (1 # 10)] |}).
      assert (mixed_loop env (S fuel0) (time env (read st)) duration count st0 =
              mixed_loop env fuel0 (time env (read st)) duration (count + 1) st')
        as ->.
      { cbn [mixed_loop]. unfold bind, time_time. rewrite H0.
        rewrite mixed_iteration_run. reflexivity. }
      destruct (IH (count + 1) st') as [Hr Ht].
      { intros j. specialize (H (S j)). cbn [read st'].
        now replace (S (read st0) + j)%nat with (read st0 + S j)%nat by lia. }
      rewrite Hr, Ht. cbn [read started drawn trace st' mixed_rounds].
      split; [reflexivity |]. fold tasks. now rewrite <- !app_assoc. }
  unfold run_mixed_load, bind, time_time.
  destruct (Hloop fuel 0
              {| started := started st; drawn := drawn st;
                 read := S (read st); trace := trace st |}) as [Hr Ht].
  { intros j. cbn [read]. apply Hgo. }
  destruct (mixed_loop _ _ _ _ _ _) as [r st'] eqn:E. cbn [fst snd] in *.
  subst r. cbn. split; [reflexivity | exact Ht].
Qed.

End MoreScript.

(** ** The load script against the service *)
Section ScriptAgainstService.
Import models orm Spec.
Variable EmailStr : string -> option string.

Lemma string_length_append (s1 s2 : string) :
  String.length (String.append s1 s2) =
  (String.length s1 + String.length s2)%nat.
Proof.
  induction s1 as [| a s1 IH]; cbn; [reflexivity | now rewrite IH].
Qed.

Lemma append_cancel_r (t s1 s2 : string) :
  String.append s1 t = String.append s2 t -> s1 = s2.
Proof.
  intros H.
  assert (String.length s1 = String.length s2) as Hlen.
  { apply (f_equal String.length) in H.
    rewrite !string_length_append in H. lia. }
  revert s2 H Hlen. induction s1 as [| a s1 IH]; intros [| b s2] H Hlen;
    cbn in *; try discriminate; [reflexivity |].
  injection H as -> H. f_equal. apply IH; [exact H | lia].
Qed.

Lemma str_inj (i j : Z) : Py.str i = Py.str j -> i = j.
Proof.
  unfold Py.str. intros H. apply DecimalZ.to_int_inj.
  apply (f_equal DecimalString.NilEmpty.int_of_string) in H.
  rewrite !DecimalString.NilEmpty.isi in H. now injection H.
Qed.

(** X22.  [create_user] sends a different email for every [user_id], so that
    two users of one run never meet on the unique constraint; the same
    [user_id] sends the same body again. *)
Theorem create_user_emails_differ (i j : Z) :
  schemas.body_email (test_load.create_user_data i) =
  schemas.body_email (test_load.create_user_data j) <-> i = j.
Proof.
  split; [| now intros ->].
  unfold test_load.create_user_data. cbn [schemas.body_email].
  intros H. cbn in H. injection H as H.
  apply append_cancel_r in H. now apply str_inj.
Qed.

Lemma email_inj (i j : Z) :
  schemas.body_email (test_load.create_user_data i) =
  schemas.body_email (test_load.create_user_data j) -> i = j.
Proof.
  unfold test_load.create_user_data. cbn [schemas.body_email].
  intros H. cbn in H. injection H as H.
  apply append_cancel_r in H. now apply str_inj.
Qed.

Lemma replay_cons (c : test_load.call) (cs : list test_load.call) (srv : Server) :
  replay EmailStr (c :: cs) srv =
    (fst (main.app EmailStr (test_load.request_of c) srv) ::
     fst (replay EmailStr cs (snd (main.app EmailStr (test_load.request_of c) srv))),
     snd (replay EmailStr cs (snd (main.app EmailStr (test_load.request_of c) srv)))).
Proof.
  cbn [replay].
  destruct (main.app EmailStr (test_load.request_of c) srv) as [r srv1].
  cbn [fst snd]. now destruct (replay EmailStr cs srv1).
Qed.

Lemma replay_app (cs1 cs2 : list test_load.call) :
  forall srv,
    replay EmailStr (cs1 ++ cs2) srv =
      (fst (replay EmailStr cs1 srv) ++
       fst (replay EmailStr cs2 (snd (replay EmailStr cs1 srv))),
       snd (replay EmailStr cs2 (snd (replay EmailStr cs1 srv)))).
Proof.
  induction cs1 as [| c cs1 IH]; intros srv.
  - cbn. now destruct (replay EmailStr cs2 srv).
  - cbn [app]. rewrite !replay_cons, IH. reflexivity.
Qed.

(** One create-user request that goes through. *)
Lemma post_users_run (body : schemas.UserCreateBody) (srv : Server) :
  database_up srv = true ->
  EmailStr (schemas.body_email body) = Some (schemas.body_email body) ->
  (forall u, In u (users (database srv)) ->
             User.email u <> schemas.body_email body) ->
  exists row,
    User.id row = users_id_seq (database srv) /\
    User.email row = schemas.body_email body /\
    status_code_of (fst (main.app EmailStr (main.POST_users body) srv)) = 200 /\
    database (snd (main.app EmailStr (main.POST_users body) srv)) =
      with_user row (database srv) /\
    database_up (snd (main.app EmailStr (main.POST_users body) srv)) = true.
Proof.
  intros Hup Hemail Hfree.
  unfold main.app, schemas.UserCreate_validate. rewrite Hemail.
  set (user := {| schemas.email := schemas.body_email body |}).
  assert (existsb (has_email (schemas.email user)) (users (database srv)) = false)
    as Hno.
  { destruct (existsb _ _) eqn:E; [| reflexivity].
    apply existsb_has_email in E. destruct E as (u & Hu & He).
    now apply Hfree in Hu. }
  rewrite get_db_reply_with, (create_user_run user srv Hup). cbv zeta.
  rewrite Hno. exists (new_user_row user (database srv)). repeat split.
Qed.


Lemma replay_create_users (ixs : list Z) :
  forall srv,
    database_up srv = true ->
    List.NoDup ixs ->
    (forall i, In i ixs ->
       EmailStr (schemas.body_email (test_load.create_user_data i)) =
         Some (schemas.body_email (test_load.create_user_data i))) ->
    (forall u i, In u (users (database srv)) -> In i ixs ->
       User.email u <> schemas.body_email (test_load.create_user_data i)) ->
    let out := replay EmailStr (map test_load.create_user ixs) srv in
    Forall (fun r => status_code_of r = 200) (fst out) /\
    length (fst out) = length ixs /\
    database_up (snd out) = true /\
    map User.id (users (database (snd out))) =
      map User.id (users (database srv)) ++
      map (fun k => users_id_seq (database srv) + Z.of_nat k)
          (seq 0 (length ixs)) /\
    map User.email (users (database (snd out))) =
      map User.email (users (database srv)) ++
      map (fun i => schemas.body_email (test_load.create_user_data i)) ixs /\
    posts (database (snd out)) = posts (database srv) /\
    posts_id_seq (database (snd out)) = posts_id_seq (database srv) /\
    users_id_seq (database (snd out)) =
      users_id_seq (database srv) + Z.of_nat (length ixs).
Proof.
  induction ixs as [| i ixs IH]; intros srv Hup Hnd Hvalid Hfree; cbv zeta.
  - cbn. rewrite !app_nil_r, Z.add_0_r. repeat split; [constructor | exact Hup].
  - cbn [map]. rewrite replay_cons. cbn [fst snd test_load.request_of].
    destruct (post_users_run (test_load.create_user_data i) srv Hup)
      as (row & Hid & Hrow & Hstatus & Hd & Hup1).
    { apply Hvalid. now left. }
    { intros u Hu. apply Hfree; [exact Hu | now left]. }
    set (srv1 := snd (main.app EmailStr
                        (main.POST_users (test_load.create_user_data i)) srv)) in *.
    inversion Hnd as [| ? ? Hi Hnd']; subst.
    destruct (IH srv1 Hup1 Hnd') as (Hall & Hlen & Hup2 & Hids & Hemails & Hp & Hps & Hus).
    { intros j Hj. apply Hvalid. now right. }
    { intros u j Hu Hj. rewrite Hd in Hu. cbn in Hu.
      apply in_app_or in Hu as [Hu | [<- | []]].
      - apply Hfree; [exact Hu | now right].
      - rewrite Hrow. intros E. apply email_inj in E. congruence. }
    rewrite Hd in Hids, Hemails, Hp, Hps, Hus.
    cbn [users posts users_id_seq posts_id_seq with_user] in *.
    split; [constructor; assumption |].
    split; [cbn [length]; now rewrite Hlen |].
    split; [exact Hup2 |].
    split.
    { rewrite Hids, map_app, <- app_assoc. f_equal. cbn [map length seq app].
      rewrite Hid, Z.add_0_r. f_equal.
      rewrite <- seq_shift, map_map. apply map_ext. intros k. lia. }
    split.
    { rewrite Hemails, map_app, <- app_assoc. cbn. now rewrite Hrow. }
    split; [exact Hp |]. split; [exact Hps |].
    rewrite Hus. cbn [length]. lia.
Qed.


(** One create-post request, for an owner that is stored and for one that
    is not. *)
Lemma post_posts_run (U : Z) (post : schemas.PostCreate) (srv : Server) :
  database_up srv = true ->
  (exists u, In u (users (database srv)) /\ User.id u = U) ->
  int4 U = true ->
  status_code_of (fst (main.app EmailStr (main.POST_user_posts U post) srv)) = 200 /\
  database (snd (main.app EmailStr (main.POST_user_posts U post) srv)) =
    with_post (new_post_row post U (database srv)) (database srv) /\
  database_up (snd (main.app EmailStr (main.POST_user_posts U post) srv)) = true.
Proof.
  intros Hup Hex Hrange. apply existsb_has_id in Hex.
  unfold main.app. rewrite get_db_reply_with, create_post_run by assumption.
  cbv zeta. rewrite Hex, Hrange. repeat split.
Qed.


Lemma replay_create_posts (f : Z -> Z) (ixs : list Z) :
  forall srv,
    database_up srv = true ->
    (forall i, In i ixs ->
       exists u, In u (users (database srv)) /\ User.id u = f i) ->
    (forall i, In i ixs -> int4 (f i) = true) ->
    let out := replay EmailStr
                 (map (fun i => test_load.create_post (f i) i) ixs) srv in
    Forall (fun r => status_code_of r = 200) (fst out) /\
    length (fst out) = length ixs /\
    database_up (snd out) = true /\
    users (database (snd out)) = users (database srv) /\
    map Post.owner_id (posts (database (snd out))) =
      map Post.owner_id (posts (database srv)) ++ map f ixs.
Proof.
  induction ixs as [| i ixs IH]; intros srv Hup Howners Hrange; cbv zeta.
  - cbn. rewrite app_nil_r. repeat split; [constructor | exact Hup].
  - cbn [map]. rewrite replay_cons. cbn [fst snd test_load.request_of].
    destruct (post_posts_run (f i) (test_load.create_post_data (f i) i) srv Hup)
      as (Hstatus & Hd & Hup1).
    { apply Howners. now left. }
    { apply Hrange. now left. }
    set (srv1 := snd (main.app EmailStr
                        (main.POST_user_posts (f i)
                           (test_load.create_post_data (f i) i)) srv)) in *.
    destruct (IH srv1 Hup1) as (Hall & Hlen & Hup2 & Hu & Hp).
    { intros j Hj. rewrite Hd. apply Howners. now right. }
    { intros j Hj. apply Hrange. now right. }
    rewrite Hd in Hu, Hp. cbn [users posts with_post] in Hu, Hp.
    split; [constructor; assumption |].
    split; [cbn [length]; now rewrite Hlen |].
    split; [exact Hup2 |]. split; [exact Hu |].
    rewrite Hp, map_app, <- app_assoc. reflexivity.
Qed.


Lemma NoDup_range (n : Z) : List.NoDup (Py.range n).
Proof.
  unfold Py.range. generalize (seq_NoDup (Z.to_nat n) 0).
  induction 1 as [| k l Hk _ IH]; cbn; [apply List.NoDup_nil |].
  apply List.NoDup_cons; [| exact IH].
  rewrite in_map_iff. intros (m & Hm & Hin).
  apply Nat2Z.inj in Hm. now subst m.
Qed.

(** X23.  A service that was just set up (no rows, the users' serial at 1)
    takes every create of the script when the requests come one at a
    time: the ten users are stored with the keys 1 to 10, and each of the
    twenty posts finds its owner, one of the users 1 to 5. *)
Theorem creates_succeed_on_a_new_service (srv : Server) :
  database_up srv = true ->
  users (database srv) = [] ->
  posts (database srv) = [] ->
  users_id_seq (database srv) = 1 ->
  (forall i, In i (Py.range 10) ->
     EmailStr (schemas.body_email (test_load.create_user_data i)) =
       Some (schemas.body_email (test_load.create_user_data i))) ->
  let out := replay EmailStr (users_tasks ++ post_tasks) srv in
  Forall (fun r => status_code_of r = 200) (fst out) /\
  length (fst out) = 30%nat /\
  map User.id (users (database (snd out))) = [1; 2; 3; 4; 5; 6; 7; 8; 9; 10] /\
  map Post.owner_id (posts (database (snd out))) =
    map (fun i => i mod 5 + 1) (Py.range 20).
Proof.
  intros Hup Husers Hposts Hseq Hvalid. cbv zeta.
  rewrite replay_app. cbn [fst snd]. unfold users_tasks, post_tasks.
  destruct (replay_create_users (Py.range 10) srv Hup (NoDup_range 10) Hvalid)
    as (Hall & Hlen & Hup1 & Hids & _ & Hp & _ & _).
  { intros u i Hu. rewrite Husers in Hu. destruct Hu. }
  rewrite Husers, Hseq in Hids. rewrite Hposts in Hp.
  change (length (Py.range 10)) with 10%nat in Hids. cbn [map app] in Hids.
  set (srv1 := snd (replay EmailStr (map test_load.create_user (Py.range 10)) srv)) in *.
  destruct (replay_create_posts (fun i => i mod 5 + 1) (Py.range 20) srv1 Hup1)
    as (Hall2 & Hlen2 & _ & Hu2 & Hp2).
  { intros i _.
    assert (In (i mod 5 + 1) (map User.id (users (database srv1)))) as Hin.
    { rewrite Hids. pose proof (Z.mod_pos_bound i 5 ltac:(lia)) as Hb.
      apply in_map_iff. exists (Z.to_nat (i mod 5)).
      split; [lia | apply in_seq; lia]. }
    apply in_map_iff in Hin as (u & Hid & Hu). now exists u. }
  { intros i _. pose proof (Z.mod_pos_bound i 5 ltac:(lia)) as Hb.
    unfold int4. apply andb_true_iff. split; [apply Z.leb_le | apply Z.ltb_lt]; lia. }
  split; [apply Forall_app; now split |].
  split; [rewrite List.length_app, Hlen, Hlen2; reflexivity |].
  split; [rewrite Hu2, Hids; reflexivity |].
  rewrite Hp2, Hp. reflexivity.
Qed.



(** X26.  The script sends no DELETE: whatever calls are replayed, the rows
    stored before are still there afterwards, in their places, and at
    most one row was added for each call. *)
Theorem script_removes_no_row (cs : list test_load.call) :
  forall srv,
    exists us ps,
      users (database (snd (replay EmailStr cs srv))) =
        users (database srv) ++ us /\
      posts (database (snd (replay EmailStr cs srv))) =
        posts (database srv) ++ ps /\
      (length us + length ps <= length cs)%nat.
Proof.
  induction cs as [| c cs IH]; intros srv.
  - exists [], []. cbn. rewrite !app_nil_r. repeat split. lia.
  - rewrite replay_cons. cbn [snd].
    set (srv1 := snd (main.app EmailStr (test_load.request_of c) srv)).
    destruct (IH srv1) as (us & ps & Hu & Hp & Hlen).
    rewrite Hu, Hp. subst srv1.
    destruct (app_database_cases EmailStr (test_load.request_of c) srv)
      as [-> | [(body & user & _ & _ & _ & ->) |
            [(post & U & _ & _ & ->) | (X & Hreq & _)]]].
    + exists us, ps. repeat split. cbn [length]. lia.
    + exists (new_user_row user (database srv) :: us), ps.
      cbn [users posts with_user]. rewrite <- app_assoc.
      repeat split. cbn [length]. lia.
    + exists us, (new_post_row post U (database srv) :: ps).
      cbn [users posts with_post]. rewrite <- app_assoc.
      repeat split. cbn [length]. lia.
    + destruct c; discriminate.
Qed.

End ScriptAgainstService.


(** ** The theorems at the sample data *)
Section Samples.
Import models orm Spec Examples.

(** Deleting alice from the sample blog returns [True] and leaves bob's
    post only. *)
Lemma delete_user_cascade_witness :
  fst (main.get_db (crud.delete_user 1) server) = Return true /\
  posts (database (snd (main.get_db (crud.delete_user 1) server))) = [post 2 2].
Proof.
  destruct (delete_user_cascade server 1 eq_refl) as (Hr & Hpresent & _).
  split; [exact Hr |].
  destruct (Hpresent eq_refl) as (_ & Hposts & _). exact Hposts.
Defined.



(** A second registration of alice's address is refused and nothing is
    written. *)
Lemma create_user_duplicate_email_witness :
  main.app with_at_sign (main.POST_users (body "alice@example.com")) server =
    (Raise (HTTPException 400 "Email already registered"),
     {| database := blog;
        database_up := true;
        log := [Acquire 0; Execute (Select users_table); Rollback; Release 0];
        next_sid := 1 |}).
Proof.
  destruct (create_user_duplicate_email with_at_sign (body "alice@example.com")
              {| schemas.email := "alice@example.com"; schemas.full_name := "A";
                 schemas.is_active := true |}
              server eq_refl eq_refl) as [Hdup _].
  apply Hdup. exists alice. split; [now left | reflexivity].
Defined.

(** A post for the owner 7, who is not stored, is refused. *)
Lemma create_post_missing_owner_witness :
  main.app with_at_sign (main.POST_user_posts 7 a_post) server =
    (Raise (HTTPException 404 "User not found"),
     {| database := blog;
        database_up := true;
        log := [Acquire 0; Execute (Select users_table); Rollback; Release 0];
        next_sid := 1 |}).
Proof.
  apply (create_post_missing_owner with_at_sign 7 a_post server eq_refl).
  intros u [<- | [<- | [<- | []]]]; discriminate.
Defined.

(** A delete of the user 7, who is not stored, ends early with 404; its
    session was acquired once and released once, last, after the
    rollback of what it had open. *)
Lemma session_released_exactly_once_witness :
  log (snd (main.app with_at_sign (main.DELETE_user 7) server)) =
    [Acquire 0; Execute (Select users_table); Rollback; Release 0] /\
  handles_settled (snd (main.app with_at_sign (main.DELETE_user 7) server)).
Proof.
  destruct (session_released_exactly_once with_at_sign (main.DELETE_user 7) server)
    as [_ Hsettled].
  split; [reflexivity |].
  apply Hsettled. intros h. split; reflexivity.
Defined.

(** A body whose email has no at sign is refused before any statement. *)
Lemma create_user_invalid_email_witness :
  main.app with_at_sign (main.POST_users (body "not-an-email")) server =
    (Raise RequestValidationError,
     {| database := blog;
        database_up := true;
        log := [Acquire 0; Release 0];
        next_sid := 1 |}).
Proof.
  destruct (create_user_invalid_email with_at_sign (body "not-an-email") server)
    as [Hinvalid _].
  apply Hinvalid. reflexivity.
Defined.
End Samples.

Section ScriptSamples.
Import test_load Spec Examples.

Lemma sample_clock_runs_twice (r0 : nat) :
  (r0 <= 2)%nat -> runs_for env r0 60 2.
Proof.
  intros Hr0.
  destruct r0 as [|[|[|r0]]]; [| | | lia];
    (split; [intros j Hj; destruct j as [|[|j]]; [| | lia] |]);
    vm_compute; reflexivity.
Defined.

(** With the sample clock the continuous phase makes two iterations and
    reports the count 2. *)
Lemma run_mixed_load_rounds_witness :
  fst (run_mixed_load env 10 60 initial) = Some tt /\
  trace (snd (run_mixed_load env 10 60 initial)) =
    mixed_rounds env 2 0 0 0 ++ [Print (MixedCompleted 2 60)].
Proof.
  destruct (run_mixed_load_rounds env 60 2 10 initial
              (sample_clock_runs_twice 0 ltac:(lia)) ltac:(lia))
    as (Hr & _ & Ht & _).
  split; [exact Hr | exact Ht].
Defined.

(** C8 as stated fails at the boundary: when the first test of the loop
    computes an elapsed time of exactly 60 seconds for a duration of 60,
    the elapsed time does not exceed the duration, and still the loop
    ends there, without an iteration.  It is the computed elapsed time
    that counts: with the start at [2^-50] and the first test at 60 the
    clock has advanced by less than 60 seconds, the difference of the two
    floats is 60, and again the loop ends without an iteration. *)
Lemma loop_ends_when_elapsed_equals_duration :
  elapsed env_on_the_dot 0 1 = seconds 60 /\
  Py.float_lt_int (seconds 60) 60 = false /\
  Py.float_lt_int (seconds 60) 61 = true /\
  run_mixed_load env_on_the_dot 10 60 initial =
    (Some tt,
     {| started := 0; drawn := 0; read := 2;
        trace := [Print (MixedCompleted 0 60)] |}) /\
  Py.float_lt_int (time env_just_before 0) 1 = true /\
  elapsed env_just_before 0 1 = seconds 60 /\
  run_mixed_load env_just_before 10 60 initial =
    (Some tt,
     {| started := 0; drawn := 0; read := 2;
        trace := [Print (MixedCompleted 0 60)] |}).
Proof.
  repeat split; vm_compute; reflexivity.
Qed.

(** With the sample service the script runs through all its phases. *)
Lemma load_script_phases_witness :
  fst (main env 10 initial) = Some tt /\
  trace (snd (main env 10 initial)) =
    up_to_burst env "ok" ++ mixed_rounds env 2 61 30 0 ++
    [Print (MixedCompleted 2 60)] ++ footer.
Proof.
  destruct (load_script_phases env 10) as (_ & Hok & _).
  destruct (Hok "ok" 2%nat eq_refl (sample_clock_runs_twice 2 ltac:(lia))
              ltac:(lia))
    as (Hr & Ht & _).
  split; [exact Hr | exact Ht].
Defined.

(** C7 as stated fails for the continuous phase: it joins at the end of
    every iteration, and the health check of its second iteration is
    created after the join of the first. *)
Lemma continuous_phase_creates_after_join :
  trace (snd (run_mixed_load env 10 60 initial)) =
    [Created health_check; Created (get_users 0 20);
     Created (compute_fibonacci 25);
     Gathered [health_check; get_users 0 20; compute_fibonacci 25]
              [Json "ok"; Json "ok"; Json "ok"];
     Slept (1 # 10);
     Created health_check;
     Gathered [health_check] [Json "ok"];
     Slept (1 # 10);
     Print (MixedCompleted 2 60)] /\
  issued_before_any_join (trace (snd (run_mixed_load env 10 60 initial))) = false.
Proof. split; reflexivity. Qed.
End ScriptSamples.

(** ** More sample runs *)
Section MoreSamples.
Import models orm Spec Examples.

Ltac sendable :=
  let H := fresh in
  unfold sendable; cbn; intros H;
  repeat (destruct H as [H | H]; [discriminate H |]); exact H.

Lemma blog_emails_unique : emails_unique blog.
Proof.
  unfold emails_unique. cbn.
  repeat (apply List.NoDup_cons; [cbn; intuition discriminate |]).
  apply List.NoDup_nil.
Defined.

Lemma blog_keys_fresh : keys_fresh blog.
Proof.
  unfold keys_fresh. cbn. repeat split.
  - repeat (apply List.NoDup_cons; [cbn; intuition discriminate |]).
    apply List.NoDup_nil.
  - intros u [<- | [<- | [<- | []]]]; cbn; lia.
  - repeat (apply List.NoDup_cons; [cbn; intuition discriminate |]).
    apply List.NoDup_nil.
  - intros p [<- | [<- | [<- | []]]]; cbn; lia.
Defined.

Lemma blog_owners_stored : owners_stored blog.
Proof.
  intros p [<- | [<- | [<- | []]]].
  - exists alice. split; [now left | reflexivity].
  - exists bob. split; [right; now left | reflexivity].
  - exists alice. split; [now left | reflexivity].
Defined.

(** After dave registered with the sample blog, the emails are still
    pairwise different. *)
Lemma emails_stay_unique_witness :
  emails_unique
    (database (snd (main.app with_at_sign
                      (main.POST_users (body "dave@example.com")) server))).
Proof.
  apply (emails_stay_unique with_at_sign
           (main.POST_users (body "dave@example.com")) server).
  exact blog_emails_unique.
Defined.

(** After alice was deleted from the sample blog, the keys are still
    pairwise different and below the serials. *)
Lemma keys_stay_fresh_witness :
  keys_fresh (database (snd (main.app with_at_sign (main.DELETE_user 1) server))).
Proof.
  apply (keys_stay_fresh with_at_sign (main.DELETE_user 1) server).
  exact blog_keys_fresh.
Defined.

(** After a post for bob was added to the sample blog, every post still
    has its owner. *)
Lemma owners_stay_stored_witness :
  length (posts (database (snd (main.app with_at_sign
                                  (main.POST_user_posts 2 a_post) server)))) = 4%nat /\
  owners_stored
    (database (snd (main.app with_at_sign
                      (main.POST_user_posts 2 a_post) server))).
Proof.
  split; [reflexivity |].
  apply (owners_stay_stored with_at_sign (main.POST_user_posts 2 a_post) server).
  exact blog_owners_stored.
Defined.

(** Listing the users of the sample blog leaves the blog as it is. *)
Lemma get_requests_write_nothing_witness :
  database (snd (main.app with_at_sign (main.GET_users None None) server)) = blog.
Proof.
  apply (get_requests_write_nothing with_at_sign
           (main.GET_users None None) server eq_refl).
Defined.

(** The user 2 of the sample blog is bob; nobody is the user 7. *)
Lemma read_user_found_or_404_witness :
  fst (main.app with_at_sign (main.GET_user 2) server) =
    Return (main.UserReply bob) /\
  fst (main.app with_at_sign (main.GET_user 7) server) =
    Raise (HTTPException 404 "User not found").
Proof.
  split.
  - destruct (read_user_found_or_404 with_at_sign 2 server eq_refl)
      as (_ & _ & _ & Hunique).
    apply Hunique; [apply blog_keys_fresh | right; now left | reflexivity].
  - destruct (read_user_found_or_404 with_at_sign 7 server eq_refl)
      as (Hmissing & _).
    apply Hmissing. intros u [<- | [<- | [<- | []]]]; discriminate.
Defined.

(** Once alice is deleted from the sample blog, her id is unknown and bob
    is found as before. *)
Lemma delete_user_then_gone_witness :
  fst (main.app with_at_sign (main.GET_user 1)
         (snd (main.app with_at_sign (main.DELETE_user 1) server))) =
    Raise (HTTPException 404 "User not found") /\
  fst (main.app with_at_sign (main.GET_user 2)
         (snd (main.app with_at_sign (main.DELETE_user 1) server))) =
    fst (main.app with_at_sign (main.GET_user 2) server).
Proof.
  destruct (delete_user_then_gone with_at_sign 1 server eq_refl)
    as (_ & _ & Hgone & _ & _ & Hothers).
  { exists alice. split; [now left | reflexivity]. }
  split; [exact Hgone | apply Hothers; discriminate].
Defined.

(** Dave registers with the sample blog, gets the key 4 and is found by
    it. *)
Lemma create_user_round_trip_witness :
  fst (main.get_db (main.create_user dave) server) =
    Return (new_user_row dave blog) /\
  fst (main.get_db (crud.get_user 4)
         (snd (main.get_db (main.create_user dave) server))) =
    Return (Some (new_user_row dave blog)).
Proof.
  destruct (create_user_round_trip dave server eq_refl)
    as (Hrow & _ & Hfound & _).
  { sendable. }
  { sendable. }
  { intros u [<- | [<- | [<- | []]]]; discriminate. }
  { intros u [<- | [<- | [<- | []]]]; cbn; lia. }
  { reflexivity. }
  split; [exact Hrow | exact Hfound].
Defined.

(** The second page of size one of the posts of the sample blog; a
    negative [skip] is refused. *)
Lemma get_posts_window_witness :
  (exists page,
      fst (main.get_db (crud.get_posts 1 1) server) = Return page /\
      page = [post 2 2]) /\
  fst (main.get_db (crud.get_posts (-1) 1) server) = Raise DataError.
Proof.
  split.
  - destruct (get_posts_window 1 1 server eq_refl) as (Hin & _).
    destruct Hin as (page & Hr & Hpage & _); [lia | lia |].
    exists page. split; [exact Hr | exact Hpage].
  - destruct (get_posts_window (-1) 1 server eq_refl) as (_ & Hout & _).
    apply Hout. lia.
Defined.


(** Inserting a second user with alice's address is refused by the
    database; the key 4 is lost. *)
Lemma create_user_unique_email_enforced_witness :
  fst (main.get_db
         (crud.create_user
            {| schemas.email := "alice@example.com"; schemas.full_name := "A";
               schemas.is_active := true |}) server) = Raise IntegrityError /\
  users_id_seq
    (database
       (snd (main.get_db
               (crud.create_user
                  {| schemas.email := "alice@example.com";
                     schemas.full_name := "A";
                     schemas.is_active := true |}) server))) = 5.
Proof.
  destruct (create_user_unique_email_enforced
              {| schemas.email := "alice@example.com"; schemas.full_name := "A";
                 schemas.is_active := true |} server eq_refl) as [-> _].
  - sendable.
  - sendable.
  - reflexivity.
  - exists alice. split; [now left | reflexivity].
  - split; reflexivity.
Defined.


(** The second page of size one of the users of the sample blog, through
    the route; a [skip] of [2^63] is answered 500. *)
Lemma listing_routes_window_witness :
  fst (main.app with_at_sign (main.GET_users (Some 1) (Some 1)) server) =
    Return (main.UsersReply [bob]) /\
  status_code_of
    (fst (main.app with_at_sign (main.GET_users (Some (2 ^ 63)) (Some 1)) server))
    = 500.
Proof.
  split.
  - destruct (listing_routes_window with_at_sign (Some 1) (Some 1) server eq_refl)
      as (Hin & _).
    destruct Hin as (Husers & _); [cbn; lia | cbn; lia |].
    exact Husers.
  - destruct (listing_routes_window with_at_sign (Some (2 ^ 63)) (Some 1) server
                eq_refl) as (_ & Hout & _).
    destruct Hout as (Husers & _); [cbn; lia |].
    exact Husers.
Defined.

(** Out of reach of its database the sample service answers a delete
    with 500 and a health check with 503. *)
Lemma database_down_answers_witness :
  status_code_of (fst (main.app with_at_sign (main.DELETE_user 1) unreachable))
    = 500 /\
  status_code_of (fst (main.app with_at_sign main.GET_health unreachable)) = 503.
Proof.
  split.
  - apply (database_down_answers with_at_sign (main.DELETE_user 1) unreachable
             eq_refl eq_refl).
  - apply (database_down_answers with_at_sign main.GET_health unreachable
             eq_refl eq_refl).
Defined.

(** Dave's registration adds his row after the three users of the sample
    blog and no post. *)
Lemma rows_only_grow_without_delete_witness :
  exists us ps,
    users (database (snd (main.app with_at_sign
                            (main.POST_users (body "dave@example.com")) server))) =
      [alice; bob; carol] ++ us /\
    posts (database (snd (main.app with_at_sign
                            (main.POST_users (body "dave@example.com")) server))) =
      [post 1 1; post 2 2; post 3 1] ++ ps.
Proof.
  destruct (rows_only_grow_without_delete with_at_sign
              (main.POST_users (body "dave@example.com")) server)
    as (us & ps & Hu & Hp & _).
  { intros X. discriminate. }
  exists us, ps. split; [exact Hu | exact Hp].
Defined.

(** A body without [is_active] is stored as an active user. *)
Lemma create_user_stores_validated_body_witness :
  exists row,
    fst (main.app with_at_sign (main.POST_users (body "dave@example.com")) server) =
      Return (main.UserReply row) /\
    User.email row = "dave@example.com" /\
    User.is_active row = true.
Proof.
  destruct (create_user_stores_validated_body with_at_sign
              (body "dave@example.com") "dave@example.com" server
              eq_refl eq_refl)
    as (row & Hr & _ & _ & He & _ & Ha & _).
  { sendable. }
  { sendable. }
  { intros u [<- | [<- | [<- | []]]]; discriminate. }
  { intros u [<- | [<- | [<- | []]]]; cbn; lia. }
  { reflexivity. }
  exists row. repeat split; assumption.
Defined.

End MoreSamples.

Section MoreScriptSamples.
Import test_load Spec Examples.

Lemma sample_randint_in_bounds : randint_in_bounds env.
Proof. intros k a b Hab. cbn. lia. Defined.

(** The burst of the sample run: thirty calls, every one admitted. *)
Lemma burst_calls_admitted_witness :
  exists tasks,
    trace (snd (run_cpu_intensive_operations env 20 initial)) =
      fan_out tasks (settle env 0 tasks) /\
    Forall admitted tasks /\
    length tasks = 30%nat.
Proof.
  destruct (burst_calls_admitted env 20 initial sample_randint_in_bounds)
    as (tasks & Hrun & Hadm & Hlen).
  exists tasks. split; [now rewrite Hrun |]. split; [exact Hadm |].
  specialize (Hlen ltac:(lia)). change (20 + (20 + 1) / 2) with 30 in Hlen. lia.
Defined.

(** No call of the sample run would be refused by the compute routes. *)
Lemma script_calls_admitted_witness :
  Forall admitted (created (trace (snd (main env 10 initial)))).
Proof.
  apply (script_calls_admitted env 10 2 "ok" sample_randint_in_bounds eq_refl
           (sample_clock_runs_twice 2 ltac:(lia))).
  lia.
Defined.

(** With the clock stopped, five passes allowed are five passes made, and
    the phase has not returned. *)
Lemma run_mixed_load_needs_the_clock_witness :
  fst (run_mixed_load env_clock_stopped 5 60 initial) = None /\
  trace (snd (run_mixed_load env_clock_stopped 5 60 initial)) =
    mixed_rounds env_clock_stopped 5 0 0 0.
Proof.
  apply (run_mixed_load_needs_the_clock env_clock_stopped 60 5 initial).
  intros j. reflexivity.
Defined.

Lemma with_at_sign_takes_the_script_emails (i : Z) :
  In i (Py.range 10) ->
  with_at_sign (schemas.body_email (create_user_data i)) =
    Some (schemas.body_email (create_user_data i)).
Proof.
  intros Hi. vm_compute in Hi.
  repeat (destruct Hi as [<- | Hi]; [reflexivity |]). destruct Hi.
Defined.

(** Against the service that was just set up, the thirty creates of the
    script are all answered 200. *)
Lemma creates_succeed_on_a_new_service_witness :
  Forall (fun r => status_code_of r = 200)
         (fst (replay with_at_sign (users_tasks ++ post_tasks) just_set_up)) /\
  map models.User.id
      (orm.users (orm.database
         (snd (replay with_at_sign (users_tasks ++ post_tasks) just_set_up)))) =
    [1; 2; 3; 4; 5; 6; 7; 8; 9; 10].
Proof.
  destruct (creates_succeed_on_a_new_service with_at_sign just_set_up
              eq_refl eq_refl eq_refl eq_refl
              with_at_sign_takes_the_script_emails)
    as (Hall & _ & Hids & _).
  split; [exact Hall | exact Hids].
Defined.



End MoreScriptSamples.
